(** * QCLAS spectral calculations: a shallow embedding of [specCal.py]

    The development follows the Python module [specCal]: the direct
    absorption routine [calDas], the grid and driving-current synthesis of
    [calWms], and the metrology helper [peakTroughHeight].

    Number model.  NumPy arrays of binary64 values are idealised: grids,
    raw coefficients and laser waveforms are lists of real numbers (they go
    through [exp] and [sin]), and the rounding of their sums and products
    is left out.  Two places of the code depend on more than that, and
    there binary64 is written out: the sample count of line 330 truncates
    a quotient that has been rounded three times ([Binary64.round]), and
    [np.exp] of line 202 returns [0.0] and [inf] outside the range of
    binary64 ([Das.np_exp]), so that a spectrum is a list of [Das.np64].
    The sampled signal of [peakTroughHeight], which only sees comparisons,
    sums and one division, is a list of rationals, so that the function
    runs inside Rocq.

    The HITRAN interface [hapi] is an external Python package; it enters as
    the type class [Hapi] over an abstract table store. *)

From Stdlib Require Import Reals Lra Lia ZArith List String Bool.
From Stdlib Require Import QArith Qround Qreduction Qreals Qabs.
Import ListNotations.

(** ** Python outcomes *)

Inductive exn : Type :=
| Exception (msg : string)
| ValueError
| ZeroDivisionError
| UnboundLocalError
| OverflowError.

Inductive py (A : Type) : Type :=
| Return (a : A)
| Raise (e : exn).

Arguments Return {A} a.
Arguments Raise {A} e.

Definition py_bind {A B : Type} (m : py A) (k : A -> py B) : py B :=
  match m with
  | Return a => k a
  | Raise e => Raise e
  end.

(** ** Binary64 arithmetic *)

Module Binary64.

Local Open Scope R_scope.

(** Powers of two. *)
Definition bpow (e : Z) : R := powerRZ 2 e.

(** The integer nearest to [y], a tie going to the even one. *)
Definition rne (y : R) : Z :=
  let f := Zfloor y in
  if Rlt_dec (y - IZR f) (1 / 2) then f
  else if Rlt_dec (1 / 2) (y - IZR f) then (f + 1)%Z
  else if Z.even f then f else (f + 1)%Z.

(** The exponent of the leading bit of [a]: the first [e' <= e] with
    [2 ^ e' <= a], searched downward and no lower than [e - fuel]. *)
Fixpoint magnitude (fuel : nat) (e : Z) (a : R) : Z :=
  match fuel with
  | O => e
  | S k => if Rle_dec (bpow e) a then e else magnitude k (e - 1) a
  end.

(** [x] rounded to a multiple of [2 ^ (e - 52)]: 53 significant bits for a
    number whose leading bit has the exponent [e].  A result of [2 ^ 1024]
    or more is no finite binary64 number. *)
Definition round_at (e : Z) (x : R) : option R :=
  let ulp := bpow (e - 52) in
  let r := IZR (rne (x / ulp)) * ulp in
  if Rle_dec (bpow 1024) (Rabs r) then None else Some r.

(** The result of one binary64 operation whose exact value is [x]: round
    to nearest, ties to even.  The exponent of the leading bit lies between
    -1022 and 1023; below [2 ^ -1022] the numbers are the multiples of
    [2 ^ -1074].  [None] stands for an infinite result. *)
Definition round (x : R) : option R :=
  if Rle_dec (bpow 1024) (Rabs x) then None
  else round_at (magnitude 2045 1023 (Rabs x)) x.

(** The same rounding on rationals, where it runs. *)
Definition rneQ (y : Q) : Z :=
  let f := Qfloor y in
  match (y - inject_Z f ?= 1 # 2)%Q with
  | Lt => f
  | Gt => (f + 1)%Z
  | Eq => if Z.even f then f else (f + 1)%Z
  end.

Fixpoint magnitudeQ (fuel : nat) (e : Z) (a : Q) : Z :=
  match fuel with
  | O => e
  | S k => if Qle_bool (2 ^ e) a then e else magnitudeQ k (e - 1) a
  end.

Definition roundQ_at (e : Z) (x : Q) : option Q :=
  let ulp := (2 ^ (e - 52))%Q in
  let r := (inject_Z (rneQ (x / ulp)) * ulp)%Q in
  if Qle_bool (2 ^ 1024) (Qabs r) then None else Some r.

Definition roundQ (x : Q) : option Q :=
  if Qle_bool (2 ^ 1024) (Qabs x) then None
  else roundQ_at (magnitudeQ 2045 1023 (Qabs x)) x.

End Binary64.

(** ** Direct absorption: [calDas] *)

Module Das.

Local Open Scope R_scope.
Local Open Scope string_scope.

(** Module-level constants of [specCal.py]. *)
Definition kb : R := 1.38064852e-23.
Definition nA : R := 6.022e23.

(** One entry of [gasList]: a dict with keys ['gas'], ['p'], ['t'], ['l'],
    ['c']. *)
Record GasParams : Type := mkGas {
  gas : string;
  p : R;
  t : R;
  l : R;
  c : R
}.

(** An element of a spectrum as NumPy holds it: a finite number, or one of
    the binary64 values [inf], [-inf] and [nan]. *)
Inductive np64 : Type :=
| Finite (x : R)
| PosInf
| NegInf
| NotANumber.

(** [np.exp] on a finite number.  Binary64 has no positive number below
    [2 ^ -1074]: an exponential of at most half of it, [2 ^ -1075], is
    returned as [0.0] (for arguments below about -745.13).  Its largest
    number is [2 ^ 1024 - 2 ^ 971]: an exponential that rounds beyond it
    is returned as [inf] (for arguments above about 709.78).  In between
    the rounding of the result is left out. *)
Definition np_exp (x : R) : np64 :=
  if Rle_dec (exp x) (Binary64.bpow (-1075)) then Finite 0
  else if Rle_dec (Binary64.bpow 1024 - Binary64.bpow 970) (exp x) then PosInf
  else Finite (exp x).

(** The product and the sum of two elements; [inf * 0] and [inf - inf] are
    [nan]. *)
Definition np_mul (a b : np64) : np64 :=
  match a, b with
  | NotANumber, _ | _, NotANumber => NotANumber
  | Finite x, Finite y => Finite (x * y)
  | Finite x, PosInf | PosInf, Finite x =>
      if Req_dec_T x 0 then NotANumber
      else if Rlt_dec 0 x then PosInf else NegInf
  | Finite x, NegInf | NegInf, Finite x =>
      if Req_dec_T x 0 then NotANumber
      else if Rlt_dec 0 x then NegInf else PosInf
  | PosInf, PosInf | NegInf, NegInf => PosInf
  | PosInf, NegInf | NegInf, PosInf => NegInf
  end.

Definition np_add (a b : np64) : np64 :=
  match a, b with
  | NotANumber, _ | _, NotANumber => NotANumber
  | Finite x, Finite y => Finite (x + y)
  | PosInf, NegInf | NegInf, PosInf => NotANumber
  | PosInf, _ | _, PosInf => PosInf
  | NegInf, _ | _, NegInf => NegInf
  end.

(** One entry of the returned list: keys ['gasParams'], ['nu'],
    ['spectrum']. *)
Record DasResult : Type := mkResult {
  gasParams : GasParams;
  nu : list R;
  spectrum : list np64
}.

(** [np.min] and [np.max]; both raise [ValueError] on an empty array. *)
Definition np_min (a : list R) : py R :=
  match a with
  | [] => Raise ValueError
  | x :: xs => Return (fold_left Rmin xs x)
  end.

Definition np_max (a : list R) : py R :=
  match a with
  | [] => Raise ValueError
  | x :: xs => Return (fold_left Rmax xs x)
  end.

Definition Rltb (x y : R) : bool := if Rlt_dec x y then true else false.

(** [mixRatio2numDen]: Python float division raises on a zero divisor. *)
Definition mixRatio2numDen (c p T : R) : py R :=
  if Req_dec_T T 0 then Raise ZeroDivisionError
  else Return (p * 1.013e5 / kb / T * 1e-6 * c).

(** Lines 169-172: the local [n] is bound only when one of the two flags is
    set; the molar-density branch overrides the mixing-ratio one. *)
Definition number_density (xi_to_nden mden_to_nden : bool) (g : GasParams)
    (p_atm : R) : py (option R) :=
  py_bind (if xi_to_nden
           then py_bind (mixRatio2numDen (c g) p_atm (t g))
                        (fun n => Return (Some n))
           else Return None)
    (fun n =>
       if mden_to_nden then Return (Some (nA * c g * 1e-6)) else Return n).

(** Reading the local [n]. *)
Definition read_n (n : option R) : py R :=
  match n with
  | Some v => Return v
  | None => Raise UnboundLocalError
  end.

(** Lines 198-202: scaling of the raw coefficient by [mode]; the adapter's
    coefficients are finite numbers. *)
Definition apply_mode (mode : string) (n : option R) (len : R)
    (coeff : list R) : py (list np64) :=
  if mode =? "Absorbance" then
    py_bind (read_n n) (fun n' =>
      Return (map (fun k => Finite (k * n' * len)) coeff))
  else if mode =? "Transmission" then
    py_bind (read_n n) (fun n' =>
      let coeff' := map (fun k => k * n' * len) coeff in
      Return (map (fun k => np_exp (- k)) coeff'))
  else Return (map Finite coeff).

(** The part of [hapi] that [calDas] calls, over the table store [db] that
    [hapi] keeps in a module-level cache. *)
Class Hapi (db : Type) : Type := {
  (** [hapi.tableList()] *)
  tableList : db -> list string;
  (** [hapi.getColumn(table, 'nu')] *)
  getColumn_nu : db -> string -> list R;
  (** [hapi.select(table, Conditions=('AND', ('BETWEEN','nu',lo,hi),
      ('>=','sw',iCut)), DestinationTableName='tmp')] *)
  select_tmp : db -> string -> R -> R -> R -> db;
  (** [hapi.absorptionCoefficient_Voigt(SourceTables='tmp', OmegaGrid,
      Environment={'T','p'})] *)
  absorptionCoefficient_Voigt : db -> list R -> R -> R -> list R * list R;
  (** the three profiles that also receive [IntensityThreshold] *)
  absorptionCoefficient_HT : db -> list R -> R -> R -> R -> list R * list R;
  absorptionCoefficient_Doppler :
    db -> list R -> R -> R -> R -> list R * list R;
  absorptionCoefficient_Lorentz :
    db -> list R -> R -> R -> R -> list R * list R;
  (** [hapi.dropTable('tmp')] *)
  dropTable_tmp : db -> db
}.

Section CalDas.

Context {db : Type} {hapi : Hapi db}.

(** Lines 174-197: the [if]/[elif] chain over [profile]. *)
Definition line_shape (profile : string) (s : db) (grid : list R)
    (T p_atm iCut : R) : py (list R * list R) :=
  if profile =? "Voigt" then
    Return (absorptionCoefficient_Voigt s grid T p_atm)
  else if profile =? "HT" then
    Return (absorptionCoefficient_HT s grid T p_atm iCut)
  else if profile =? "Doppler" then
    Return (absorptionCoefficient_Doppler s grid T p_atm iCut)
  else if profile =? "Lorentz" then
    Return (absorptionCoefficient_Lorentz s grid T p_atm iCut)
  else Raise (Exception "No suitable profile.").

(** The four comparisons of lines 157-160, joined by [|]. *)
Definition out_of_range (minNu maxNu minTab maxTab : R) : bool :=
  Rltb minNu (minTab - 1) || Rltb (maxTab + 1) minNu
  || Rltb (maxTab + 1) maxNu || Rltb maxNu (minTab - 1).

Definition msg_gas : string := "Cannot find specified gas.".
Definition msg_range : string :=
  "Cannot find lines within specified wavenumber range, please download data.".

(** What one pass through the loop body leaves behind: an early
    [return str(...)], or the rebound local [nu] with the appended result. *)
Definition step_result : Type := (string + list R * DasResult)%type.

(** Lines 154-208, one iteration for [gasParams] with the current value of
    the local [nu] and the table store [s]. *)
Definition calDas_body (profile mode : string) (iCut : R)
    (xi_to_nden mden_to_nden : bool)
    (g : GasParams) (grid : list R) (s : db) : py step_result * db :=
  if negb (existsb (String.eqb (gas g)) (tableList s)) then
    (Return (inl msg_gas), s)
  else
    let nuInTable := getColumn_nu s (gas g) in
    match np_min grid, np_max grid, np_min nuInTable, np_max nuInTable with
    | Return minNu, Return maxNu, Return minTab, Return maxTab =>
        if out_of_range minNu maxNu minTab maxTab then
          (Return (inl msg_range), s)
        else
          let s1 := select_tmp s (gas g) minNu maxNu iCut in
          let p_atm := p g / 1.013e3 in
          let T := t g in
          match number_density xi_to_nden mden_to_nden g p_atm with
          | Raise e => (Raise e, s1)
          | Return n =>
              match line_shape profile s1 grid T p_atm iCut with
              | Raise e => (Raise e, s1)
              | Return (grid', coeff) =>
                  match apply_mode mode n (l g) coeff with
                  | Raise e => (Raise e, s1)
                  | Return coeff' =>
                      (Return (inr (grid', mkResult g grid' coeff')),
                       dropTable_tmp s1)
                  end
              end
          end
    | _, _, _, _ => (Raise ValueError, s)
    end.

(** The [for] loop of line 153 with its accumulator [results]; the local
    [nu] is threaded from one iteration to the next. *)
Fixpoint calDas_loop (profile mode : string) (iCut : R)
    (xi_to_nden mden_to_nden : bool) (results : list DasResult)
    (gasList : list GasParams) (grid : list R) (s : db)
    : py (string + list DasResult) * db :=
  match gasList with
  | [] => (Return (inr results), s)
  | g :: rest =>
      match calDas_body profile mode iCut xi_to_nden mden_to_nden g grid s with
      | (Raise e, s') => (Raise e, s')
      | (Return (inl msg), s') => (Return (inl msg), s')
      | (Return (inr (grid', result)), s') =>
          calDas_loop profile mode iCut xi_to_nden mden_to_nden
            (results ++ [result]) rest grid' s'
      end
  end.

(** [calDas(gasList, nu, profile, mode, iCut, xi_to_nden, mden_to_nden)]:
    the value returned (a message or the list of results) or the exception
    raised, with the table store left behind. *)
Definition calDas (gasList : list GasParams) (grid : list R)
    (profile mode : string) (iCut : R) (xi_to_nden mden_to_nden : bool)
    (s : db) : py (string + list DasResult) * db :=
  calDas_loop profile mode iCut xi_to_nden mden_to_nden [] gasList grid s.

(** The loop's continuation seen from one iteration: the results of the
    remaining gases come after those already collected, and a message or
    an exception replaces them all. *)
Definition prepend (acc : list DasResult)
    (o : py (string + list DasResult) * db)
    : py (string + list DasResult) * db :=
  match o with
  | (Return (inr rs), s) => (Return (inr (acc ++ rs)%list), s)
  | other => other
  end.

(** The plotted part of an outcome: per gas the grid and the spectrum,
    without the echoed ['gasParams']. *)
Definition curves (o : py (string + list DasResult) * db)
    : py (string + list (list R * list np64)) * db :=
  match o with
  | (Return (inr rs), s) =>
      (Return (inr (map (fun r => (nu r, spectrum r)) rs)), s)
  | (Return (inl msg), s) => (Return (inl msg), s)
  | (Raise e, s) => (Raise e, s)
  end.

End CalDas.

(** The four profile names of the [if]/[elif] chain. *)
Definition supported (profile : string) : Prop :=
  profile = "Voigt" \/ profile = "HT" \/ profile = "Doppler"
  \/ profile = "Lorentz".

(** GasParameters as the data model constrains them: positive pressure,
    temperature and path length; the concentration is any number. *)
Definition valid_gas (g : GasParams) : Prop :=
  0 < p g /\ 0 < t g /\ 0 < l g.

(** Two gases that differ at most in concentration and path length. *)
Definition same_but_c_l (g g' : GasParams) : Prop :=
  gas g = gas g' /\ p g = p g' /\ t g = t g'.

(** Two outcomes of one iteration that agree on everything but the echoed
    gas. *)
Definition step_agree {db : Type}
    (o1 o2 : py (string + list R * DasResult) * db) : Prop :=
  match o1, o2 with
  | (Return (inr (g1, r1)), s1), (Return (inr (g2, r2)), s2) =>
      g1 = g2 /\ s1 = s2 /\ nu r1 = nu r2 /\ spectrum r1 = spectrum r2
  | (Return (inl m1), s1), (Return (inl m2), s2) => m1 = m2 /\ s1 = s2
  | (Raise e1, s1), (Raise e2, s2) => e1 = e2 /\ s1 = s2
  | _, _ => False
  end.

(** Beer-Lambert: a Transmission result [rt] against the raw-coefficient
    result [rc] of the same gas, with the number density the code derives
    for that gas. *)
Definition beer_lambert (xi_to_nden mden_to_nden : bool)
    (rt rc : DasResult) : Prop :=
  gasParams rt = gasParams rc /\ nu rt = nu rc /\
  exists n raw,
    number_density xi_to_nden mden_to_nden (gasParams rt)
      (p (gasParams rt) / 1.013e3) = Return (Some n) /\
    spectrum rc = map Finite raw /\
    spectrum rt =
    map (fun k => np_exp (- (k * n * l (gasParams rt)))) raw.

(** A Transmission value [vt] against the Absorbance value [va] of the same
    point.  The second is a finite number [a] and the first is [np.exp] of
    its opposite; when [exp (- a)] is in the range of the normal binary64
    numbers (for [a] between about -709.78 and 708.39) the first is that
    exponential, and minus its logarithm gives [a] back. *)
Definition round_trip (vt va : np64) : Prop :=
  exists a,
    va = Finite a /\ vt = np_exp (- a) /\
    (Binary64.bpow (-1022) <= exp (- a) <= Binary64.bpow 1023 ->
     exists v, vt = Finite v /\ 0 < v /\ - ln v = a).

(** The round trip over a result: the Transmission result [rt] against the
    Absorbance result [ra] of the same gas. *)
Definition minus_log (rt ra : DasResult) : Prop :=
  gasParams rt = gasParams ra /\ nu rt = nu ra /\
  Forall2 round_trip (spectrum rt) (spectrum ra).

(** A Transmission value [vt] of the closed unit interval, against the
    Absorbance value [va] of the same point: it is [0.0] exactly when the
    exponential is at most [2 ^ -1075] (an absorbance above about 745.13)
    and positive otherwise, and it is the exponential when that is a
    normal binary64 number (an absorbance of at most about 708.39). *)
Definition unit_value (vt va : np64) : Prop :=
  exists v a,
    vt = Finite v /\ va = Finite a /\ 0 <= a /\ 0 <= v <= 1 /\
    (v = 0 <-> exp (- a) <= Binary64.bpow (-1075)) /\
    (Binary64.bpow (-1022) <= exp (- a) -> v = exp (- a)).

Definition in_unit_interval (rt ra : DasResult) : Prop :=
  Forall2 unit_value (spectrum rt) (spectrum ra).

(** A result of finite values none of which is negative. *)
Definition nonnegative (r : DasResult) : Prop :=
  Forall (fun v => exists k, v = Finite k /\ 0 <= k) (spectrum r).

(** *** Further definitions of the module *)

(** The module constant [R], the universal gas constant (the name [R] is
    the type of the reals here). *)
Definition Rgas : R := 8.314.

(** [mixRatio2molDen]. *)
Definition mixRatio2molDen (c p T : R) : py R :=
  if Req_dec_T T 0 then Raise ZeroDivisionError
  else Return (p * 1.013e5 / Rgas / T * c).

(** Two gases with the same name, pressure and temperature whose column
    (concentration times path length) is in the ratio [k]. *)
Definition column_scaled (k : R) (g g' : GasParams) : Prop :=
  same_but_c_l g g' /\ c g' * l g' = k * (c g * l g).

(** The curves of an outcome with every spectrum multiplied by [k]. *)
Definition scale_spectra {db : Type} (k : R)
    (o : py (string + list (list R * list np64)) * db)
    : py (string + list (list R * list np64)) * db :=
  match o with
  | (Return (inr cs), s) =>
      (Return (inr (map (fun cv => (fst cv, map (np_mul (Finite k)) (snd cv)))
                      cs)), s)
  | other => other
  end.

End Das.

(** ** Wavelength modulation: the grid and current synthesis of [calWms] *)

Module Wms.

Import Das.
Local Open Scope R_scope.

(** Python's [int] on a float: truncation toward zero. *)
Definition py_int (x : R) : Z :=
  if Rle_dec 0 x then Zfloor x else Zceil x.

(** Rounding to the nearest integer, halves away from zero (Python 2's
    [round]); it is what the specification's word "round" denotes and is
    never called by [specCal.py]. *)
Definition py_round (x : R) : Z :=
  if Rle_dec 0 x then Zfloor (x + 0.5) else Zceil (x - 0.5).

(** [np.linspace(start, stop, num)] with its default [endpoint=True]: the
    samples are [i * step + start], and the last one is overwritten by
    [stop]. *)
Definition linspace (start stop : R) (num : Z) : py (list R) :=
  if (num <? 0)%Z then Raise ValueError
  else
    match Z.to_nat num with
    | O => Return []
    | S O => Return [start]
    | S (S m) =>
        let step := (stop - start) / INR (S m) in
        Return (map (fun i => INR i * step + start) (seq 0 (S m)) ++ [stop])
    end.

(** Line 330: the number of samples asked of [np.linspace],
    [int((maxNu - minNu) / dNu * 1024) + 1], on the binary64 numbers
    [minNu], [maxNu] and [dNu].  The difference, the quotient and the
    product are rounded one after the other, and [int] sees the last
    rounding.  NumPy divides by zero without raising: the quotient is then
    [nan] for a zero difference and infinite otherwise, and [int] raises
    [ValueError] on the first and [OverflowError] on the second, as it does
    when one of the three operations overflows. *)
Definition hdNu_num (minNu maxNu dNu : R) : py Z :=
  match Binary64.round (maxNu - minNu) with
  | None => Raise OverflowError
  | Some d =>
      if Req_dec_T dNu 0 then
        if Req_dec_T d 0 then Raise ValueError else Raise OverflowError
      else
        match Binary64.round (d / dNu) with
        | None => Raise OverflowError
        | Some q =>
            match Binary64.round (q * 1024) with
            | None => Raise OverflowError
            | Some r => Return (py_int r + 1)%Z
            end
        end
  end.

(** The same count on rationals, where it runs. *)
Definition hdNu_numQ (minNu maxNu dNu : Q) : py Z :=
  match Binary64.roundQ (maxNu - minNu) with
  | None => Raise OverflowError
  | Some d =>
      if Qeq_bool dNu 0 then
        if Qeq_bool d 0 then Raise ValueError else Raise OverflowError
      else
        match Binary64.roundQ (d / dNu) with
        | None => Raise OverflowError
        | Some q =>
            match Binary64.roundQ (q * 1024) with
            | None => Raise OverflowError
            | Some r =>
                Return ((if Qle_bool 0 r then Qfloor r else Qceiling r) + 1)%Z
            end
        end
  end.

(** Lines 327-330 of [calWms], method ['Theoretical']. *)
Definition hdNu (grid : list R) (dNu : R) : py (list R) :=
  py_bind (np_max grid) (fun maxNu =>
  py_bind (np_min grid) (fun minNu =>
  py_bind (hdNu_num minNu maxNu dNu) (fun num =>
  linspace minNu maxNu num))).

(** The binary64 numbers that the literals [0.1] and [0.3] denote. *)
Definition tenth : R := 3602879701896397 / 36028797018963968.
Definition three_tenths : R := 5404319552844595 / 18014398509481984.

(** The [laserSpec] dict read by the ['Simulation with parameters'] method. *)
Record LaserSpec : Type := mkLaser {
  fS : R;
  fMod : R;
  fRamp : R;
  aRamp : R;
  aMod : R;
  tRamp : R;
  tMod : R;
  c2p : R;
  laserDC : R;
  fCut : R;
  phase : R;
  central_wavelength : R
}.

(** Line 379: [nS = fS / fRamp] on Python floats. *)
Definition nS (ls : LaserSpec) : py R :=
  if Req_dec_T (fRamp ls) 0 then Raise ZeroDivisionError
  else Return (fS ls / fRamp ls).

(** [np.arange(n)] for a float [n]: the integers [0 <= i < n]. *)
Definition arange (n : R) : list R :=
  map INR (seq 0 (Z.to_nat (Zceil n))).

(** Line 380: the time stamps, for a non-zero sampling frequency. *)
Definition ts (ls : LaserSpec) : py (list R) :=
  py_bind (nS ls) (fun n => Return (map (fun i => i / fS ls) (arange n))).

(** Line 382: [currRamp]. *)
Definition currRamp (ls : LaserSpec) : py (list R) :=
  py_bind (nS ls) (fun n =>
  py_bind (linspace 0 (aRamp ls) (py_int n)) (fun ramp =>
  Return (map (fun x => (x - aRamp ls * 0.5) / 1000) ramp))).

(** Line 383: [currMod]. *)
Definition currMod (ls : LaserSpec) : py (list R) :=
  py_bind (ts ls) (fun stamps =>
  Return (map (fun tm => 0.5 * aMod ls * sin (2 * PI * fMod ls * tm) / 1000)
              stamps)).


(** *** The rest of [calWms], and [IIRFilter] *)

(** A loop that appends one computed item per element and stops at the
    first exception. *)
Fixpoint py_map {A B : Type} (f : A -> py B) (xs : list A) : py (list B) :=
  match xs with
  | [] => Return []
  | x :: rest =>
      py_bind (f x) (fun y =>
      py_bind (py_map f rest) (fun ys => Return (y :: ys)))
  end.

(** An arithmetic operator between two one-dimensional arrays: equal
    lengths go element by element, an array of length one is stretched,
    any other pair of shapes raises [ValueError]. *)
Definition broadcast {A : Type} (f : A -> A -> A) (a b : list A)
    : py (list A) :=
  if Nat.eqb (List.length a) (List.length b) then
    Return (map (fun xy => f (fst xy) (snd xy)) (combine a b))
  else
    match a, b with
    | [x], _ => Return (map (f x) b)
    | _, [y] => Return (map (fun v => f v y) a)
    | _, _ => Raise ValueError
    end.

(** Line 385. *)
Definition nuRamp (ls : LaserSpec) : py (list R) :=
  py_bind (currRamp ls) (fun ramp =>
  Return (map (fun x => x * tRamp ls * 200 + central_wavelength ls) ramp)).

(** Line 386. *)
Definition nuTotal (ls : LaserSpec) : py (list R) :=
  py_bind (nuRamp ls) (fun ramp =>
  py_bind (currMod ls) (fun modc =>
  broadcast Rplus ramp (map (fun x => x * tMod ls * 200) modc))).

(** Lines 388-389: the optical power, with the negative samples set to
    zero. *)
Definition intensity (ls : LaserSpec) : py (list R) :=
  py_bind (currRamp ls) (fun ramp =>
  py_bind (currMod ls) (fun modc =>
  py_bind (broadcast Rplus ramp modc) (fun curr =>
  let power := map (fun x => x * c2p ls + laserDC ls) curr in
  Return (map (fun x => if Rlt_dec x 0 then 0 else x) power)))).

(** Line 416. *)
Definition modDepth (ls : LaserSpec) : R :=
  tMod ls * aMod ls / 1000 * 200 * 0.5.

(** The two assignments [calPlot] of [qclasGUI.py] makes to the loaded
    laser configuration before it calls [calWms] (lines 449-452). *)
Definition calPlot_laserSpec (ls : LaserSpec) (nuMin nuMax : R)
    : py LaserSpec :=
  let central := (nuMin + nuMax) / 2 in
  if Req_dec_T (tRamp ls) 0 then Raise ZeroDivisionError
  else
    Return (mkLaser (fS ls) (fMod ls) (fRamp ls)
              ((nuMax - nuMin) / 200 * 1e3 / tRamp ls)
              (aMod ls) (tRamp ls) (tMod ls) (c2p ls) (laserDC ls) (fCut ls)
              (phase ls) central).

(** The numerical routines [calWms] and [IIRFilter] take from NumPy and
    SciPy: [butter(4, Wn, 'low')] with the filter it designs, [lfilter],
    [np.interp] (its third argument is a spectrum of [calDas]) and
    [romb]. *)
Class SciPy : Type := {
  filter_ba : Type;
  butter_low4 : R -> py filter_ba;
  lfilter : filter_ba -> list R -> py (list R);
  interp : list R -> list R -> list np64 -> py (list R);
  romb : list R -> R -> py R
}.

(** One entry of the list [calWms] returns: keys ['gasParams'], ['nu'],
    ['spectrum'], ['nf'], ['modDepth']. *)
Record WmsResult : Type := mkWms {
  wms_gasParams : GasParams;
  wms_nu : list R;
  wms_spectrum : list R;
  wms_nf : Z;
  wms_modDepth : R
}.

Section CalWms.

Context {db : Type} {hapi : Hapi db} {scipy : SciPy}.

(** Lines 340-345: the harmonic at one wavenumber [iNu]; the step returned
    by [np.linspace(..., retstep=True)] is the span over [num - 1]. *)
Definition harmonic (nf : Z) (dNu : R) (hd : list R) (coeff : list np64)
    (iNu : R) : py R :=
  py_bind (linspace (- PI) PI (2 ^ 10 + 1)) (fun u =>
  let du := (PI - - PI) / 1024 in
  let nuMod := map (fun x => iNu + dNu * cos x) u in
  py_bind (interp nuMod hd coeff) (fun coeffMod =>
  py_bind (broadcast Rmult coeffMod (map (fun x => cos (IZR nf * x)) u))
    (fun integrateSample =>
  py_bind (romb integrateSample du) (fun area =>
  Return (1 / PI * area))))).

(** Lines 336-356: one result of the theoretical method. *)
Definition theoretical_result (grid : list R) (nf : Z) (dNu : R)
    (hd : list R) (result : DasResult) : py WmsResult :=
  py_bind (py_map (harmonic nf dNu hd (spectrum result)) grid) (fun Hnf =>
  Return (mkWms (gasParams result) grid Hnf nf dNu)).

(** Lines 409-410 share this shape: a reference wave times the signal,
    through the low-pass filter. *)
Definition lock_in (ba : filter_ba) (S reference : list R) : py (list R) :=
  py_bind (broadcast Rmult S reference) (fun mixed => lfilter ba mixed).

(** Lines 400-417: one result of the simulation; the quadrature channel
    [x] is computed and dropped. *)
Definition simulated_result (grid : list R) (nf : Z) (ls : LaserSpec)
    (stamps ramp total power : list R) (ba : filter_ba)
    (dasResult : DasResult) : py WmsResult :=
  let phase_rad := phase ls / 180 * PI in
  py_bind (interp (rev total) grid (spectrum dasResult)) (fun modCoeff =>
  py_bind (broadcast Rmult power modCoeff) (fun S =>
  py_bind (lock_in ba S
             (map (fun tm => cos (2 * IZR nf * PI * fMod ls * tm + phase_rad))
                  stamps)) (fun y =>
  py_bind (lock_in ba S
             (map (fun tm => sin (2 * IZR nf * PI * fMod ls * tm)) stamps))
    (fun _ =>
  Return (mkWms (gasParams dasResult) ramp y nf (modDepth ls)))))).

(** Line 391: [butter(4, fCut / fS, 'low')] on Python floats. *)
Definition design_filter (ls : LaserSpec) : py filter_ba :=
  if Req_dec_T (fS ls) 0 then Raise ZeroDivisionError
  else butter_low4 (fCut ls / fS ls).

(** Lines 379-391: everything the simulation prepares before it calls
    [calDas]. *)
Definition synthesize (ls : LaserSpec)
    : py (list R * list R * list R * list R * filter_ba) :=
  py_bind (ts ls) (fun stamps =>
  py_bind (nuRamp ls) (fun ramp =>
  py_bind (nuTotal ls) (fun total =>
  py_bind (intensity ls) (fun power =>
  py_bind (design_filter ls) (fun ba =>
  Return (stamps, ramp, total, power, ba)))))).

(** [calWms(gasList, nu, profile, nf, method, laserSpec, dNu, iCut, diag,
    xi_to_nden, mden_to_nden)], for a given [laserSpec] and [dNu] (the
    defaults [None] are outside the model); [diag] only plots. *)
Definition calWms (gasList : list GasParams) (grid : list R)
    (profile : string) (nf : Z) (method : string) (laserSpec : LaserSpec)
    (dNu iCut : R) (diag xi_to_nden mden_to_nden : bool) (s : db)
    : py (string + list WmsResult) * db :=
  match np_max grid, np_min grid with
  | Return maxNu, Return minNu =>
      if (method =? "Theoretical")%string then
        match py_bind (hdNu_num minNu maxNu dNu) (linspace minNu maxNu) with
        | Raise e => (Raise e, s)
        | Return hd =>
            match calDas gasList hd profile "Transmission" iCut true false s
            with
            | (Raise e, s') => (Raise e, s')
            | (Return (inl msg), s') => (Return (inl msg), s')
            | (Return (inr dasResults), s') =>
                (py_bind (py_map (theoretical_result grid nf dNu hd)
                            dasResults)
                   (fun wmsResults => Return (inr wmsResults)), s')
            end
        end
      else if (method =? "Simulation with parameters")%string then
        match synthesize laserSpec with
        | Raise e => (Raise e, s)
        | Return (stamps, ramp, total, power, ba) =>
            match calDas gasList grid profile "Transmission" iCut
                    xi_to_nden mden_to_nden s with
            | (Raise e, s') => (Raise e, s')
            | (Return (inl msg), s') => (Return (inl msg), s')
            | (Return (inr dasResults), s') =>
                (py_bind (py_map (simulated_result grid nf laserSpec stamps
                                    ramp total power ba) dasResults)
                   (fun wmsResults => Return (inr wmsResults)), s')
            end
        end
      else (Raise UnboundLocalError, s)
  | _, _ => (Raise ValueError, s)
  end.

(** [IIRFilter(signal, fS, fMod, nf, fCut, phase)] on Python floats. *)
Definition IIRFilter (signal : list R) (fS fMod : R) (nf : Z)
    (fCut phase : R) : py (list R) :=
  let nS := List.length signal in
  let tS := map (fun i => INR i / fS) (seq 0 nS) in
  if Req_dec_T fS 0 then Raise ZeroDivisionError
  else
    py_bind (butter_low4 (fCut / fS)) (fun ba =>
    lock_in ba signal
      (map (fun tm => cos (2 * IZR nf * PI * fMod * tm + phase * (PI / 180)))
           tS)).

End CalWms.

(** A laser configuration as [read_config] would load it, sampled four
    times per ramp. *)
Definition bench_laser : LaserSpec :=
  mkLaser 4 1 1 0 1000 5 3 2 1 1 90 0.

End Wms.

(** ** Metrology: [peakTroughHeight] *)

Module Metrics.

Local Open Scope Q_scope.

(** A NumPy float scalar: a finite value or NaN. *)
Inductive npfloat : Type :=
| Fin (q : Q)
| NaN.

Definition fadd (x y : npfloat) : npfloat :=
  match x, y with Fin a, Fin b => Fin (a + b) | _, _ => NaN end.
Definition fsub (x y : npfloat) : npfloat :=
  match x, y with Fin a, Fin b => Fin (a - b) | _, _ => NaN end.
Definition fmul (x y : npfloat) : npfloat :=
  match x, y with Fin a, Fin b => Fin (a * b) | _, _ => NaN end.

(** Equality of outcomes up to the value of the rational. *)
Definition feq (x y : npfloat) : Prop :=
  match x, y with
  | Fin a, Fin b => a == b
  | NaN, NaN => True
  | _, _ => False
  end.

(** Python slicing [a[start:stop]]: a negative bound counts from the end,
    and both bounds are clipped to the array. *)
Definition norm_index (n i : Z) : Z :=
  if (i <? 0)%Z then Z.max 0 (i + n) else Z.min i n.

Definition py_slice {A : Type} (a : list A) (start stop : Z) : list A :=
  let n := Z.of_nat (List.length a) in
  let lo := norm_index n start in
  let hi := norm_index n stop in
  firstn (Z.to_nat (hi - lo)) (skipn (Z.to_nat lo) a).

(** [a[:stop]] and [a[start:]]. *)
Definition slice_to {A : Type} (a : list A) (stop : Z) : list A :=
  py_slice a 0 stop.
Definition slice_from {A : Type} (a : list A) (start : Z) : list A :=
  py_slice a start (Z.of_nat (List.length a)).

(** [np.argmax] and [np.argmin]: the first index of an extreme value;
    [ValueError] on an empty array. *)
Fixpoint argmax_from (best : Q) (bi i : nat) (a : list Q) : nat :=
  match a with
  | [] => bi
  | x :: xs =>
      if Qle_bool x best then argmax_from best bi (S i) xs
      else argmax_from x i (S i) xs
  end.

Fixpoint argmin_from (best : Q) (bi i : nat) (a : list Q) : nat :=
  match a with
  | [] => bi
  | x :: xs =>
      if Qle_bool best x then argmin_from best bi (S i) xs
      else argmin_from x i (S i) xs
  end.

Definition np_argmax (a : list Q) : py nat :=
  match a with
  | [] => Raise ValueError
  | x :: xs => Return (argmax_from x 0 1 xs)
  end.

Definition np_argmin (a : list Q) : py nat :=
  match a with
  | [] => Raise ValueError
  | x :: xs => Return (argmin_from x 0 1 xs)
  end.

(** [np.mean]: NaN (and a warning) on an empty array. *)
Definition np_mean (a : list Q) : npfloat :=
  match a with
  | [] => NaN
  | _ => Fin (fold_left Qplus a 0 / inject_Z (Z.of_nat (List.length a)))
  end.

(** The averaging slice [a[i - hWindow : i + hWindow]]. *)
Definition window (a : list Q) (i hWindow : Z) : list Q :=
  py_slice a (i - hWindow) (i + hWindow).

(** [peakTroughHeight(signal, startIdx, endIdx, twoSideTrough, avgWindow)],
    lines 474-484; [twoSideTrough] is accepted and never read. *)
Definition peakTroughHeight (signal : list Q) (startIdx endIdx : Z)
    (twoSideTrough : bool) (avgWindow : Z) : py npfloat :=
  let tmpSignal := py_slice signal startIdx endIdx in
  py_bind (np_argmax tmpSignal) (fun peak =>
  let peakIdx := Z.of_nat peak in
  py_bind (np_argmin (slice_to tmpSignal peakIdx)) (fun lTrough =>
  py_bind (np_argmin (slice_from tmpSignal peakIdx)) (fun rTrough =>
  let lTroughIdx := Z.of_nat lTrough in
  let rTroughIdx := Z.of_nat rTrough in
  let hWindow := (avgWindow / 2)%Z in
  Return (fsub (np_mean (window tmpSignal peakIdx hWindow))
               (fmul (Fin (1 # 2))
                     (fadd (np_mean (window tmpSignal lTroughIdx hWindow))
                           (np_mean (window tmpSignal rTroughIdx hWindow)))))))).

(** The height as the interface description words it: every mean is taken
    around the position, inside [signal[startIdx:endIdx]], of the extremum
    it belongs to; the right trough is the minimum of the part that starts
    at the peak, so its position is the peak's plus its offset there. *)
Definition described_height (signal : list Q) (startIdx endIdx : Z)
    (avgWindow : Z) : py npfloat :=
  let tmpSignal := py_slice signal startIdx endIdx in
  py_bind (np_argmax tmpSignal) (fun peak =>
  let peakIdx := Z.of_nat peak in
  py_bind (np_argmin (slice_to tmpSignal peakIdx)) (fun lTrough =>
  py_bind (np_argmin (slice_from tmpSignal peakIdx)) (fun rOffset =>
  let leftPos := Z.of_nat lTrough in
  let rightPos := (peakIdx + Z.of_nat rOffset)%Z in
  let hWindow := (avgWindow / 2)%Z in
  Return (fsub (np_mean (window tmpSignal peakIdx hWindow))
               (fmul (Fin (1 # 2))
                     (fadd (np_mean (window tmpSignal leftPos hWindow))
                           (np_mean (window tmpSignal rightPos hWindow)))))))).

(** The in-bounds precondition: the three averaging windows of
    [described_height] lie inside [signal[startIdx:endIdx]]. *)
Definition window_in_bounds (a : list Q) (i hWindow : Z) : bool :=
  ((0 <=? i - hWindow) && (i + hWindow <=? Z.of_nat (List.length a)))%Z.

Definition in_bounds (signal : list Q) (startIdx endIdx avgWindow : Z) : bool :=
  let tmpSignal := py_slice signal startIdx endIdx in
  let hWindow := (avgWindow / 2)%Z in
  match np_argmax tmpSignal with
  | Return peak =>
      let peakIdx := Z.of_nat peak in
      match np_argmin (slice_to tmpSignal peakIdx),
            np_argmin (slice_from tmpSignal peakIdx) with
      | Return lTrough, Return rOffset =>
          window_in_bounds tmpSignal peakIdx hWindow
          && window_in_bounds tmpSignal (Z.of_nat lTrough) hWindow
          && window_in_bounds tmpSignal (peakIdx + Z.of_nat rOffset) hWindow
      | _, _ => false
      end
  | Raise _ => false
  end.

(** A peak between two troughs, and a signal that only falls. *)
Definition two_trough_signal : list Q := [3; 1; 4; 10; 5; 2; 6; 8].
Definition falling_signal : list Q := [10; 1; 2].

(** The sum of an array, from the right. *)
Definition sumQ (a : list Q) : Q := fold_right Qplus 0 a.

(** Two outcomes that agree: the same exception, or values equal as
    rationals. *)
Definition py_feq (x y : py npfloat) : Prop :=
  match x, y with
  | Return a, Return b => feq a b
  | Raise e, Raise e' => e = e'
  | _, _ => False
  end.

(** A signal of sixty samples rising to a peak at position 10. *)
Definition early_peak_signal : list Q :=
  map (fun i => inject_Z (Z.of_nat (if Nat.leb i 10 then i else 20 - i)))
      (seq 0 60).

End Metrics.

(** ** A small line database

    A stand-in for [hapi] used to run [calDas] on concrete inputs: the
    store is the list of table names, every table has lines at 1000, 1100
    and 1200 cm-1, and every profile answers the grid it was given moved by
    [shift], with the coefficient [k] at each point. *)

Module Toy.

Import Das.
Local Open Scope R_scope.
Local Open Scope string_scope.

Definition answer (shift k : R) (grid : list R) : list R * list R :=
  (map (fun x => x + shift) grid, map (fun _ => k) grid).

Definition hapi (shift k : R) : Hapi (list string) := {|
  tableList := fun s => s;
  getColumn_nu := fun _ _ => [1000; 1100; 1200];
  select_tmp := fun s _ _ _ _ => "tmp" :: s;
  absorptionCoefficient_Voigt := fun _ grid _ _ => answer shift k grid;
  absorptionCoefficient_HT := fun _ grid _ _ _ => answer shift k grid;
  absorptionCoefficient_Doppler := fun _ grid _ _ _ => answer shift k grid;
  absorptionCoefficient_Lorentz := fun _ grid _ _ _ => answer shift k grid;
  dropTable_tmp := fun s => filter (fun x => negb (x =? "tmp")) s
|}.

(** The gas of the repository's own trial script [bugTest.py], the same gas
    at another concentration and path length, and a gas with a negative
    mixing ratio. *)
Definition nh3 : GasParams := mkGas "NH3" 990 293.15 2 300e-9.
Definition nh3_long : GasParams := mkGas "NH3" 990 293.15 50 1e-6.
Definition nh3_negative : GasParams := mkGas "NH3" 1013 300 1 (-1).

(** The same gas with ten times the column, and at zero temperature. *)
Definition nh3_tenfold : GasParams := mkGas "NH3" 990 293.15 4 1500e-9.
Definition nh3_frozen : GasParams := mkGas "NH3" 990 0 2 300e-9.

(** A stand-in for the numerical routines: the filter passes its input,
    the interpolation answers 1 at every point asked, and the quadrature
    is the plain sum times the step. *)
Definition scipy : Wms.SciPy := {|
  Wms.filter_ba := unit;
  Wms.butter_low4 := fun _ => Return tt;
  Wms.lfilter := fun _ x => Return x;
  Wms.interp := fun x _ _ => Return (map (fun _ => 1) x);
  Wms.romb := fun y dx => Return (fold_right Rplus 0 y * dx)
|}.

(** Two results on a grid of two points. *)
Definition result_a : DasResult :=
  mkResult nh3 [1100; 1101] [Finite 3; Finite 4].
Definition result_b : DasResult :=
  mkResult nh3_long [1100; 1101] [Finite 5; Finite 6].

End Toy.

(** ** Plotting: the curves drawn by [plotDas] *)

Module Plot.

Import Das.
Local Open Scope R_scope.

(** One call [ax.plot(x, y, label=...)]: the label is the gas the curve
    belongs to, or nothing for ['Total']. *)
Inductive curve : Type :=
| Curve (label : option GasParams) (x : list R) (y : list np64).

(** [ax.plot] appends a curve; Matplotlib refuses arrays of different
    lengths with [ValueError]. *)
Definition ax_plot (drawn : list curve) (label : option GasParams)
    (x : list R) (y : list np64) : py (list curve) :=
  if Nat.eqb (List.length x) (List.length y)
  then Return (drawn ++ [Curve label x y])%list
  else Raise ValueError.

(** The state of the loop of lines 235-252: the curves drawn so far, the
    local [nu], and the two running totals. *)
Record plot_state : Type := mkPlot {
  drawn : list curve;
  last_nu : list R;
  sumAbsorp : list np64;
  sumTrans : list np64
}.

(** One pass through the loop body. *)
Definition plotDas_step (mode : string) (st : plot_state) (result : DasResult)
    : py plot_state :=
  if (mode =? "Absorp coeff")%string then
    py_bind (ax_plot (drawn st) (Some (gasParams result)) (nu result)
               (spectrum result)) (fun d =>
    Return (mkPlot d (nu result) (sumAbsorp st) (sumTrans st)))
  else if (mode =? "Absorbance")%string then
    py_bind (ax_plot (drawn st) (Some (gasParams result)) (nu result)
               (spectrum result)) (fun d =>
    py_bind (Wms.broadcast np_add (sumAbsorp st) (spectrum result))
      (fun total =>
    Return (mkPlot d (nu result) total (sumTrans st))))
  else if (mode =? "Transmission")%string then
    py_bind (ax_plot (drawn st) (Some (gasParams result)) (nu result)
               (spectrum result)) (fun d =>
    py_bind (Wms.broadcast np_mul (sumTrans st) (spectrum result))
      (fun total =>
    Return (mkPlot d (nu result) (sumAbsorp st) total)))
  else Return (mkPlot (drawn st) (nu result) (sumAbsorp st) (sumTrans st)).

Fixpoint plotDas_loop (mode : string) (st : plot_state)
    (results : list DasResult) : py plot_state :=
  match results with
  | [] => Return st
  | result :: rest =>
      py_bind (plotDas_step mode st result) (fun st' =>
      plotDas_loop mode st' rest)
  end.

(** Lines 253-268: the total and the legend.  A mode outside the three
    leaves [leg] unbound, which line 268 finds out. *)
Definition plot_total (mode : string) (showTotal : bool) (st : plot_state)
    : py (list curve) :=
  if (mode =? "Absorbance")%string then
    if showTotal then ax_plot (drawn st) None (last_nu st) (sumAbsorp st)
    else Return (drawn st)
  else if (mode =? "Transmission")%string then
    if showTotal then ax_plot (drawn st) None (last_nu st) (sumTrans st)
    else Return (drawn st)
  else if (mode =? "Absorp coeff")%string then Return (drawn st)
  else Raise UnboundLocalError.

(** Line 271, [ax.set_xlim([nu.min(), nu.max()])], on the local [nu] the
    loop has left: the two reductions raise [ValueError] on an empty
    array. *)
Definition set_xlim (x : list R) : py (R * R) :=
  py_bind (np_min x) (fun lo =>
  py_bind (np_max x) (fun hi => Return (lo, hi))).

(** [plotDas(ax, results, mode, showTotal)] on a list of results given by
    its first element and the others (on the empty list, line 232 raises
    [IndexError]): the curves drawn on [ax] when the call returns. *)
Definition plotDas (first : DasResult) (others : list DasResult)
    (mode : string) (showTotal : bool) : py (list curve) :=
  let zeros := map (fun _ => Finite 0) (nu first) in
  let ones := map (fun z => np_add z (Finite 1)) zeros in
  py_bind (plotDas_loop mode (mkPlot [] [] zeros ones) (first :: others))
    (fun st =>
  py_bind (plot_total mode showTotal st) (fun curves =>
  py_bind (set_xlim (last_nu st)) (fun _ => Return curves))).

(** Element by element. *)
Definition zipWith {A : Type} (f : A -> A -> A) (a b : list A) : list A :=
  map (fun xy => f (fst xy) (snd xy)) (combine a b).

(** The curve of one gas. *)
Definition gas_curve (r : DasResult) : curve :=
  Curve (Some (gasParams r)) (nu r) (spectrum r).

(** All grids and spectra have [n] points. *)
Definition uniform (n : nat) (results : list DasResult) : Prop :=
  Forall (fun r => List.length (nu r) = n /\ List.length (spectrum r) = n)
         results.

(** What the Transmission results are to the Absorbance results of the
    same call, the absorbance values being the numbers [absorb]. *)
Definition exp_of (rt ra : DasResult) (absorb : list R) : Prop :=
  gasParams rt = gasParams ra /\ nu rt = nu ra /\
  spectrum ra = map Finite absorb /\
  spectrum rt = map (fun x => np_exp (- x)) absorb.

End Plot.

(** ** Etalons: [generateEtalons] *)

Module Etalon.

Local Open Scope R_scope.

(** One entry of [etalonParams]: keys ['n'], ['theta'], ['l'], ['R'] (the
    fields carry a prefix, [R] being the type of the reals). *)
Record EtalonParams : Type := mkEtalon {
  et_n : R;
  et_theta : R;
  et_l : R;
  et_R : R
}.

(** One entry of the returned list: keys ['F'] and ['delta_coeff']. *)
Record EtalonCoeffs : Type := mkCoeffs {
  F : R;
  delta_coeff : R
}.

(** [np.degrees]: radians to degrees. *)
Definition np_degrees (x : R) : R := x * (180 / PI).

(** The dict built for one [param], lines 548-550; the division is the only
    operation that can raise. *)
Definition etalon_coeff (param : EtalonParams) : py EtalonCoeffs :=
  let denom := (1 - et_R param) ^ 2 in
  if Req_dec_T denom 0 then Raise ZeroDivisionError
  else
    Return (mkCoeffs (4 * et_R param / denom)
              (4 * PI * et_n param * et_l param
               * cos (np_degrees (et_theta param)))).

(** [generateEtalons(etalonParams)]. *)
Definition generateEtalons (etalonParams : list EtalonParams)
    : py (list EtalonCoeffs) :=
  Wms.py_map etalon_coeff etalonParams.

(** The part of the specification's example: glass of reflectance 0.04. *)
Definition glass : EtalonParams := mkEtalon 1.45 0 0.1 0.04.
Definition mirror : EtalonParams := mkEtalon 1.45 0 0.1 1.

End Etalon.

(** ** Laser configuration files: [read_config] *)

Module Config.

Local Open Scope string_scope.

(** The two characters of the separator [': ']. *)
Definition colon : Ascii.ascii := Ascii.ascii_of_nat 58.
Definition space : Ascii.ascii := Ascii.ascii_of_nat 32.

(** Put one more character in front of the first piece. *)
Definition cons_piece (ch : Ascii.ascii) (pieces : list string) : list string :=
  match pieces with
  | piece :: others => String ch piece :: others
  | [] => [String ch EmptyString]
  end.

(** [line.split(': ')]: the pieces between the occurrences of the
    separator, found from the left. *)
Fixpoint split (line : string) : list string :=
  match line with
  | EmptyString => [EmptyString]
  | String ch rest =>
      match rest with
      | String ch' rest' =>
          if (Ascii.eqb ch colon && Ascii.eqb ch' space)%bool
          then EmptyString :: split rest'
          else cons_piece ch (split rest)
      | EmptyString => cons_piece ch (split rest)
      end
  end.

(** [value[:-1]]: everything but the last character. *)
Fixpoint drop_last (value : string) : string :=
  match value with
  | EmptyString => EmptyString
  | String ch rest =>
      match rest with
      | EmptyString => EmptyString
      | String _ _ => String ch (drop_last rest)
      end
  end.

(** The dict [config]: at most one item per key. *)
Definition dict : Type := list (string * R).

Fixpoint getitem (config : dict) (key : string) : option R :=
  match config with
  | [] => None
  | (k, v) :: rest => if k =? key then Some v else getitem rest key
  end.

Definition setitem (config : dict) (key : string) (v : R) : dict :=
  (key, v) :: filter (fun kv => negb (fst kv =? key)) config.

Section ReadConfig.

(** Python's [float] on a string: a number, or [ValueError]. *)
Variable float : string -> py R.

(** The loop of lines 113-116 over the lines of the file, each with its
    line end; the unpacking [key, value = ...] needs exactly two pieces. *)
Fixpoint read_lines (lines : list string) (config : dict) : py dict :=
  match lines with
  | [] => Return config
  | line :: rest =>
      match split line with
      | [key; value] =>
          py_bind (float (drop_last value)) (fun v =>
          read_lines rest (setitem config key v))
      | _ => Raise ValueError
      end
  end.

(** [read_config], on the lines of the opened file (a file that cannot be
    opened is outside the model; the printing is left out). *)
Definition read_config (lines : list string) : py dict :=
  read_lines lines [].

(** What a line contributes to the dict, when it has the two pieces and
    its value is read. *)
Definition entry (line : string) : option R :=
  match split line with
  | [_; value] =>
      match float (drop_last value) with
      | Return v => Some v
      | Raise _ => None
      end
  | _ => None
  end.

End ReadConfig.

(** The key a line is filed under. *)
Definition key_of (line : string) : string := hd EmptyString (split line).

(** A stand-in for [float] that reads unsigned decimal integers. *)
Definition digit (ch : Ascii.ascii) : option nat :=
  let n := Ascii.nat_of_ascii ch in
  if (Nat.leb 48 n && Nat.leb n 57)%bool then Some (n - 48)%nat else None.

Fixpoint digits (s : string) (acc : nat) : option nat :=
  match s with
  | EmptyString => Some acc
  | String ch rest =>
      match digit ch with
      | Some d => digits rest (10 * acc + d)%nat
      | None => None
      end
  end.

Definition float_digits (s : string) : py R :=
  match s with
  | EmptyString => Raise ValueError
  | _ =>
      match digits s 0 with
      | Some n => Return (INR n)
      | None => Raise ValueError
      end
  end.

(** A two-line file whose last line has no line end. *)
Definition newline : Ascii.ascii := Ascii.ascii_of_nat 10.
Definition two_lines : list string :=
  ["fS: 1000" ++ String newline ""; "fMod: 10"].

End Config.

(** * Properties *)

(** The rounding and [np.exp] are reasoned about through their lemmas. *)
Arguments Binary64.round : simpl never.
Arguments Das.np_exp : simpl never.
Arguments Wms.hdNu_num : simpl never.

(** ** Tactics for running the model on concrete numbers *)

Ltac no_test x :=
  lazymatch x with
  | context [Rle_dec _ _] => fail
  | context [Rlt_dec _ _] => fail
  | _ => idtac
  end.

(** Decide the comparisons of reals that guard the goal, innermost first. *)
Ltac real_cases :=
  repeat match goal with
    | |- context [Rle_dec ?a ?b] =>
        no_test a; no_test b; destruct (Rle_dec a b); try (exfalso; lra)
    | |- context [Rlt_dec ?a ?b] =>
        no_test a; no_test b; destruct (Rlt_dec a b); try (exfalso; lra)
    | |- context [Req_dec_T ?a ?b] =>
        destruct (Req_dec_T a b); try (exfalso; lra)
    end.

(** Run [calDas] on the small line database. *)
Ltac das_run :=
  unfold Das.calDas, Das.calDas_loop, Das.calDas_body, Das.number_density,
    Das.mixRatio2numDen, Das.line_shape, Das.apply_mode, Das.read_n,
    Das.out_of_range, Das.Rltb, Das.np_min, Das.np_max, py_bind, Rmin, Rmax,
    Toy.hapi, Toy.answer, Toy.nh3, Toy.nh3_long, Toy.nh3_negative;
  repeat progress
    (cbn [existsb String.eqb Ascii.eqb Bool.eqb negb orb andb fold_left map
          app filter Das.gas Das.p Das.t Das.l Das.c Das.tableList
          Das.getColumn_nu Das.select_tmp Das.dropTable_tmp
          Das.absorptionCoefficient_Voigt Das.absorptionCoefficient_HT
          Das.absorptionCoefficient_Doppler Das.absorptionCoefficient_Lorentz
          fst snd];
     real_cases).

(** [np.min] and [np.max] of a short literal array. *)
Ltac np_eval :=
  unfold Das.np_min, Das.np_max, Rmin, Rmax, Toy.hapi;
  cbn [Das.getColumn_nu fold_left];
  real_cases; reflexivity.

(** ** Binary64 rounding *)

Module Binary64Facts.
Import Binary64.
Local Open Scope R_scope.

Lemma bpow_pos (e : Z) : 0 < bpow e.
Proof. apply powerRZ_lt. lra. Qed.

Lemma bpow_add (a b : Z) : bpow (a + b) = bpow a * bpow b.
Proof. apply powerRZ_add. lra. Qed.

Lemma bpow_0 : bpow 0 = 1.
Proof. reflexivity. Qed.

Lemma bpow_1 : bpow 1 = 2.
Proof. unfold bpow. simpl. lra. Qed.

Lemma bpow_succ (e : Z) : bpow (e + 1) = 2 * bpow e.
Proof. rewrite bpow_add, bpow_1. lra. Qed.

Lemma bpow_nonneg_ge1 (n : nat) : 1 <= bpow (Z.of_nat n).
Proof.
  induction n as [|n IH].
  - unfold bpow. simpl. lra.
  - rewrite Nat2Z.inj_succ. unfold Z.succ. rewrite bpow_succ. lra.
Qed.

Lemma bpow_le (a b : Z) : (a <= b)%Z -> bpow a <= bpow b.
Proof.
  intros Hab. replace b with (a + Z.of_nat (Z.to_nat (b - a)))%Z by lia.
  rewrite bpow_add. pose proof (bpow_pos a).
  pose proof (bpow_nonneg_ge1 (Z.to_nat (b - a))). nra.
Qed.

Lemma bpow_lt (a b : Z) : (a < b)%Z -> bpow a < bpow b.
Proof.
  intros Hab. apply Rlt_le_trans with (bpow (a + 1)).
  - rewrite bpow_succ. pose proof (bpow_pos a). lra.
  - apply bpow_le. lia.
Qed.

Lemma bpow_IZR (n : Z) : (0 <= n)%Z -> bpow n = IZR (2 ^ n).
Proof.
  intros Hn. unfold bpow. destruct n as [|p|p]; [reflexivity| |lia].
  rewrite <- Zpower_pos_powerRZ. reflexivity.
Qed.

Lemma bpow_opp (e : Z) : bpow (- e) = / bpow e.
Proof. apply powerRZ_neg'. Qed.

Lemma bpow_sub (a b : Z) : bpow (a - b) = bpow a / bpow b.
Proof. unfold Z.sub. rewrite bpow_add, bpow_opp. reflexivity. Qed.

(** The nearest integer. *)
Lemma rne_bound (y : R) : Rabs (IZR (rne y) - y) <= 1 / 2.
Proof.
  unfold rne. pose proof (Zfloor_bound y) as [H1 H2].
  destruct (Rlt_dec _ _); [apply Rabs_le; lra|].
  destruct (Rlt_dec _ _).
  - rewrite plus_IZR. apply Rabs_le; lra.
  - destruct (Z.even _); [|rewrite plus_IZR]; apply Rabs_le; lra.
Qed.

Lemma rne_le (y : R) (k : Z) : y <= IZR k -> (rne y <= k)%Z.
Proof.
  intros Hy. pose proof (Zfloor_bound y) as [H1 H2].
  assert (Hf : (Zfloor y <= k)%Z).
  { apply le_IZR. lra. }
  assert (Hcase : (Zfloor y < k)%Z \/ Zfloor y = k) by lia.
  unfold rne.
  destruct Hcase as [Hlt | Heq].
  - destruct (Rlt_dec _ _); [lia|]. destruct (Rlt_dec _ _); [lia|].
    destruct (Z.even _); lia.
  - assert (Hyk : y = IZR k).
    { rewrite Heq in H1. lra. }
    rewrite Heq. destruct (Rlt_dec _ _); [lia|]. exfalso. lra.
Qed.

Lemma rne_ge (y : R) (k : Z) : IZR k <= y -> (k <= rne y)%Z.
Proof.
  intros Hy. pose proof (Zfloor_lub k y Hy) as Hf.
  unfold rne.
  destruct (Rlt_dec _ _); [lia|]. destruct (Rlt_dec _ _); [lia|].
  destruct (Z.even _); lia.
Qed.

Lemma rne_IZR (k : Z) : rne (IZR k) = k.
Proof.
  apply Z.le_antisymm; [apply rne_le | apply rne_ge]; lra.
Qed.

Lemma rne_small (y : R) : 0 <= y <= 1 / 2 -> rne y = 0%Z.
Proof.
  intros Hy. unfold rne.
  assert (Hf : Zfloor y = 0%Z) by (apply Zfloor_eq; simpl; lra).
  rewrite Hf. simpl.
  destruct (Rlt_dec _ _); [reflexivity|].
  destruct (Rlt_dec _ _); [exfalso; lra | reflexivity].
Qed.

Lemma rne_pos (y : R) : 1 / 2 < y -> (1 <= rne y)%Z.
Proof.
  intros Hy. pose proof (Zfloor_bound y) as [H1 H2].
  assert (Hf : (0 <= Zfloor y)%Z) by (apply (Zfloor_lub 0); simpl; lra).
  unfold rne.
  destruct (Rlt_dec _ _) as [Hlt|Hge].
  - assert (Hnz : Zfloor y <> 0%Z).
    { intros E. rewrite E in Hlt. simpl in Hlt. lra. }
    lia.
  - destruct (Rlt_dec _ _) as [|Hle]; [lia|].
    assert (Hnz : Zfloor y <> 0%Z).
    { intros E. rewrite E in Hge, Hle. simpl in Hge, Hle. lra. }
    destruct (Z.even _); lia.
Qed.

(** The exponent of the leading bit. *)
Lemma magnitude_range (fuel : nat) (e : Z) (a : R) :
  (e - Z.of_nat fuel <= magnitude fuel e a <= e)%Z.
Proof.
  revert e. induction fuel as [|k IH]; intros e.
  - simpl. lia.
  - cbn [magnitude]. destruct (Rle_dec _ _); [lia|].
    specialize (IH (e - 1)%Z). lia.
Qed.

Lemma magnitude_lower (fuel : nat) (e : Z) (a : R) :
  (e - Z.of_nat fuel < magnitude fuel e a)%Z -> bpow (magnitude fuel e a) <= a.
Proof.
  revert e. induction fuel as [|k IH]; intros e.
  - simpl. lia.
  - cbn [magnitude]. destruct (Rle_dec _ _) as [Hle|Hnle]; [intros _; exact Hle|].
    intros H. apply IH. lia.
Qed.

Lemma magnitude_upper (fuel : nat) (e : Z) (a : R) :
  a < bpow (e + 1) -> a < bpow (magnitude fuel e a + 1).
Proof.
  revert e. induction fuel as [|k IH]; intros e Ha.
  - exact Ha.
  - cbn [magnitude]. destruct (Rle_dec _ _) as [Hle|Hnle]; [exact Ha|].
    apply IH. replace (e - 1 + 1)%Z with e by lia. lra.
Qed.

Lemma magnitude_below (fuel : nat) (e k : Z) (a : R) :
  (e - Z.of_nat fuel <= k)%Z -> a <= bpow k -> (magnitude fuel e a <= k)%Z.
Proof.
  intros Hk Ha.
  destruct (Z_le_gt_dec (magnitude fuel e a) k) as [Hle|Hgt]; [exact Hle|].
  exfalso.
  assert (Hlow : bpow (magnitude fuel e a) <= a) by (apply magnitude_lower; lia).
  assert (Hlt : bpow k < bpow (magnitude fuel e a)) by (apply bpow_lt; lia).
  lra.
Qed.

(** Rounding a number that is not negative stays below a power of two
    that bounds it, and never overflows then. *)
Lemma round_at_le_bpow (e k : Z) (x : R) :
  (e <= k)%Z -> (k <= 1023)%Z -> 0 <= x <= bpow k ->
  exists r, round_at e x = Some r /\ 0 <= r <= bpow k.
Proof.
  intros He Hk [Hx0 Hxk]. unfold round_at.
  assert (H1024 : bpow k < bpow 1024) by (apply bpow_lt; lia).
  generalize (bpow_pos (e - 52)).
  assert (HK : bpow k = IZR (2 ^ (k - (e - 52))) * bpow (e - 52)).
  { rewrite <- bpow_IZR by lia. rewrite <- bpow_add. f_equal. lia. }
  revert HK. generalize (bpow (e - 52)). intros ulp HK Hulp. cbv zeta.
  assert (Hy0 : 0 <= x / ulp).
  { apply Rmult_le_pos; [exact Hx0|]. left. now apply Rinv_0_lt_compat. }
  assert (HyK : x / ulp <= IZR (2 ^ (k - (e - 52)))).
  { apply Rmult_le_reg_r with ulp; [exact Hulp|].
    replace (x / ulp * ulp) with x by (field; lra). lra. }
  pose proof (rne_le _ _ HyK) as Hm1.
  pose proof (rne_ge (x / ulp) 0 Hy0) as Hm0.
  assert (Hr : 0 <= IZR (rne (x / ulp)) * ulp <= bpow k).
  { rewrite HK. apply IZR_le in Hm0, Hm1. split.
    - apply Rmult_le_pos; lra.
    - apply Rmult_le_compat_r; lra. }
  rewrite (Rabs_pos_eq _ (proj1 Hr)).
  destruct (Rle_dec _ _) as [Hbig|_]; [exfalso; lra|].
  eexists. split; [reflexivity | exact Hr].
Qed.

Lemma round_le_bpow (x : R) (k : Z) :
  (-1022 <= k <= 1023)%Z -> 0 <= x <= bpow k ->
  exists r, round x = Some r /\ 0 <= r <= bpow k.
Proof.
  intros Hk Hx. unfold round.
  rewrite (Rabs_pos_eq x (proj1 Hx)).
  assert (H1024 : bpow k < bpow 1024) by (apply bpow_lt; lia).
  destruct (Rle_dec (bpow 1024) x) as [Hbig|_]; [exfalso; lra|].
  apply round_at_le_bpow; [|lia|exact Hx].
  apply magnitude_below; [lia | apply Hx].
Qed.

(** The rounding on rationals agrees with the rounding on reals. *)
Lemma Q2R_two : Q2R 2 = 2.
Proof. unfold Q2R. simpl. lra. Qed.

Lemma Q2R_bpow (e : Z) : Q2R (2 ^ e) = bpow e.
Proof.
  unfold bpow. rewrite RMicromega.Q2RpowerRZ.
  - now rewrite Q2R_two.
  - left. discriminate.
Qed.

Lemma Q2R_inject_Z (z : Z) : Q2R (inject_Z z) = IZR z.
Proof. unfold Q2R, inject_Z. simpl. lra. Qed.

Lemma Q2R_abs (x : Q) : Q2R (Qabs x) = Rabs (Q2R x).
Proof.
  apply Qabs_case; intros Hx.
  - symmetry. apply Rabs_pos_eq. rewrite <- RMicromega.Q2R_0. now apply Qle_Rle.
  - rewrite Q2R_opp. symmetry. apply Rabs_left1.
    rewrite <- RMicromega.Q2R_0. now apply Qle_Rle.
Qed.

Lemma Rle_dec_Q2R {A : Type} (a b : Q) (X Y : A) :
  (if Rle_dec (Q2R a) (Q2R b) then X else Y) = (if Qle_bool a b then X else Y).
Proof.
  destruct (Qle_bool a b) eqn:E.
  - apply Qle_bool_iff in E. apply Qle_Rle in E.
    destruct (Rle_dec _ _); [reflexivity | contradiction].
  - destruct (Rle_dec _ _) as [Hle|]; [|reflexivity].
    apply Rle_Qle in Hle. apply Qle_bool_iff in Hle. congruence.
Qed.

Lemma Zfloor_Q2R (y : Q) : Zfloor (Q2R y) = Qfloor y.
Proof.
  apply Zfloor_eq. split.
  - rewrite <- Q2R_inject_Z. apply Qle_Rle. apply Qfloor_le.
  - replace (IZR (Qfloor y) + 1) with (Q2R (inject_Z (Qfloor y + 1))).
    + apply Qlt_Rlt. apply Qlt_floor.
    + rewrite Q2R_inject_Z, plus_IZR. reflexivity.
Qed.

Lemma Q2R_half : Q2R (1 # 2) = 1 / 2.
Proof. unfold Q2R. simpl. lra. Qed.

Lemma rne_Q2R (y : Q) : rne (Q2R y) = rneQ y.
Proof.
  unfold rne, rneQ. rewrite Zfloor_Q2R. cbv zeta.
  rewrite <- Q2R_inject_Z, <- Q2R_minus, <- Q2R_half.
  destruct (Qcompare_spec (y - inject_Z (Qfloor y)) (1 # 2)) as [Heq|Hlt|Hgt].
  - apply Qeq_eqR in Heq. rewrite Heq.
    destruct (Rlt_dec _ _); [exfalso; lra | reflexivity].
  - apply Qlt_Rlt in Hlt. destruct (Rlt_dec _ _); [reflexivity | contradiction].
  - apply Qlt_Rlt in Hgt.
    destruct (Rlt_dec _ _); [exfalso; lra|].
    destruct (Rlt_dec _ _); [reflexivity | contradiction].
Qed.

Lemma magnitude_Q2R (fuel : nat) (e : Z) (a : Q) :
  magnitude fuel e (Q2R a) = magnitudeQ fuel e a.
Proof.
  revert e. induction fuel as [|k IH]; intros e; [reflexivity|].
  cbn [magnitude magnitudeQ]. rewrite <- Q2R_bpow, Rle_dec_Q2R, IH. reflexivity.
Qed.

Lemma bpowQ_nonzero (e : Z) : ~ (2 ^ e == 0)%Q.
Proof.
  intros H. apply Qeq_eqR in H. rewrite Q2R_bpow, RMicromega.Q2R_0 in H.
  pose proof (bpow_pos e). lra.
Qed.

Lemma round_at_Q2R (e : Z) (x : Q) :
  round_at e (Q2R x) = option_map Q2R (roundQ_at e x).
Proof.
  unfold round_at, roundQ_at. cbv zeta.
  rewrite <- (Q2R_bpow (e - 52)), <- Q2R_div by apply bpowQ_nonzero.
  rewrite rne_Q2R, <- Q2R_inject_Z, <- Q2R_mult, <- Q2R_abs, <- Q2R_bpow.
  rewrite Rle_dec_Q2R.
  destruct (Qle_bool _ _); reflexivity.
Qed.

Lemma round_Q2R (x : Q) : round (Q2R x) = option_map Q2R (roundQ x).
Proof.
  unfold round, roundQ.
  rewrite <- Q2R_abs, <- Q2R_bpow, Rle_dec_Q2R.
  destruct (Qle_bool (2 ^ 1024) (Qabs x)); [reflexivity|].
  rewrite magnitude_Q2R. apply round_at_Q2R.
Qed.

End Binary64Facts.

(** ** Direct absorption *)

Module DasFacts.

Import Das.
Local Open Scope R_scope.
Local Open Scope string_scope.

Lemma fold_Rmin_le (xs : list R) (x : R) : fold_left Rmin xs x <= x.
Proof.
  revert x; induction xs as [|y ys IH]; intros x; simpl.
  - lra.
  - specialize (IH (Rmin x y)). pose proof (Rmin_l x y). lra.
Qed.

Lemma fold_Rmax_ge (xs : list R) (x : R) : x <= fold_left Rmax xs x.
Proof.
  revert x; induction xs as [|y ys IH]; intros x; simpl.
  - lra.
  - specialize (IH (Rmax x y)). pose proof (Rmax_l x y). lra.
Qed.

Lemma np_min_le_max (a : list R) (lo hi : R) :
  np_min a = Return lo -> np_max a = Return hi -> lo <= hi.
Proof.
  destruct a as [|x xs]; simpl; intros Hlo Hhi; try discriminate.
  injection Hlo as <-. injection Hhi as <-.
  pose proof (fold_Rmin_le xs x). pose proof (fold_Rmax_ge xs x). lra.
Qed.

Lemma Rltb_true (x y : R) : Rltb x y = true <-> x < y.
Proof. unfold Rltb. destruct (Rlt_dec x y); split; intros; try easy. Qed.

Lemma Rltb_false (x y : R) : Rltb x y = false <-> y <= x.
Proof. unfold Rltb. destruct (Rlt_dec x y); split; intros; try easy; lra. Qed.

Lemma out_of_range_true (minNu maxNu minTab maxTab : R) :
  minNu <= maxNu ->
  out_of_range minNu maxNu minTab maxTab = true <->
  minNu < minTab - 1 \/ maxTab + 1 < maxNu.
Proof.
  intros Hle. unfold out_of_range.
  rewrite !orb_true_iff, !Rltb_true. split.
  - intros [[[Hc | Hc] | Hc] | Hc]; lra.
  - intros [Hc | Hc]; [left; left; left | left; right]; exact Hc.
Qed.

Lemma existsb_eqb_In (x : string) (xs : list string) :
  existsb (String.eqb x) xs = true <-> In x xs.
Proof.
  rewrite existsb_exists. split.
  - intros [y [Hin Heq]]. apply String.eqb_eq in Heq. now subst.
  - intros Hin. exists x. split; [exact Hin | apply String.eqb_refl].
Qed.

Section Loop.
Context {db : Type} {hapi : Hapi db}.
Variables (profile mode : string) (iCut : R) (xi_to_nden mden_to_nden : bool).

Abbreviation body := (calDas_body profile mode iCut xi_to_nden mden_to_nden).
Abbreviation loop := (calDas_loop profile mode iCut xi_to_nden mden_to_nden).

Lemma calDas_loop_acc (gasList : list GasParams) :
  forall acc grid s,
    loop acc gasList grid s = prepend acc (loop [] gasList grid s).
Proof.
  induction gasList as [|g rest IH]; intros acc grid s; simpl.
  - now rewrite app_nil_r.
  - destruct (body g grid s) as [[[msg | [grid' r]] | e] s']; simpl; try reflexivity.
    rewrite (IH (acc ++ [r])%list), (IH [r]).
    destruct (loop [] rest grid' s') as [[[msg | rs] | e] s'']; simpl; try reflexivity.
    now rewrite <- app_assoc.
Qed.

Lemma calDas_cons (g : GasParams) (rest : list GasParams) (grid : list R) (s : db) :
  calDas (g :: rest) grid profile mode iCut xi_to_nden mden_to_nden s =
  match body g grid s with
  | (Return (inr (grid', r)), s') =>
      prepend [r] (calDas rest grid' profile mode iCut xi_to_nden mden_to_nden s')
  | (Return (inl msg), s') => (Return (inl msg), s')
  | (Raise e, s') => (Raise e, s')
  end.
Proof.
  unfold calDas; simpl.
  destruct (body g grid s) as [[[msg | [grid' r]] | e] s']; try reflexivity.
  apply calDas_loop_acc.
Qed.


Lemma calDas_body_unknown (g : GasParams) (grid : list R) (s : db) :
  ~ In (gas g) (tableList s) -> body g grid s = (Return (inl msg_gas), s).
Proof.
  intros Hnot. unfold calDas_body.
  destruct (existsb (String.eqb (gas g)) (tableList s)) eqn:E; [|reflexivity].
  apply existsb_eqb_In in E. contradiction.
Qed.

Lemma calDas_body_known (g : GasParams) (grid : list R) (s : db)
    (minNu maxNu minTab maxTab : R) :
  In (gas g) (tableList s) ->
  np_min grid = Return minNu -> np_max grid = Return maxNu ->
  np_min (getColumn_nu s (gas g)) = Return minTab ->
  np_max (getColumn_nu s (gas g)) = Return maxTab ->
  body g grid s =
  if out_of_range minNu maxNu minTab maxTab then (Return (inl msg_range), s)
  else
    let s1 := select_tmp s (gas g) minNu maxNu iCut in
    match number_density xi_to_nden mden_to_nden g (p g / 1.013e3) with
    | Raise e => (Raise e, s1)
    | Return n =>
        match line_shape profile s1 grid (t g) (p g / 1.013e3) iCut with
        | Raise e => (Raise e, s1)
        | Return (grid', coeff) =>
            match apply_mode mode n (l g) coeff with
            | Raise e => (Raise e, s1)
            | Return coeff' =>
                (Return (inr (grid', mkResult g grid' coeff')), dropTable_tmp s1)
            end
        end
    end.
Proof.
  intros Hin Hlo Hhi Htlo Hthi. unfold calDas_body.
  apply existsb_eqb_In in Hin. rewrite Hin; simpl.
  now rewrite Hlo, Hhi, Htlo, Hthi.
Qed.

(** A completed iteration, taken apart. *)
Lemma calDas_body_inr (g : GasParams) (grid : list R) (s : db)
    (grid' : list R) (r : DasResult) (s' : db) :
  body g grid s = (Return (inr (grid', r)), s') ->
  exists minNu maxNu n raw coeff',
    np_min grid = Return minNu /\ np_max grid = Return maxNu /\
    number_density xi_to_nden mden_to_nden g (p g / 1.013e3) = Return n /\
    line_shape profile (select_tmp s (gas g) minNu maxNu iCut) grid (t g)
      (p g / 1.013e3) iCut = Return (grid', raw) /\
    apply_mode mode n (l g) raw = Return coeff' /\
    r = mkResult g grid' coeff' /\
    s' = dropTable_tmp (select_tmp s (gas g) minNu maxNu iCut).
Proof.
  unfold calDas_body.
  destruct (negb (existsb (String.eqb (gas g)) (tableList s))); [discriminate|].
  destruct (np_min grid) as [minNu|]; [|discriminate].
  destruct (np_max grid) as [maxNu|]; [|discriminate].
  destruct (np_min (getColumn_nu s (gas g))) as [minTab|]; [|discriminate].
  destruct (np_max (getColumn_nu s (gas g))) as [maxTab|]; [|discriminate].
  destruct (out_of_range minNu maxNu minTab maxTab); [discriminate|].
  destruct (number_density xi_to_nden mden_to_nden g (p g / 1.013e3))
    as [n|]; [|discriminate].
  destruct (line_shape profile _ grid (t g) (p g / 1.013e3) iCut)
    as [[g1 raw]|] eqn:Els; [|discriminate].
  destruct (apply_mode mode n (l g) raw) as [coeff'|] eqn:Eam; [|discriminate].
  intros Heq. injection Heq as Hg Hr Hs. subst g1.
  exists minNu, maxNu, n, raw, coeff'. repeat split; auto.
Qed.

End Loop.

Lemma apply_mode_other (mode : string) (n : option R) (len : R) (coeff : list R) :
  mode <> "Absorbance" -> mode <> "Transmission" ->
  apply_mode mode n len coeff = Return (map Finite coeff).
Proof.
  intros HA HT. unfold apply_mode.
  apply String.eqb_neq in HA, HT. now rewrite HA, HT.
Qed.

Lemma line_shape_unsupported {db : Type} {hapi : Hapi db} (profile : string)
    (s : db) (grid : list R) (T p_atm iCut : R) :
  ~ supported profile ->
  line_shape profile s grid T p_atm iCut = Raise (Exception "No suitable profile.").
Proof.
  intros Hns. unfold line_shape.
  destruct (String.eqb_spec profile "Voigt") as [E|_];
    [exfalso; apply Hns; unfold supported; tauto|].
  destruct (String.eqb_spec profile "HT") as [E|_];
    [exfalso; apply Hns; unfold supported; tauto|].
  destruct (String.eqb_spec profile "Doppler") as [E|_];
    [exfalso; apply Hns; unfold supported; tauto|].
  destruct (String.eqb_spec profile "Lorentz") as [E|_];
    [exfalso; apply Hns; unfold supported; tauto|].
  reflexivity.
Qed.

Lemma line_shape_supported {db : Type} {hapi : Hapi db} (profile : string)
    (s : db) (grid : list R) (T p_atm iCut : R) :
  supported profile ->
  exists grid' raw, line_shape profile s grid T p_atm iCut = Return (grid', raw).
Proof.
  unfold line_shape.
  intros [-> | [-> | [-> | ->]]]; simpl;
    match goal with
    | |- exists _ _, Return ?x = _ => exists (fst x), (snd x); now destruct x
    end.
Qed.

Lemma number_density_total (xi md : bool) (g : GasParams) (p_atm : R) :
  (xi = true -> t g <> 0) ->
  exists n, number_density xi md g p_atm = Return n.
Proof.
  intros Ht. unfold number_density, mixRatio2numDen.
  destruct xi; simpl.
  - destruct (Req_dec_T (t g) 0) as [E|_]; [now elim Ht|].
    simpl. destruct md; eauto.
  - destruct md; eauto.
Qed.

Lemma number_density_bound (xi md : bool) (g : GasParams) (p_atm : R) :
  (xi = true \/ md = true) -> t g <> 0 ->
  exists v, number_density xi md g p_atm = Return (Some v).
Proof.
  intros Hflag Ht. unfold number_density, mixRatio2numDen.
  destruct xi; simpl.
  - destruct (Req_dec_T (t g) 0) as [E|_]; [contradiction|].
    simpl. destruct md; eauto.
  - destruct md; simpl; eauto. destruct Hflag; discriminate.
Qed.




Lemma number_density_same_shape (xi md : bool) (g g' : GasParams) (p_atm : R) :
  t g = t g' ->
  match number_density xi md g p_atm, number_density xi md g' p_atm with
  | Return _, Return _ => True
  | Raise e1, Raise e2 => e1 = e2
  | _, _ => False
  end.
Proof.
  intros Ht. unfold number_density, mixRatio2numDen. rewrite <- Ht.
  destruct xi; simpl.
  - destruct (Req_dec_T (t g) 0); simpl; [reflexivity|]. now destruct md.
  - now destruct md.
Qed.

Lemma calDas_body_coefficient_agree {db : Type} {hapi : Hapi db}
    (profile : string) (iCut : R) (xi md : bool) (g g' : GasParams)
    (grid : list R) (s : db) :
  same_but_c_l g g' ->
  step_agree (calDas_body profile "Coefficient" iCut xi md g grid s)
             (calDas_body profile "Coefficient" iCut xi md g' grid s).
Proof.
  intros (Hgas & Hp & Ht). unfold calDas_body.
  rewrite <- Hgas, <- Hp, <- Ht.
  destruct (negb _); [simpl; auto|].
  destruct (np_min grid); [|simpl; auto].
  destruct (np_max grid); [|simpl; auto].
  destruct (np_min _); [|simpl; auto].
  destruct (np_max _); [|simpl; auto].
  destruct (out_of_range _ _ _ _); [simpl; auto|].
  pose proof (number_density_same_shape xi md g g' (p g / 1.013e3) Ht) as Hn.
  destruct (number_density xi md g _) as [n|e];
    destruct (number_density xi md g' _) as [n'|e']; try contradiction.
  - destruct (line_shape _ _ _ _ _ _) as [[g1 raw]|]; [|simpl; auto].
    rewrite !apply_mode_other by discriminate. simpl. auto.
  - simpl. auto.
Qed.

(** C7.  With mode ['Coefficient'], two gas lists that differ only in the
    concentration and path length of their gases give the same grids and
    spectra (and the same message, exception and table store when the call
    fails). *)
Theorem calDas_coefficient_ignores_c_l :
  forall (db : Type) (hapi : Hapi db) (gasList gasList' : list GasParams)
         (grid : list R) (profile : string) (iCut : R) (xi md : bool) (s : db),
    Forall2 same_but_c_l gasList gasList' ->
    curves (calDas gasList grid profile "Coefficient" iCut xi md s) =
    curves (calDas gasList' grid profile "Coefficient" iCut xi md s).
Proof.
  intros db hapi gasList gasList' grid profile iCut xi md s Hsame.
  revert grid s.
  induction Hsame as [|g g' rest rest' Hg Hrest IH]; intros grid s.
  - reflexivity.
  - rewrite !calDas_cons.
    pose proof (calDas_body_coefficient_agree profile iCut xi md g g' grid s Hg)
      as Hstep.
    unfold step_agree in Hstep.
    destruct (calDas_body profile "Coefficient" iCut xi md g grid s)
      as [[[m1 | [g1 r1]] | e1] s1];
      destruct (calDas_body profile "Coefficient" iCut xi md g' grid s)
      as [[[m2 | [g2 r2]] | e2] s2]; try contradiction.
    + destruct Hstep as [-> ->]. reflexivity.
    + destruct Hstep as (-> & -> & Hnu & Hsp).
      specialize (IH g2 s2).
      destruct (calDas rest g2 profile "Coefficient" iCut xi md s2)
        as [[[ma | ra] | ea] sa];
        destruct (calDas rest' g2 profile "Coefficient" iCut xi md s2)
        as [[[mb | rb] | eb] sb]; simpl in IH |- *; try discriminate;
        try exact IH.
      injection IH as Hrs Hs. rewrite Hnu, Hsp, Hrs, Hs. reflexivity.
    + destruct Hstep as [-> ->]. reflexivity.
Qed.

(** C8.  When the iteration for a gas completes, the grid it leaves in the
    local [nu] is the one the line-shape adapter returned (it is also the
    ['nu'] of that gas's result), and the iteration of the next gas, at any
    position of the batch, runs its range check, its line selection and
    its adapter call on that grid and not on the grid the gas before it
    received. *)
Theorem calDas_next_gas_sees_returned_grid :
  forall (db : Type) (hapi : Hapi db) (profile mode : string) (iCut : R)
         (xi md : bool) (g1 g2 : GasParams) (rest : list GasParams)
         (grid : list R) (s : db) (grid1 : list R) (r1 : DasResult) (s1 : db),
    calDas_body profile mode iCut xi md g1 grid s
      = (Return (inr (grid1, r1)), s1) ->
    (exists minNu maxNu raw,
        np_min grid = Return minNu /\ np_max grid = Return maxNu /\
        line_shape profile (select_tmp s (gas g1) minNu maxNu iCut) grid
          (t g1) (p g1 / 1.013e3) iCut = Return (grid1, raw)) /\
    nu r1 = grid1 /\
    forall results,
      calDas_loop profile mode iCut xi md results (g1 :: g2 :: rest) grid s =
      match calDas_body profile mode iCut xi md g2 grid1 s1 with
      | (Raise e, s') => (Raise e, s')
      | (Return (inl msg), s') => (Return (inl msg), s')
      | (Return (inr (grid2, r2)), s2) =>
          calDas_loop profile mode iCut xi md ((results ++ [r1]) ++ [r2])%list
            rest grid2 s2
      end.
Proof.
  intros db hapi profile mode iCut xi md g1 g2 rest grid s grid1 r1 s1 Hrun.
  split; [|split].
  - apply calDas_body_inr in Hrun.
    destruct Hrun as (minNu & maxNu & n & raw & coeff' & Hlo & Hhi & _ & Hls & _).
    now exists minNu, maxNu, raw.
  - apply calDas_body_inr in Hrun.
    destruct Hrun as (minNu & maxNu & n & raw & coeff' & _ & _ & _ & _ & _ & -> & _).
    reflexivity.
  - intros results. simpl. rewrite Hrun. reflexivity.
Qed.

(** C6, amended.  For a profile name outside Voigt, HT, Doppler and Lorentz
    and a batch whose first gas is known and within range (with a non-zero
    temperature when the mixing ratio is converted), the call stops in the
    first iteration, whatever the adapter's line shapes would compute: it
    raises [Exception('No suitable profile.')], returns neither a message
    nor partial results, and leaves the selected table ['tmp'] behind. *)
Theorem calDas_unsupported_profile_raises :
  forall (db : Type) (hapi : Hapi db) (g : GasParams) (rest : list GasParams)
         (grid : list R) (profile mode : string) (iCut : R) (xi md : bool)
         (s : db) (minNu maxNu minTab maxTab : R),
    ~ supported profile ->
    In (gas g) (tableList s) ->
    np_min grid = Return minNu -> np_max grid = Return maxNu ->
    np_min (getColumn_nu s (gas g)) = Return minTab ->
    np_max (getColumn_nu s (gas g)) = Return maxTab ->
    minTab - 1 <= minNu -> maxNu <= maxTab + 1 ->
    (xi = true -> t g <> 0) ->
    calDas (g :: rest) grid profile mode iCut xi md s =
    (Raise (Exception "No suitable profile."),
     select_tmp s (gas g) minNu maxNu iCut).
Proof.
  intros db hapi g rest grid profile mode iCut xi md s minNu maxNu minTab maxTab
         Hns Hin Hlo Hhi Htlo Hthi Hlow Hhigh Ht.
  rewrite calDas_cons.
  rewrite (calDas_body_known profile mode iCut xi md g grid s
             minNu maxNu minTab maxTab) by assumption.
  destruct (out_of_range minNu maxNu minTab maxTab) eqn:Eoor.
  - apply out_of_range_true in Eoor; [lra|].
    eapply np_min_le_max; eassumption.
  - cbv zeta.
    destruct (number_density_total xi md g (p g / 1.013e3) Ht) as [n ->].
    now rewrite line_shape_unsupported.
Qed.

(** C2, amended.  For a known gas the range message is returned exactly when
    the lower end of the grid is more than 1 below the lowest tabulated line
    or its upper end more than 1 above the highest one.  A grid lying more
    than 1 outside the tabulated lines fails that way whatever follows in
    the batch; a grid inside the tabulated range widened by 1 at each end,
    its ends included, yields a result for a supported profile, a non-zero
    temperature and a bound number density. *)
Theorem calDas_range_check :
  forall (db : Type) (hapi : Hapi db) (g : GasParams) (grid : list R)
         (profile mode : string) (iCut : R) (xi md : bool) (s : db)
         (minNu maxNu minTab maxTab : R),
    In (gas g) (tableList s) ->
    np_min grid = Return minNu -> np_max grid = Return maxNu ->
    np_min (getColumn_nu s (gas g)) = Return minTab ->
    np_max (getColumn_nu s (gas g)) = Return maxTab ->
    (fst (calDas [g] grid profile mode iCut xi md s) = Return (inl msg_range)
     <-> minNu < minTab - 1 \/ maxTab + 1 < maxNu) /\
    (maxNu < minTab - 1 \/ maxTab + 1 < minNu ->
     forall rest,
       calDas (g :: rest) grid profile mode iCut xi md s
         = (Return (inl msg_range), s)) /\
    (minTab - 1 <= minNu -> maxNu <= maxTab + 1 ->
     supported profile -> t g <> 0 -> xi = true \/ md = true ->
     exists r s',
       calDas [g] grid profile mode iCut xi md s = (Return (inr [r]), s')).
Proof.
  intros db hapi g grid profile mode iCut xi md s minNu maxNu minTab maxTab
         Hin Hlo Hhi Htlo Hthi.
  assert (Hle : minNu <= maxNu) by (eapply np_min_le_max; eassumption).
  pose proof (out_of_range_true minNu maxNu minTab maxTab Hle) as Hoor.
  pose proof (calDas_body_known profile mode iCut xi md g grid s
                minNu maxNu minTab maxTab Hin Hlo Hhi Htlo Hthi) as Hbody.
  split; [|split].
  - rewrite calDas_cons, Hbody.
    destruct (out_of_range minNu maxNu minTab maxTab).
    + simpl. split; [intros _; now apply Hoor | reflexivity].
    + cbv zeta. split.
      * intros Hmsg. exfalso.
        destruct (number_density _ _ _ _); [|discriminate].
        destruct (line_shape _ _ _ _ _ _) as [[g1 raw]|]; [|discriminate].
        destruct (apply_mode _ _ _ _); discriminate.
      * intros Hc. apply Hoor in Hc. discriminate.
  - intros Hout rest. rewrite calDas_cons, Hbody.
    assert (E : out_of_range minNu maxNu minTab maxTab = true)
      by (apply Hoor; lra).
    now rewrite E.
  - intros Hlow Hhigh Hsup Ht Hflag.
    rewrite calDas_cons, Hbody.
    assert (E : out_of_range minNu maxNu minTab maxTab = false).
    { destruct (out_of_range minNu maxNu minTab maxTab) eqn:E';
        [|reflexivity].
      apply out_of_range_true in E'; [lra | exact Hle]. }
    rewrite E. cbv zeta.
    destruct (number_density_bound xi md g (p g / 1.013e3) Hflag Ht) as [v ->].
    destruct (line_shape_supported profile
                (select_tmp s (gas g) minNu maxNu iCut) grid (t g)
                (p g / 1.013e3) iCut Hsup) as (grid' & raw & ->).
    assert (Ham : exists coeff', apply_mode mode (Some v) (l g) raw = Return coeff').
    { unfold apply_mode. destruct (mode =? "Absorbance"); simpl; eauto.
      destruct (mode =? "Transmission"); simpl; eauto. }
    destruct Ham as [coeff' ->]. simpl. eauto.
Qed.

(** The range of [np.exp]. *)
Lemma np_exp_zero (x : R) :
  exp x <= Binary64.bpow (-1075) -> np_exp x = Finite 0.
Proof.
  intros Hx. unfold np_exp. destruct (Rle_dec _ _); [reflexivity | contradiction].
Qed.

Lemma largest_above_half : Binary64.bpow 1023 < Binary64.bpow 1024 - Binary64.bpow 970.
Proof.
  replace 1024%Z with (1023 + 1)%Z by lia.
  rewrite Binary64Facts.bpow_succ.
  assert (H : Binary64.bpow 970 < Binary64.bpow 1023)
    by (apply Binary64Facts.bpow_lt; lia).
  lra.
Qed.

Lemma np_exp_finite (x : R) :
  Binary64.bpow (-1075) < exp x -> exp x <= Binary64.bpow 1023 ->
  np_exp x = Finite (exp x).
Proof.
  intros Hlo Hhi. unfold np_exp. pose proof largest_above_half.
  destruct (Rle_dec _ _); [exfalso; lra|].
  destruct (Rle_dec _ _); [exfalso; lra | reflexivity].
Qed.

Lemma np_exp_inf (x : R) :
  Binary64.bpow 1024 <= exp x -> np_exp x = PosInf.
Proof.
  intros Hx. unfold np_exp.
  pose proof (Binary64Facts.bpow_pos 970).
  assert (Binary64.bpow (-1075) < Binary64.bpow 1024)
    by (apply Binary64Facts.bpow_lt; lia).
  destruct (Rle_dec _ _); [exfalso; lra|].
  destruct (Rle_dec _ _); [reflexivity | exfalso; lra].
Qed.

Lemma round_trip_exp (a : R) : round_trip (np_exp (- a)) (Finite a).
Proof.
  exists a. split; [reflexivity|]. split; [reflexivity|].
  intros [Hlo Hhi].
  assert (Hsub : Binary64.bpow (-1075) < Binary64.bpow (-1022))
    by (apply Binary64Facts.bpow_lt; lia).
  exists (exp (- a)). split; [apply np_exp_finite; lra|].
  split; [apply exp_pos|]. rewrite ln_exp. lra.
Qed.

Lemma exp_neg_unit (x : R) : 0 <= x -> 0 < exp (- x) <= 1.
Proof.
  intros Hx. split; [apply exp_pos|].
  destruct (Req_dec x 0) as [-> | Hne].
  - rewrite Ropp_0, exp_0. lra.
  - rewrite <- exp_0. left. apply exp_increasing. lra.
Qed.

Lemma unit_value_exp (a : R) : 0 <= a -> unit_value (np_exp (- a)) (Finite a).
Proof.
  intros Ha. pose proof (exp_neg_unit a Ha) as [Hpos Hle].
  assert (Hone : 1 <= Binary64.bpow 1023)
    by (apply (Binary64Facts.bpow_nonneg_ge1 1023)).
  assert (Hsub : Binary64.bpow (-1075) < Binary64.bpow (-1022))
    by (apply Binary64Facts.bpow_lt; lia).
  destruct (Rle_dec (exp (- a)) (Binary64.bpow (-1075))) as [Hu | Hn].
  - exists 0, a. rewrite np_exp_zero by exact Hu.
    repeat split; try lra; auto; try (intros; exfalso; lra).
  - exists (exp (- a)), a. rewrite np_exp_finite by lra.
    repeat split; try lra; auto; try (intros; exfalso; lra).
Qed.

Lemma exp_above_one (x : R) : 0 < x -> 1 < exp x.
Proof.
  intros Hx. rewrite <- exp_0. now apply exp_increasing.
Qed.

Lemma kb_pos : 0 < kb.
Proof. unfold kb. lra. Qed.

Lemma nA_pos : 0 < nA.
Proof. unfold nA. lra. Qed.

Lemma mixRatio2numDen_sign (conc p_atm T n : R) :
  0 < p_atm -> 0 < T ->
  mixRatio2numDen conc p_atm T = Return n ->
  exists k, 0 < k /\ n = k * conc.
Proof.
  intros Hp HT. unfold mixRatio2numDen.
  destruct (Req_dec_T T 0); [discriminate|].
  intros Heq. injection Heq as <-.
  exists (p_atm * 1.013e5 / kb / T * 1e-6). split; [|reflexivity].
  apply Rmult_lt_0_compat; [|lra].
  apply Rdiv_lt_0_compat; [|exact HT].
  apply Rdiv_lt_0_compat; [|exact kb_pos].
  apply Rmult_lt_0_compat; lra.
Qed.

Lemma number_density_sign (xi md : bool) (g : GasParams) (n : R) :
  valid_gas g ->
  number_density xi md g (p g / 1.013e3) = Return (Some n) ->
  exists k, 0 < k /\ n = k * c g.
Proof.
  intros (Hp & Ht & _). unfold number_density.
  assert (Hpa : 0 < p g / 1.013e3) by (apply Rdiv_lt_0_compat; lra).
  destruct xi; simpl.
  - destruct (mixRatio2numDen (c g) (p g / 1.013e3) (t g)) as [v|] eqn:E;
      simpl; [|discriminate].
    destruct md; intros Heq; injection Heq as <-.
    + exists (nA * 1e-6). pose proof nA_pos. split; [lra | ring].
    + apply (mixRatio2numDen_sign (c g) (p g / 1.013e3) (t g)); assumption.
  - destruct md; intros Heq; [injection Heq as <- | discriminate].
    exists (nA * 1e-6). pose proof nA_pos. split; [lra | ring].
Qed.

Lemma calDas_body_transmission {db : Type} {hapi : Hapi db}
    (profile : string) (iCut : R) (xi md : bool) (g : GasParams)
    (grid : list R) (s : db) (grid' : list R) (r : DasResult) (s' : db) :
  calDas_body profile "Transmission" iCut xi md g grid s
    = (Return (inr (grid', r)), s') ->
  exists n raw,
    number_density xi md g (p g / 1.013e3) = Return (Some n) /\
    r = mkResult g grid'
          (map (fun k => np_exp (- k)) (map (fun k => k * n * l g) raw)) /\
    calDas_body profile "Absorbance" iCut xi md g grid s
      = (Return (inr (grid',
                      mkResult g grid'
                        (map (fun k => Finite (k * n * l g)) raw))), s') /\
    calDas_body profile "Coefficient" iCut xi md g grid s
      = (Return (inr (grid', mkResult g grid' (map Finite raw))), s').
Proof.
  unfold calDas_body.
  destruct (negb _); [discriminate|].
  destruct (np_min grid); [|discriminate].
  destruct (np_max grid); [|discriminate].
  destruct (np_min _); [|discriminate].
  destruct (np_max _); [|discriminate].
  destruct (out_of_range _ _ _ _); [discriminate|].
  destruct (number_density _ _ _ _) as [[n|]|]; try discriminate.
  - destruct (line_shape _ _ _ _ _ _) as [[g1 raw]|]; [|discriminate].
    simpl. intros Heq. injection Heq as <- <- <-.
    exists n, raw. auto.
  - destruct (line_shape _ _ _ _ _ _) as [[g1 raw]|]; discriminate.
Qed.

(** C1, amended.  When the Transmission call returns results, the
    Absorbance and the Coefficient calls on the same inputs return results
    too, leaving the same table store.  Gas by gas the Transmission values
    are [np.exp (- (raw * n * l))] for the raw coefficient and the number
    density [n] of that gas, that is [np.exp] of the opposite of the
    Absorbance values; where that exponential is a normal binary64 number,
    minus the logarithm of the Transmission value is the Absorbance value.
    If moreover the gases are valid, their concentrations are not negative
    and the raw coefficients are not negative, every Transmission value
    lies in the closed interval [0, 1]: it is [0.0] exactly where the
    exponential is at most [2 ^ -1075], and the exponential itself where
    that is a normal binary64 number. *)
Theorem calDas_transmission_law :
  forall (db : Type) (hapi : Hapi db) (gasList : list GasParams)
         (grid : list R) (profile : string) (iCut : R) (xi md : bool)
         (s : db) (rt : list DasResult) (s' : db),
    calDas gasList grid profile "Transmission" iCut xi md s
      = (Return (inr rt), s') ->
    exists ra rc,
      calDas gasList grid profile "Absorbance" iCut xi md s
        = (Return (inr ra), s') /\
      calDas gasList grid profile "Coefficient" iCut xi md s
        = (Return (inr rc), s') /\
      Forall2 (beer_lambert xi md) rt rc /\
      Forall2 minus_log rt ra /\
      (Forall valid_gas gasList ->
       Forall (fun g => 0 <= c g) gasList ->
       Forall nonnegative rc ->
       Forall2 in_unit_interval rt ra).
Proof.
  intros db hapi gasList. induction gasList as [|g rest IH];
    intros grid profile iCut xi md s rt s' Hrun.
  - injection Hrun as <- <-. exists [], []. repeat split; constructor.
  - rewrite calDas_cons in Hrun.
    destruct (calDas_body profile "Transmission" iCut xi md g grid s)
      as [[[msg | [grid1 r1]] | e] s1] eqn:Ebody; try discriminate.
    apply calDas_body_transmission in Ebody.
    destruct Ebody as (n & raw & Hn & -> & HbA & HbC).
    destruct (calDas rest grid1 profile "Transmission" iCut xi md s1)
      as [[[msg | rt'] | e] s2] eqn:Erest; try discriminate.
    simpl in Hrun. injection Hrun as <- <-.
    destruct (IH _ _ _ _ _ _ _ _ Erest) as (ra' & rc' & HA & HC & Hbl & Hml & Hunit).
    exists (mkResult g grid1 (map (fun k => Finite (k * n * l g)) raw) :: ra'),
           (mkResult g grid1 (map Finite raw) :: rc').
    rewrite !calDas_cons, HbA, HbC, HA, HC. simpl.
    repeat split; auto.
    + constructor; [|exact Hbl]. unfold beer_lambert; simpl.
      repeat split; auto. exists n, raw. split; [exact Hn|].
      split; [reflexivity|]. now rewrite map_map.
    + constructor; [|exact Hml]. unfold minus_log; simpl.
      repeat split; auto. rewrite map_map.
      clear. induction raw as [|k raw IHraw]; simpl; constructor; auto.
      apply round_trip_exp.
    + intros Hvalid Hconc Hraw.
      inversion Hvalid as [|? ? Hvg Hvrest]; subst.
      inversion Hconc as [|? ? Hcg Hcrest]; subst.
      inversion Hraw as [|? ? Hrg Hrrest]; subst.
      constructor; [|now apply Hunit].
      unfold in_unit_interval, nonnegative in *; simpl in *.
      destruct (number_density_sign xi md g n Hvg Hn) as (k & Hk & ->).
      destruct Hvg as (_ & _ & Hl).
      rewrite map_map.
      clear - Hrg Hk Hl Hcg.
      induction raw as [|a raw IHraw]; simpl; constructor.
      * apply unit_value_exp.
        apply Forall_inv in Hrg. destruct Hrg as (a' & Heq & Ha').
        injection Heq as <-.
        apply Rmult_le_pos; [|lra]. apply Rmult_le_pos; [exact Ha'|].
        apply Rmult_le_pos; lra.
      * apply IHraw. now apply Forall_inv_tail in Hrg.
Qed.

(** *** Concrete runs *)


Lemma calDas_coefficient_ignores_c_l_witness :
  Forall2 same_but_c_l [Toy.nh3] [Toy.nh3_long] /\
  curves (calDas (hapi := Toy.hapi 0 1) [Toy.nh3] [1100; 1101] "Voigt"
            "Coefficient" 1e-30 true false ["NH3"]) =
  curves (calDas (hapi := Toy.hapi 0 1) [Toy.nh3_long] [1100; 1101] "Voigt"
            "Coefficient" 1e-30 true false ["NH3"]).
Proof.
  assert (Hsame : Forall2 same_but_c_l [Toy.nh3] [Toy.nh3_long]).
  { repeat constructor. }
  split; [exact Hsame|].
  apply (calDas_coefficient_ignores_c_l (list string) (Toy.hapi 0 1)); exact Hsame.
Defined.

Lemma calDas_next_gas_witness :
  calDas_body (hapi := Toy.hapi 50 1) "Voigt" "Coefficient" 1e-30 true false
    Toy.nh3 [1100; 1101] ["NH3"]
  = (Return (inr ([1100 + 50; 1101 + 50],
                  mkResult Toy.nh3 [1100 + 50; 1101 + 50] [Finite 1; Finite 1])), ["NH3"]) /\
  forall results,
    calDas_loop (hapi := Toy.hapi 50 1) "Voigt" "Coefficient" 1e-30 true false
      results [Toy.nh3; Toy.nh3] [1100; 1101] ["NH3"] =
    match calDas_body (hapi := Toy.hapi 50 1) "Voigt" "Coefficient" 1e-30 true
            false Toy.nh3 [1100 + 50; 1101 + 50] ["NH3"] with
    | (Raise e, s') => (Raise e, s')
    | (Return (inl msg), s') => (Return (inl msg), s')
    | (Return (inr (grid2, r2)), s2) =>
        calDas_loop (hapi := Toy.hapi 50 1) "Voigt" "Coefficient" 1e-30 true
          false ((results ++ [mkResult Toy.nh3 [1100 + 50; 1101 + 50] [Finite 1; Finite 1]])
                   ++ [r2])%list [] grid2 s2
    end.
Proof.
  assert (Hrun :
    calDas_body (hapi := Toy.hapi 50 1) "Voigt" "Coefficient" 1e-30 true false
      Toy.nh3 [1100; 1101] ["NH3"]
    = (Return (inr ([1100 + 50; 1101 + 50],
                    mkResult Toy.nh3 [1100 + 50; 1101 + 50] [Finite 1; Finite 1])), ["NH3"])).
  { das_run. reflexivity. }
  split; [exact Hrun|].
  apply (calDas_next_gas_sees_returned_grid (list string) (Toy.hapi 50 1)
           "Voigt" "Coefficient" 1e-30 true false Toy.nh3 Toy.nh3 []
           [1100; 1101] ["NH3"] _ _ _ Hrun).
Defined.

(** The rebinding can be observed: when the adapter answers a grid moved by
    150, a batch of two copies of one gas is refused for the range of the
    second copy, although the grid of the caller is in range and the gas
    alone is computed. *)
Example calDas_rebound_grid_observable :
  fst (calDas (hapi := Toy.hapi 150 1) [Toy.nh3] [1100; 1101] "Voigt"
         "Coefficient" 1e-30 true false ["NH3"])
  = Return (inr [mkResult Toy.nh3 [1100 + 150; 1101 + 150]
                   [Finite 1; Finite 1]]) /\
  fst (calDas (hapi := Toy.hapi 150 1) [Toy.nh3; Toy.nh3] [1100; 1101] "Voigt"
         "Coefficient" 1e-30 true false ["NH3"])
  = Return (inl msg_range).
Proof.
  split; das_run; reflexivity.
Qed.

(** C6, counterexample.  A known gas in range with the profile name
    ['Gauss']: the call raises, it does not return a failure value. *)
Lemma calDas_unsupported_profile_escapes :
  ~ supported "Gauss" /\
  fst (calDas (hapi := Toy.hapi 0 1) [Toy.nh3] [1100; 1101] "Gauss"
         "Absorbance" 1e-30 true false ["NH3"])
  = Raise (Exception "No suitable profile.") /\
  ~ exists msg,
      fst (calDas (hapi := Toy.hapi 0 1) [Toy.nh3] [1100; 1101] "Gauss"
             "Absorbance" 1e-30 true false ["NH3"]) = Return (inl msg).
Proof.
  assert (Hrun :
    fst (calDas (hapi := Toy.hapi 0 1) [Toy.nh3] [1100; 1101] "Gauss"
           "Absorbance" 1e-30 true false ["NH3"])
    = Raise (Exception "No suitable profile.")).
  { das_run. reflexivity. }
  split; [|split].
  - unfold supported. intros [E | [E | [E | E]]]; discriminate.
  - exact Hrun.
  - intros [msg Hmsg]. rewrite Hrun in Hmsg. discriminate.
Qed.

Lemma calDas_unsupported_profile_witness :
  ~ supported "Gauss" /\
  calDas (hapi := Toy.hapi 0 1) [Toy.nh3; Toy.nh3_long] [1100; 1101] "Gauss"
    "Absorbance" 1e-30 true false ["NH3"]
  = (Raise (Exception "No suitable profile."), ["tmp"; "NH3"]).
Proof.
  assert (Hns : ~ supported "Gauss").
  { unfold supported. intros [E | [E | [E | E]]]; discriminate. }
  split; [exact Hns|].
  apply (calDas_unsupported_profile_raises (list string) (Toy.hapi 0 1)
           Toy.nh3 [Toy.nh3_long] [1100; 1101] "Gauss" "Absorbance" 1e-30
           true false ["NH3"] 1100 1101 1000 1200).
  - exact Hns.
  - simpl. auto.
  - np_eval.
  - np_eval.
  - np_eval.
  - np_eval.
  - lra.
  - lra.
  - intros _. unfold Toy.nh3. simpl. lra.
Defined.

(** C2, counterexample.  The tabulated lines run from 1000 to 1200.  The
    grid from 900 to 1100 shares the stretch 1000-1100 with them and is
    refused; the grid from 1200.5 to 1200.9 lies entirely above them and
    is computed. *)
Lemma calDas_range_is_containment :
  np_min (getColumn_nu (Hapi := Toy.hapi 0 1) ["NH3"] "NH3") = Return 1000 /\
  np_max (getColumn_nu (Hapi := Toy.hapi 0 1) ["NH3"] "NH3") = Return 1200 /\
  fst (calDas (hapi := Toy.hapi 0 1) [Toy.nh3] [900; 1100] "Voigt"
         "Absorbance" 1e-30 true false ["NH3"])
  = Return (inl msg_range) /\
  exists r,
    fst (calDas (hapi := Toy.hapi 0 1) [Toy.nh3] [1200.5; 1200.9] "Voigt"
           "Absorbance" 1e-30 true false ["NH3"]) = Return (inr [r]).
Proof.
  split; [np_eval|]. split; [np_eval|]. split.
  - das_run. reflexivity.
  - eexists. das_run. reflexivity.
Qed.

Lemma calDas_range_check_witness :
  In "NH3" ["NH3"] /\
  exists r s',
    calDas (hapi := Toy.hapi 0 1) [Toy.nh3] [999; 1201] "Voigt" "Absorbance"
      1e-30 true false ["NH3"] = (Return (inr [r]), s').
Proof.
  split; [simpl; auto|].
  apply (calDas_range_check (list string) (Toy.hapi 0 1) Toy.nh3 [999; 1201]
           "Voigt" "Absorbance" 1e-30 true false ["NH3"] 999 1201 1000 1200).
  - simpl. auto.
  - np_eval.
  - np_eval.
  - np_eval.
  - np_eval.
  - lra.
  - lra.
  - unfold supported. auto.
  - unfold Toy.nh3. simpl. lra.
  - auto.
Defined.

(** The exponential against the powers of two. *)
Lemma exp_le_mono (x y : R) : x <= y -> exp x <= exp y.
Proof.
  intros [Hlt | ->]; [left; now apply exp_increasing | right; reflexivity].
Qed.

Lemma bpow_le_exp (k : Z) : (0 <= k)%Z -> Binary64.bpow k <= exp (IZR k).
Proof.
  intros Hk. pattern k. apply natlike_ind; [| |exact Hk].
  - rewrite exp_0. unfold Binary64.bpow. simpl. lra.
  - intros x Hx IH. unfold Z.succ.
    rewrite Binary64Facts.bpow_succ, plus_IZR, exp_plus.
    pose proof (exp_ineq1_le 1) as H1.
    pose proof (Binary64Facts.bpow_pos x) as Hb.
    pose proof (exp_pos (IZR x)) as He. nra.
Qed.

Lemma exp_neg_le_bpow (k : Z) :
  (0 <= k)%Z -> exp (- IZR k) <= Binary64.bpow (- k).
Proof.
  intros Hk. rewrite exp_Ropp, Binary64Facts.bpow_opp.
  apply Rinv_le_contravar; [apply Binary64Facts.bpow_pos | now apply bpow_le_exp].
Qed.

(** [np.exp] returns [0.0] from 1075 down and [inf] from 1024 up. *)
Lemma np_exp_underflow (x : R) : x <= - 1075 -> np_exp x = Finite 0.
Proof.
  intros Hx. apply np_exp_zero.
  apply Rle_trans with (exp (- IZR 1075)); [now apply exp_le_mono|].
  apply (exp_neg_le_bpow 1075). lia.
Qed.

Lemma np_exp_overflow (x : R) : 1024 <= x -> np_exp x = PosInf.
Proof.
  intros Hx. apply np_exp_inf.
  apply Rle_trans with (exp (IZR 1024)); [|now apply exp_le_mono].
  apply bpow_le_exp. lia.
Qed.

(** C1, counterexample.  A gas that is valid for the data model but has the
    mixing ratio -1, with the raw coefficient 1: the Transmission value is
    [np.exp] of about 2.4e19, that is [inf], and no number of (0, 1]. *)
Lemma calDas_transmission_above_one :
  valid_gas Toy.nh3_negative /\
  fst (calDas (hapi := Toy.hapi 0 1) [Toy.nh3_negative] [1100] "Voigt"
         "Transmission" 1e-30 true false ["NH3"])
  = Return (inr [mkResult Toy.nh3_negative [1100 + 0] [PosInf]]) /\
  fst (calDas (hapi := Toy.hapi 0 1) [Toy.nh3_negative] [1100] "Voigt"
         "Coefficient" 1e-30 true false ["NH3"])
  = Return (inr [mkResult Toy.nh3_negative [1100 + 0] [Finite 1]]) /\
  ~ exists v, PosInf = Finite v /\ 0 < v <= 1.
Proof.
  split; [|split; [|split]].
  - unfold valid_gas, Toy.nh3_negative. simpl. lra.
  - das_run. rewrite np_exp_overflow; [reflexivity|]. unfold kb. lra.
  - das_run. reflexivity.
  - intros (v & Hv & _). discriminate.
Qed.

(** The claim of C1 also fails on the valid side.  The trial gas with the
    raw coefficient 1 has an absorbance of about 1.5e13: [np.exp] returns
    [0.0], which is not in (0, 1] and whose logarithm is not the
    absorbance. *)
Example calDas_transmission_underflows :
  valid_gas Toy.nh3 /\ 0 <= c Toy.nh3 /\
  exists a,
    fst (calDas (hapi := Toy.hapi 0 1) [Toy.nh3] [1100] "Voigt"
           "Absorbance" 1e-30 true false ["NH3"])
    = Return (inr [mkResult Toy.nh3 [1100 + 0] [Finite a]]) /\
    1075 <= a /\
    fst (calDas (hapi := Toy.hapi 0 1) [Toy.nh3] [1100] "Voigt"
           "Transmission" 1e-30 true false ["NH3"])
    = Return (inr [mkResult Toy.nh3 [1100 + 0] [Finite 0]]).
Proof.
  split; [unfold valid_gas, Toy.nh3; simpl; lra|].
  split; [unfold Toy.nh3; simpl; lra|].
  eexists. split; [|split].
  - das_run. reflexivity.
  - unfold kb. lra.
  - das_run. rewrite np_exp_underflow; [reflexivity|]. unfold kb. lra.
Qed.

Lemma calDas_transmission_law_witness :
  exists rt ra s',
    calDas (hapi := Toy.hapi 0 1e-13) [Toy.nh3] [1100; 1101] "Voigt"
      "Transmission" 1e-30 true false ["NH3"] = (Return (inr rt), s') /\
    calDas (hapi := Toy.hapi 0 1e-13) [Toy.nh3] [1100; 1101] "Voigt"
      "Absorbance" 1e-30 true false ["NH3"] = (Return (inr ra), s') /\
    Forall2 minus_log rt ra.
Proof.
  destruct (calDas (hapi := Toy.hapi 0 1e-13) [Toy.nh3] [1100; 1101] "Voigt"
              "Transmission" 1e-30 true false ["NH3"])
    as [[[msg | rt] | e] s'] eqn:Erun;
    [exfalso; revert Erun; das_run; discriminate | |
     exfalso; revert Erun; das_run; discriminate].
  destruct (calDas_transmission_law (list string) (Toy.hapi 0 1e-13) [Toy.nh3]
              [1100; 1101] "Voigt" 1e-30 true false ["NH3"] rt s' Erun)
    as (ra & rc & HA & _ & _ & Hml & _).
  exists rt, ra, s'. auto.
Defined.

End DasFacts.

(** ** Wavelength modulation *)

Module WmsFacts.

Import Das Wms.
Local Open Scope R_scope.

Lemma py_int_nonneg (x : R) : 0 <= x -> py_int x = Zfloor x /\ (0 <= Zfloor x)%Z.
Proof.
  intros Hx. unfold py_int. destruct (Rle_dec 0 x); [|contradiction].
  split; [reflexivity|]. apply (Zfloor_lub 0). exact Hx.
Qed.

Lemma Return_inj {A : Type} (x y : A) : Return x = Return y -> x = y.
Proof. intros Heq. now injection Heq. Qed.

Lemma linspace_length (a b : R) (num : Z) :
  (0 <= num)%Z ->
  exists h, linspace a b num = Return h /\ List.length h = Z.to_nat num.
Proof.
  intros Hnum. unfold linspace.
  destruct (Z.ltb_spec num 0); [lia|].
  destruct (Z.to_nat num) as [|[|m]].
  - exists []. auto.
  - exists [a]. auto.
  - eexists. split; [reflexivity|].
    rewrite length_app, length_map, length_seq. simpl. lia.
Qed.

Lemma linspace_first (a b : R) (num : Z) (h : list R) :
  linspace a b num = Return h -> (0 < num)%Z -> nth_error h 0 = Some a.
Proof.
  unfold linspace. destruct (Z.ltb_spec num 0); [discriminate|].
  intros Hh Hpos.
  destruct (Z.to_nat num) as [|[|m]] eqn:E; [lia| |].
  - injection Hh as <-. reflexivity.
  - injection Hh as <-. simpl. f_equal. lra.
Qed.

Lemma linspace_last (a b : R) (num : Z) (h : list R) (d : R) :
  linspace a b num = Return h -> (2 <= num)%Z -> last h d = b.
Proof.
  unfold linspace. destruct (Z.ltb_spec num 0); [discriminate|].
  intros Hh Hnum.
  destruct (Z.to_nat num) as [|[|m]] eqn:E; [lia|lia|].
  apply Return_inj in Hh. subst h. apply last_last.
Qed.

Lemma linspace_nth (a b : R) (num : Z) (h : list R) (i : nat) :
  linspace a b num = Return h -> (S i < List.length h)%nat ->
  nth_error h i = Some (INR i * ((b - a) / INR (List.length h - 1)) + a).
Proof.
  unfold linspace. destruct (Z.ltb_spec num 0); [discriminate|].
  intros Hh Hi.
  destruct (Z.to_nat num) as [|[|m]] eqn:E.
  - injection Hh as <-. simpl in Hi. lia.
  - injection Hh as <-. simpl in Hi. lia.
  - apply Return_inj in Hh. subst h.
    rewrite length_app, length_map, length_seq in Hi |- *. simpl in Hi.
    replace (S m + List.length [b] - 1)%nat with (S m) by (simpl; lia).
    rewrite nth_error_app1 by (rewrite length_map, length_seq; lia).
    rewrite nth_error_map, nth_error_seq.
    destruct (Nat.ltb_spec i (S m)); [|lia]. reflexivity.
Qed.

Lemma linspace_between (a b : R) (num : Z) (h : list R) :
  a <= b -> linspace a b num = Return h ->
  Forall (fun x => a <= x <= b) h.
Proof.
  intros Hab. unfold linspace. destruct (Z.ltb_spec num 0); [discriminate|].
  destruct (Z.to_nat num) as [|[|m]] eqn:E; intros Hh;
    apply Return_inj in Hh; subst h.
  - constructor.
  - constructor; [lra | constructor].
  - apply Forall_app. split; [|constructor; [lra | constructor]].
    apply Forall_map. apply Forall_forall. intros i Hi.
    apply in_seq in Hi.
    assert (Hm : 0 < INR (S m)) by (apply lt_0_INR; lia).
    assert (Hi' : 0 <= INR i <= INR (S m)).
    { split; [apply pos_INR | apply le_INR; lia]. }
    assert (Hq : 0 <= (b - a) / INR (S m)).
    { apply Rmult_le_pos; [lra|]. left. now apply Rinv_0_lt_compat. }
    assert (Hs : INR (S m) * ((b - a) / INR (S m)) = b - a) by (field; lra).
    split; nra.
Qed.

(** The three roundings of line 330 for a grid that spans at most [2 ^ 900]
    and a modulation depth of at least [2 ^ -100]: none overflows, and the
    count is the floor of the last one plus one. *)
Lemma hdNu_num_returns (minNu maxNu dNu : R) :
  minNu <= maxNu -> maxNu - minNu <= Binary64.bpow 900 ->
  Binary64.bpow (-100) <= dNu ->
  exists d q r,
    Binary64.round (maxNu - minNu) = Some d /\
    Binary64.round (d / dNu) = Some q /\
    Binary64.round (q * 1024) = Some r /\
    0 <= r /\
    hdNu_num minNu maxNu dNu = Return (py_int r + 1)%Z /\
    py_int r = Zfloor r /\ (0 <= Zfloor r)%Z.
Proof.
  intros Hle Hspan HdNu.
  pose proof (Binary64Facts.bpow_pos (-100)) as Hpos.
  destruct (Binary64Facts.round_le_bpow (maxNu - minNu) 900)
    as (d & Hd & Hd0 & Hd1); [lia | lra |].
  assert (Hq : 0 <= d / dNu <= Binary64.bpow 1000).
  { split.
    - apply Rmult_le_pos; [exact Hd0|]. left. apply Rinv_0_lt_compat. lra.
    - apply Rmult_le_reg_r with dNu; [lra|].
      replace (d / dNu * dNu) with d by (field; lra).
      replace 1000%Z with (900 + 100)%Z by lia.
      rewrite Binary64Facts.bpow_add.
      assert (H1 : 1 <= Binary64.bpow 100 * dNu).
      { replace 1 with (Binary64.bpow 100 * Binary64.bpow (-100)).
        - apply Rmult_le_compat_l; [left; apply Binary64Facts.bpow_pos | exact HdNu].
        - rewrite <- Binary64Facts.bpow_add. reflexivity. }
      pose proof (Binary64Facts.bpow_pos 900). nra. }
  destruct (Binary64Facts.round_le_bpow (d / dNu) 1000)
    as (q & Hq' & Hq0 & Hq1); [lia | exact Hq |].
  assert (H1024 : Binary64.bpow 10 = 1024).
  { unfold Binary64.bpow. simpl. lra. }
  assert (Hr : 0 <= q * 1024 <= Binary64.bpow 1010).
  { replace 1010%Z with (1000 + 10)%Z by lia.
    rewrite Binary64Facts.bpow_add, H1024. split; nra. }
  destruct (Binary64Facts.round_le_bpow (q * 1024) 1010)
    as (r & Hr' & Hr0 & Hr1); [lia | exact Hr |].
  exists d, q, r. unfold hdNu_num. rewrite Hd.
  destruct (Req_dec_T dNu 0) as [E|_]; [exfalso; lra|].
  rewrite Hq', Hr'.
  destruct (py_int_nonneg r Hr0) as [Hint Hfl].
  repeat split; auto.
Qed.

(** C3, amended.  For a grid that spans at most [2 ^ 900] and a modulation
    depth of at least [2 ^ -100] the auxiliary grid of the theoretical
    method has [int(r) + 1] points, where [r] is what binary64 arithmetic
    makes of [(max - min) / dNu * 1024]: the difference, the quotient and
    the product rounded one after the other.  That number is truncated (it
    is not negative, so this is its floor) and not rounded; the grid
    starts at the minimum, ends at the maximum once it has two points, and
    stays between the two. *)
Theorem hdNu_sample_count :
  forall (grid : list R) (dNu minNu maxNu : R),
    np_min grid = Return minNu -> np_max grid = Return maxNu ->
    maxNu - minNu <= Binary64.bpow 900 ->
    Binary64.bpow (-100) <= dNu ->
    exists d q r h,
      Binary64.round (maxNu - minNu) = Some d /\
      Binary64.round (d / dNu) = Some q /\
      Binary64.round (q * 1024) = Some r /\
      hdNu grid dNu = Return h /\
      Z.of_nat (List.length h) = (py_int r + 1)%Z /\
      Z.of_nat (List.length h) = (Zfloor r + 1)%Z /\
      nth_error h 0 = Some minNu /\
      ((2 <= List.length h)%nat -> last h minNu = maxNu) /\
      Forall (fun x => minNu <= x <= maxNu) h.
Proof.
  intros grid dNu minNu maxNu Hlo Hhi Hspan HdNu.
  assert (Hle : minNu <= maxNu) by (eapply DasFacts.np_min_le_max; eassumption).
  destruct (hdNu_num_returns minNu maxNu dNu Hle Hspan HdNu)
    as (d & q & r & Hd & Hq & Hr & Hr0 & Hnum & Hint & Hfl).
  destruct (linspace_length minNu maxNu (py_int r + 1))
    as (h & Hlin & Hlen); [lia|].
  assert (Hh : hdNu grid dNu = Return h).
  { unfold hdNu. rewrite Hhi, Hlo. cbn [py_bind]. rewrite Hnum. exact Hlin. }
  exists d, q, r, h. repeat split; auto.
  - rewrite Hlen. lia.
  - rewrite Hlen. lia.
  - eapply linspace_first; [exact Hlin | lia].
  - intros H2. eapply linspace_last; [exact Hlin | lia].
  - eapply linspace_between; eassumption.
Qed.

(** The count on rationals is the count on the reals they denote. *)
Lemma Zceil_Q2R (y : Q) : Zceil (Q2R y) = Qceiling y.
Proof.
  unfold Zceil, Qceiling. rewrite <- Q2R_opp, Binary64Facts.Zfloor_Q2R.
  reflexivity.
Qed.

Lemma py_int_Q2R (r : Q) :
  py_int (Q2R r) = if Qle_bool 0 r then Qfloor r else Qceiling r.
Proof.
  unfold py_int. rewrite <- RMicromega.Q2R_0, Binary64Facts.Rle_dec_Q2R.
  rewrite Binary64Facts.Zfloor_Q2R, Zceil_Q2R. reflexivity.
Qed.

Lemma Req_dec_Q2R_0 {A : Type} (q : Q) (X Y : A) :
  (if Req_dec_T (Q2R q) 0 then X else Y) = (if Qeq_bool q 0 then X else Y).
Proof.
  destruct (Qeq_bool q 0) eqn:E.
  - apply RMicromega.Qeq_true in E. rewrite RMicromega.Q2R_0 in E.
    destruct (Req_dec_T _ _); [reflexivity | contradiction].
  - apply RMicromega.Qeq_false in E. rewrite RMicromega.Q2R_0 in E.
    destruct (Req_dec_T _ _); [contradiction | reflexivity].
Qed.

Lemma hdNu_num_Q2R (minNu maxNu dNu : Q) :
  hdNu_num (Q2R minNu) (Q2R maxNu) (Q2R dNu) = hdNu_numQ minNu maxNu dNu.
Proof.
  unfold hdNu_num, hdNu_numQ.
  rewrite <- Q2R_minus, Binary64Facts.round_Q2R.
  destruct (Binary64.roundQ (maxNu - minNu)) as [d|]; [|reflexivity].
  cbn [option_map]. rewrite !Req_dec_Q2R_0.
  destruct (Qeq_bool dNu 0) eqn:E; [reflexivity|].
  rewrite <- Q2R_div by (intros H; apply Qeq_bool_iff in H; congruence).
  rewrite Binary64Facts.round_Q2R.
  destruct (Binary64.roundQ (d / dNu)) as [q|]; [|reflexivity].
  cbn [option_map].
  replace 1024 with (Q2R 1024) by (unfold Q2R; simpl; lra).
  rewrite <- Q2R_mult, Binary64Facts.round_Q2R.
  destruct (Binary64.roundQ (q * 1024)) as [r|]; [|reflexivity].
  cbn [option_map]. now rewrite py_int_Q2R.
Qed.

Lemma Q2R_integer (z : Z) : Q2R (inject_Z z) = IZR z.
Proof. apply Binary64Facts.Q2R_inject_Z. Qed.

Lemma three_tenths_Q2R :
  three_tenths = Q2R (5404319552844595 # 18014398509481984).
Proof. reflexivity. Qed.

Lemma tenth_Q2R : tenth = Q2R (3602879701896397 # 36028797018963968).
Proof. reflexivity. Qed.

(** [0.1] and [0.3] are no binary64 numbers; the literals denote the
    numbers nearest to them. *)
Lemma literals_rounded :
  Binary64.round 0.1 = Some tenth /\ Binary64.round 0.3 = Some three_tenths.
Proof.
  split.
  - replace 0.1 with (Q2R (1 # 10)) by (unfold Q2R; simpl; lra).
    rewrite Binary64Facts.round_Q2R, tenth_Q2R.
    destruct (Binary64.roundQ (1 # 10)) as [q|] eqn:E;
      vm_compute in E; [|discriminate].
    injection E as <-. cbn [option_map].
    f_equal; apply Qeq_eqR; vm_compute; reflexivity.
  - replace 0.3 with (Q2R (3 # 10)) by (unfold Q2R; simpl; lra).
    rewrite Binary64Facts.round_Q2R, three_tenths_Q2R.
    destruct (Binary64.roundQ (3 # 10)) as [q|] eqn:E;
      vm_compute in E; [|discriminate].
    injection E as <-. cbn [option_map].
    f_equal; apply Qeq_eqR; vm_compute; reflexivity.
Qed.

Lemma hdNu_of_count (grid : list R) (dNu minNu maxNu : R) (k : Z) :
  np_min grid = Return minNu -> np_max grid = Return maxNu ->
  hdNu_num minNu maxNu dNu = Return k -> (0 <= k)%Z ->
  exists h,
    hdNu grid dNu = Return h /\ linspace minNu maxNu k = Return h /\
    Z.of_nat (List.length h) = k.
Proof.
  intros Hlo Hhi Hk Hpos.
  destruct (linspace_length minNu maxNu k Hpos) as (h & Hlin & Hlen).
  exists h. unfold hdNu. rewrite Hhi, Hlo. cbn [py_bind]. rewrite Hk.
  repeat split; auto. rewrite Hlen. lia.
Qed.

Lemma bpow_100_small : Binary64.bpow (-100) <= / 4.
Proof.
  apply Rle_trans with (Binary64.bpow (-2)).
  - apply Binary64Facts.bpow_le. lia.
  - unfold Binary64.bpow. simpl. lra.
Qed.

Lemma bpow_900_large : 2 <= Binary64.bpow 900.
Proof.
  rewrite <- Binary64Facts.bpow_1. apply Binary64Facts.bpow_le. lia.
Qed.

Lemma hdNu_sample_count_witness :
  1105 - 1103 <= Binary64.bpow 900 /\
  Binary64.bpow (-100) <= three_tenths /\
  exists r h,
    hdNu [1103; 1105] three_tenths = Return h /\
    Z.of_nat (List.length h) = (py_int r + 1)%Z /\
    nth_error h 0 = Some 1103.
Proof.
  assert (Hspan : 1105 - 1103 <= Binary64.bpow 900).
  { pose proof bpow_900_large. lra. }
  assert (HdNu : Binary64.bpow (-100) <= three_tenths).
  { pose proof bpow_100_small. unfold three_tenths. lra. }
  split; [exact Hspan|]. split; [exact HdNu|].
  destruct (hdNu_sample_count [1103; 1105] three_tenths 1103 1105)
    as (d & q & r & h & _ & _ & _ & Hh & Hlen & _ & Hfirst & _).
  - simpl. rewrite Rmin_left by lra. reflexivity.
  - simpl. rewrite Rmax_right by lra. reflexivity.
  - exact Hspan.
  - exact HdNu.
  - exists r, h. auto.
Defined.

(** C3, counterexample.  The grid from 1103 to 1105 with [dNu = 0.3]: the
    quotient times 1024 is 6826.67, the code builds 6827 points, rounding
    would ask for 6828. *)
Lemma hdNu_truncates_not_rounds :
  exists h,
    hdNu [1103; 1105] three_tenths = Return h /\
    Z.of_nat (List.length h) = 6827%Z /\
    (py_round ((1105 - 1103) / three_tenths * 1024) + 1)%Z = 6828%Z.
Proof.
  destruct (hdNu_of_count [1103; 1105] three_tenths 1103 1105 6827)
    as (h & Hh & _ & Hlen).
  - simpl. rewrite Rmin_left by lra. reflexivity.
  - simpl. rewrite Rmax_right by lra. reflexivity.
  - rewrite <- (Q2R_integer 1103), <- (Q2R_integer 1105), three_tenths_Q2R.
    rewrite hdNu_num_Q2R. vm_compute. reflexivity.
  - lia.
  - exists h. split; [exact Hh|]. split; [exact Hlen|].
    unfold py_round, three_tenths.
    destruct (Rle_dec 0 _); [|exfalso; lra].
    rewrite (Zfloor_eq 6827); [reflexivity | lra].
Qed.

(** The rounding of the quotient decides the count.  From 1103 to 1105 with
    [dNu = 0.1] the exact quotient of the binary64 numbers, times 1024, is
    just below 20480, and its rounding is 20480: the code builds 20481
    points, one more than exact arithmetic would.  From 1100 to the
    binary64 number written 1100.3 the rounded difference is below 0.3 and
    the count is 3072.  A zero [dNu] makes [int] raise. *)
Example hdNu_rounded_quotient :
  hdNu_num 1103 1105 tenth = Return 20481%Z /\
  (Zfloor ((1105 - 1103) / tenth * 1024) + 1)%Z = 20480%Z /\
  hdNu_num 1100 (4839170576167731 / 4398046511104) tenth = Return 3072%Z /\
  hdNu_num 1103 1105 0 = Raise OverflowError /\
  hdNu_num 1103 1103 0 = Raise ValueError.
Proof.
  assert (Hx : 4839170576167731 / 4398046511104
               = Q2R (4839170576167731 # 4398046511104)) by reflexivity.
  split; [|split; [|split; [|split]]].
  - rewrite <- (Q2R_integer 1103), <- (Q2R_integer 1105), tenth_Q2R.
    rewrite hdNu_num_Q2R. vm_compute. reflexivity.
  - unfold tenth. rewrite (Zfloor_eq 20479); [reflexivity | lra].
  - rewrite <- (Q2R_integer 1100), Hx, tenth_Q2R.
    rewrite hdNu_num_Q2R. vm_compute. reflexivity.
  - rewrite <- (Q2R_integer 1103), <- (Q2R_integer 1105), <- RMicromega.Q2R_0.
    rewrite hdNu_num_Q2R. vm_compute. reflexivity.
  - rewrite <- (Q2R_integer 1103), <- RMicromega.Q2R_0.
    rewrite hdNu_num_Q2R. vm_compute. reflexivity.
Qed.






End WmsFacts.

(** ** Metrology *)

Module MetricsFacts.

Import Metrics.
Local Open Scope Q_scope.

Lemma slice_to_zero {A : Type} (a : list A) : slice_to a 0 = [].
Proof.
  unfold slice_to, py_slice, norm_index. simpl.
  replace (Z.min 0 (Z.of_nat (List.length a)) - Z.min 0 (Z.of_nat (List.length a)))%Z
    with 0%Z by lia.
  reflexivity.
Qed.

(** C5.  On the signal 3, 1, 4, 10, 5, 2, 6, 8 with an averaging window of
    2, every window of the described height lies inside the signal, the
    peak is at position 3 and the right trough at position 3 + 2; the
    described height averages the samples 5, 2 around it and is 17/4, while
    [peakTroughHeight] averages the samples 1, 4 around position 2, the
    offset of that trough behind the peak, and returns 19/4. *)
Theorem peakTroughHeight_right_window_misplaced :
  in_bounds two_trough_signal 0 8 2 = true /\
  np_argmax (py_slice two_trough_signal 0 8) = Return 3%nat /\
  np_argmin (slice_from (py_slice two_trough_signal 0 8) 3) = Return 2%nat /\
  window (py_slice two_trough_signal 0 8) (3 + 2) 1 = [5; 2] /\
  window (py_slice two_trough_signal 0 8) 2 1 = [1; 4] /\
  (exists q, described_height two_trough_signal 0 8 2 = Return (Fin q) /\
             q == 17 # 4) /\
  (exists q, peakTroughHeight two_trough_signal 0 8 true 2 = Return (Fin q) /\
             q == 19 # 4) /\
  ~ (17 # 4 == 19 # 4).
Proof.
  split; [reflexivity|]. split; [reflexivity|]. split; [reflexivity|].
  split; [reflexivity|]. split; [reflexivity|].
  split; [eexists; split; [vm_compute; reflexivity | reflexivity]|].
  split; [eexists; split; [vm_compute; reflexivity | reflexivity]|].
  discriminate.
Qed.

(** C10.  Some calls on a non-empty window inside the signal fail; whenever
    the maximum of [signal[startIdx:endIdx]] is its first sample, the left
    trough is searched in an empty slice, [np.argmin] raises [ValueError]
    and so does the call; and a call that returns a value had its maximum
    at a later position. *)
Theorem peakTroughHeight_peak_at_start_raises :
  (exists (signal : list Q) (startIdx endIdx : Z),
      (0 <= startIdx < endIdx)%Z /\
      (endIdx <= Z.of_nat (List.length signal))%Z /\
      peakTroughHeight signal startIdx endIdx true 50 = Raise ValueError) /\
  forall (signal : list Q) (startIdx endIdx : Z) (twoSideTrough : bool)
         (avgWindow : Z),
    (np_argmax (py_slice signal startIdx endIdx) = Return 0%nat ->
     np_argmin (slice_to (py_slice signal startIdx endIdx) 0)
       = Raise ValueError /\
     peakTroughHeight signal startIdx endIdx twoSideTrough avgWindow
       = Raise ValueError) /\
    (forall v,
        peakTroughHeight signal startIdx endIdx twoSideTrough avgWindow
          = Return v ->
        exists k, np_argmax (py_slice signal startIdx endIdx) = Return (S k)).
Proof.
  split.
  { exists falling_signal, 0%Z, 3%Z.
    split; [lia|]. split; [simpl; lia|]. reflexivity. }
  intros signal startIdx endIdx twoSideTrough avgWindow. split.
  - intros Hpeak. rewrite slice_to_zero. split; [reflexivity|].
    unfold peakTroughHeight. rewrite Hpeak. simpl.
    now rewrite slice_to_zero.
  - intros v. unfold peakTroughHeight.
    destruct (np_argmax (py_slice signal startIdx endIdx)) as [[|k]|e];
      simpl; [|eauto|discriminate].
    rewrite slice_to_zero. discriminate.
Qed.

Lemma peakTroughHeight_peak_at_start_witness :
  np_argmax (py_slice falling_signal 0 3) = Return 0%nat /\
  peakTroughHeight falling_signal 0 3 true 50 = Raise ValueError.
Proof.
  split; [reflexivity|].
  apply (proj2 peakTroughHeight_peak_at_start_raises falling_signal 0%Z 3%Z
           true 50%Z).
  reflexivity.
Defined.

End MetricsFacts.

(** ** Direct absorption: further properties *)

Module DasExtra.

Import Das DasFacts.
Local Open Scope R_scope.
Local Open Scope string_scope.

Lemma Return_inj_py {A : Type} (x y : A) : Return x = Return y -> x = y.
Proof. intros Heq. now injection Heq. Qed.

Lemma calDas_echo {db : Type} {hapi : Hapi db} (gasList : list GasParams) :
  forall (grid : list R) (profile mode : string) (iCut : R) (xi md : bool)
         (s : db) (rs : list DasResult) (s' : db),
    calDas gasList grid profile mode iCut xi md s = (Return (inr rs), s') ->
    map gasParams rs = gasList.
Proof.
  induction gasList as [|g rest IH];
    intros grid profile mode iCut xi md s rs s' Hrun.
  - injection Hrun as <- _. reflexivity.
  - rewrite calDas_cons in Hrun.
    destruct (calDas_body profile mode iCut xi md g grid s)
      as [[[msg | [grid1 r1]] | e] s1] eqn:Ebody; try discriminate.
    apply calDas_body_inr in Ebody.
    destruct Ebody as (_ & _ & _ & _ & coeff1 & _ & _ & _ & _ & _ & -> & _).
    destruct (calDas rest grid1 profile mode iCut xi md s1)
      as [[[msg | rs'] | e] s2] eqn:Erest; try discriminate.
    simpl in Hrun. injection Hrun as <- _.
    simpl. now rewrite (IH _ _ _ _ _ _ _ _ _ Erest).
Qed.

(** X1.  A call that returns results returns one per gas, in the order of
    the batch, each echoing its gas: there are no partial results. *)
Theorem calDas_results_echo :
  forall (db : Type) (hapi : Hapi db) (gasList : list GasParams)
         (grid : list R) (profile mode : string) (iCut : R) (xi md : bool)
         (s : db) (rs : list DasResult) (s' : db),
    calDas gasList grid profile mode iCut xi md s = (Return (inr rs), s') ->
    map gasParams rs = gasList /\ List.length rs = List.length gasList.
Proof.
  intros db hapi gasList grid profile mode iCut xi md s rs s' Hrun.
  pose proof (calDas_echo gasList _ _ _ _ _ _ _ _ _ Hrun) as Hecho.
  split; [exact Hecho|].
  rewrite <- Hecho. now rewrite length_map.
Qed.

Lemma calDas_results_echo_witness :
  exists rs s',
    calDas (hapi := Toy.hapi 0 1) [Toy.nh3; Toy.nh3_long] [1100; 1101] "Voigt"
      "Absorbance" 1e-30 true false ["NH3"] = (Return (inr rs), s') /\
    map gasParams rs = [Toy.nh3; Toy.nh3_long].
Proof.
  destruct (calDas (hapi := Toy.hapi 0 1) [Toy.nh3; Toy.nh3_long] [1100; 1101]
              "Voigt" "Absorbance" 1e-30 true false ["NH3"])
    as [[[msg | rs] | e] s'] eqn:Erun;
    [exfalso; revert Erun; das_run; discriminate | |
     exfalso; revert Erun; das_run; discriminate].
  exists rs, s'. split; [reflexivity|].
  apply (calDas_results_echo _ _ _ _ _ _ _ _ _ _ _ _ Erun).
Defined.

(** X2.  Empty inputs.  An empty batch returns the empty list whatever the
    grid and the profile are; for a known first gas an empty grid, or an
    empty column of tabulated lines, raises [ValueError] out of [np.min];
    an unknown first gas is reported before the grid is looked at. *)
Theorem calDas_empty_inputs :
  forall (db : Type) (hapi : Hapi db) (g : GasParams) (rest : list GasParams)
         (grid : list R) (profile mode : string) (iCut : R) (xi md : bool)
         (s : db),
    calDas [] grid profile mode iCut xi md s = (Return (inr []), s) /\
    (In (gas g) (tableList s) ->
     calDas (g :: rest) [] profile mode iCut xi md s = (Raise ValueError, s)) /\
    (In (gas g) (tableList s) -> getColumn_nu s (gas g) = [] ->
     calDas (g :: rest) grid profile mode iCut xi md s = (Raise ValueError, s)) /\
    (~ In (gas g) (tableList s) ->
     calDas (g :: rest) [] profile mode iCut xi md s
       = (Return (inl msg_gas), s)).
Proof.
  intros db hapi g rest grid profile mode iCut xi md s.
  split; [reflexivity|]. split; [|split].
  - intros Hin. rewrite calDas_cons. unfold calDas_body.
    apply existsb_eqb_In in Hin. rewrite Hin. reflexivity.
  - intros Hin Hcol. rewrite calDas_cons. unfold calDas_body.
    apply existsb_eqb_In in Hin. rewrite Hin, Hcol. simpl.
    destruct (np_min grid); [|reflexivity].
    destruct (np_max grid); reflexivity.
  - intros Hnot. rewrite calDas_cons.
    now rewrite (calDas_body_unknown profile mode iCut xi md g [] s Hnot).
Qed.

Lemma calDas_empty_inputs_witness :
  In "NH3" ["NH3"] /\
  calDas (hapi := Toy.hapi 0 1) [Toy.nh3] [] "Voigt" "Absorbance" 1e-30 true
    false ["NH3"] = (Raise ValueError, ["NH3"]).
Proof.
  assert (Hin : In (gas Toy.nh3) (tableList (Hapi := Toy.hapi 0 1) ["NH3"])).
  { simpl. auto. }
  split; [exact Hin|].
  apply (proj1 (proj2 (calDas_empty_inputs (list string) (Toy.hapi 0 1)
                         Toy.nh3 [] [] "Voigt" "Absorbance" 1e-30 true false
                         ["NH3"])) Hin).
Defined.

(** X3.  With both conversion flags off the local [n] is never bound: for a
    first gas that is known and in range and a supported profile, the modes
    ['Absorbance'] and ['Transmission'] raise [UnboundLocalError] after the
    adapter has been called, leaving the table ['tmp'] in the store. *)
Theorem calDas_flags_off_unbound :
  forall (db : Type) (hapi : Hapi db) (g : GasParams) (rest : list GasParams)
         (grid : list R) (profile mode : string) (iCut : R) (s : db)
         (minNu maxNu minTab maxTab : R),
    In (gas g) (tableList s) ->
    np_min grid = Return minNu -> np_max grid = Return maxNu ->
    np_min (getColumn_nu s (gas g)) = Return minTab ->
    np_max (getColumn_nu s (gas g)) = Return maxTab ->
    minTab - 1 <= minNu -> maxNu <= maxTab + 1 ->
    supported profile ->
    mode = "Absorbance" \/ mode = "Transmission" ->
    calDas (g :: rest) grid profile mode iCut false false s =
    (Raise UnboundLocalError, select_tmp s (gas g) minNu maxNu iCut).
Proof.
  intros db hapi g rest grid profile mode iCut s minNu maxNu minTab maxTab
         Hin Hlo Hhi Htlo Hthi Hlow Hhigh Hsup Hmode.
  rewrite calDas_cons.
  rewrite (calDas_body_known profile mode iCut false false g grid s
             minNu maxNu minTab maxTab) by assumption.
  destruct (out_of_range minNu maxNu minTab maxTab) eqn:Eoor.
  - apply out_of_range_true in Eoor; [lra|].
    eapply np_min_le_max; eassumption.
  - cbv zeta. simpl.
    destruct (line_shape_supported profile
                (select_tmp s (gas g) minNu maxNu iCut) grid (t g)
                (p g / 1.013e3) iCut Hsup) as (grid' & raw & ->).
    destruct Hmode as [-> | ->]; reflexivity.
Qed.

Lemma calDas_flags_off_unbound_witness :
  supported "Voigt" /\
  calDas (hapi := Toy.hapi 0 1) [Toy.nh3] [1100; 1101] "Voigt" "Absorbance"
    1e-30 false false ["NH3"] = (Raise UnboundLocalError, ["tmp"; "NH3"]).
Proof.
  assert (Hsup : supported "Voigt") by (unfold supported; auto).
  split; [exact Hsup|].
  apply (calDas_flags_off_unbound (list string) (Toy.hapi 0 1) Toy.nh3 []
           [1100; 1101] "Voigt" "Absorbance" 1e-30 ["NH3"] 1100 1101 1000 1200).
  - simpl. auto.
  - np_eval.
  - np_eval.
  - np_eval.
  - np_eval.
  - lra.
  - lra.
  - exact Hsup.
  - auto.
Defined.

(** X4.  The mixing-ratio conversion comes before the profile is looked
    at: with [xi_to_nden] set, a first gas that is known and in range but
    has temperature zero raises [ZeroDivisionError] for every profile name
    and every mode, also for the modes that never use the density. *)
Theorem calDas_zero_temperature :
  forall (db : Type) (hapi : Hapi db) (g : GasParams) (rest : list GasParams)
         (grid : list R) (profile mode : string) (iCut : R) (md : bool)
         (s : db) (minNu maxNu minTab maxTab : R),
    In (gas g) (tableList s) ->
    np_min grid = Return minNu -> np_max grid = Return maxNu ->
    np_min (getColumn_nu s (gas g)) = Return minTab ->
    np_max (getColumn_nu s (gas g)) = Return maxTab ->
    minTab - 1 <= minNu -> maxNu <= maxTab + 1 ->
    t g = 0 ->
    calDas (g :: rest) grid profile mode iCut true md s =
    (Raise ZeroDivisionError, select_tmp s (gas g) minNu maxNu iCut).
Proof.
  intros db hapi g rest grid profile mode iCut md s minNu maxNu minTab maxTab
         Hin Hlo Hhi Htlo Hthi Hlow Hhigh Ht.
  rewrite calDas_cons.
  rewrite (calDas_body_known profile mode iCut true md g grid s
             minNu maxNu minTab maxTab) by assumption.
  destruct (out_of_range minNu maxNu minTab maxTab) eqn:Eoor.
  - apply out_of_range_true in Eoor; [lra|].
    eapply np_min_le_max; eassumption.
  - cbv zeta. unfold number_density, mixRatio2numDen.
    destruct (Req_dec_T (t g) 0); [reflexivity | contradiction].
Qed.

Lemma calDas_zero_temperature_witness :
  t Toy.nh3_frozen = 0 /\
  calDas (hapi := Toy.hapi 0 1) [Toy.nh3_frozen] [1100; 1101] "Gauss"
    "Coefficient" 1e-30 true false ["NH3"]
  = (Raise ZeroDivisionError, ["tmp"; "NH3"]).
Proof.
  split; [reflexivity|].
  apply (calDas_zero_temperature (list string) (Toy.hapi 0 1) Toy.nh3_frozen
           [] [1100; 1101] "Gauss" "Coefficient" 1e-30 false ["NH3"]
           1100 1101 1000 1200).
  - simpl. auto.
  - np_eval.
  - np_eval.
  - np_eval.
  - np_eval.
  - lra.
  - lra.
  - reflexivity.
Defined.

Lemma number_density_mden (g : GasParams) (p_atm : R) :
  t g <> 0 ->
  number_density true true g p_atm = number_density false true g p_atm.
Proof.
  intros Ht. unfold number_density, mixRatio2numDen.
  destruct (Req_dec_T (t g) 0); [contradiction | reflexivity].
Qed.

(** X5.  When both flags are set the molar-density conversion wins: for
    gases of non-zero temperature the call with [xi_to_nden] and
    [mden_to_nden] both set is the call with [mden_to_nden] alone. *)
Theorem calDas_mden_overrides_xi :
  forall (db : Type) (hapi : Hapi db) (gasList : list GasParams)
         (grid : list R) (profile mode : string) (iCut : R) (s : db),
    Forall (fun g => t g <> 0) gasList ->
    calDas gasList grid profile mode iCut true true s =
    calDas gasList grid profile mode iCut false true s.
Proof.
  intros db hapi gasList grid profile mode iCut s Hall. revert grid s.
  induction Hall as [|g rest Hg Hrest IH]; intros grid s; [reflexivity|].
  rewrite !calDas_cons.
  assert (Hbody : calDas_body profile mode iCut true true g grid s =
                  calDas_body profile mode iCut false true g grid s).
  { unfold calDas_body. now rewrite number_density_mden. }
  rewrite Hbody.
  destruct (calDas_body profile mode iCut false true g grid s)
    as [[[msg | [grid1 r1]] | e] s1]; try reflexivity.
  now rewrite IH.
Qed.

Lemma calDas_mden_overrides_xi_witness :
  Forall (fun g => t g <> 0) [Toy.nh3] /\
  calDas (hapi := Toy.hapi 0 1) [Toy.nh3] [1100; 1101] "Voigt" "Absorbance"
    1e-30 true true ["NH3"] =
  calDas (hapi := Toy.hapi 0 1) [Toy.nh3] [1100; 1101] "Voigt" "Absorbance"
    1e-30 false true ["NH3"].
Proof.
  assert (Hall : Forall (fun g => t g <> 0) [Toy.nh3]).
  { repeat constructor. simpl. lra. }
  split; [exact Hall|].
  apply (calDas_mden_overrides_xi (list string) (Toy.hapi 0 1)); exact Hall.
Defined.

(** The number density is a multiple of the concentration, by a factor
    that depends on pressure, temperature and the flags only. *)
Lemma number_density_linear (xi md : bool) (g g' : GasParams) :
  same_but_c_l g g' ->
  match number_density xi md g (p g / 1.013e3),
        number_density xi md g' (p g' / 1.013e3) with
  | Return (Some n), Return (Some n') =>
      exists K, n = K * c g /\ n' = K * c g'
  | Return None, Return None => True
  | Raise e, Raise e' => e = e'
  | _, _ => False
  end.
Proof.
  intros (_ & Hp & Ht). unfold number_density, mixRatio2numDen.
  rewrite <- Hp, <- Ht.
  destruct xi; simpl.
  - destruct (Req_dec_T (t g) 0); simpl; [reflexivity|].
    destruct md.
    + exists (nA * 1e-6). split; ring.
    + exists (p g / 1.013e3 * 1.013e5 / kb / t g * 1e-6). split; reflexivity.
  - destruct md; [|exact I].
    exists (nA * 1e-6). split; ring.
Qed.

Lemma calDas_body_absorbance_scaled {db : Type} {hapi : Hapi db}
    (profile : string) (iCut : R) (xi md : bool) (k : R) (g g' : GasParams)
    (grid : list R) (s : db) :
  column_scaled k g g' ->
  match calDas_body profile "Absorbance" iCut xi md g grid s,
        calDas_body profile "Absorbance" iCut xi md g' grid s with
  | (Return (inr (g1, r1)), s1), (Return (inr (g2, r2)), s2) =>
      g1 = g2 /\ s1 = s2 /\ nu r2 = nu r1 /\
      spectrum r2 = map (np_mul (Finite k)) (spectrum r1)
  | (Return (inl m1), s1), (Return (inl m2), s2) => m1 = m2 /\ s1 = s2
  | (Raise e1, s1), (Raise e2, s2) => e1 = e2 /\ s1 = s2
  | _, _ => False
  end.
Proof.
  intros [Hsame Hcol].
  pose proof (number_density_linear xi md g g' Hsame) as Hn.
  destruct Hsame as (Hgas & Hp & Ht).
  unfold calDas_body. rewrite <- Hgas, <- Hp, <- Ht in *.
  destruct (negb _); [simpl; auto|].
  destruct (np_min grid); [|simpl; auto].
  destruct (np_max grid); [|simpl; auto].
  destruct (np_min _); [|simpl; auto].
  destruct (np_max _); [|simpl; auto].
  destruct (out_of_range _ _ _ _); [simpl; auto|].
  destruct (number_density xi md g _) as [[n|]|e];
    destruct (number_density xi md g' _) as [[n'|]|e']; try contradiction.
  - destruct Hn as (K & -> & ->).
    destruct (line_shape _ _ _ _ _ _) as [[g1 raw]|]; [|simpl; auto].
    simpl. repeat split; auto.
    rewrite map_map. apply map_ext. intros coef. cbn [np_mul]. f_equal.
    replace (coef * (K * c g') * l g') with (coef * K * (c g' * l g'))
      by ring.
    rewrite Hcol. ring.
  - destruct (line_shape _ _ _ _ _ _) as [[g1 raw]|]; simpl; auto.
  - subst e'. simpl. auto.
Qed.

(** X6.  Absorbance depends on concentration and path length through their
    product only, and is proportional to it: when the gases of two batches
    agree in name, pressure and temperature and the column of each gas of
    the second batch is [k] times that of the first, the second call fails
    exactly as the first or returns the same grids with every spectrum
    multiplied by [k]. *)
Theorem calDas_absorbance_column :
  forall (db : Type) (hapi : Hapi db) (k : R)
         (gasList gasList' : list GasParams) (grid : list R)
         (profile : string) (iCut : R) (xi md : bool) (s : db),
    Forall2 (column_scaled k) gasList gasList' ->
    curves (calDas gasList' grid profile "Absorbance" iCut xi md s) =
    scale_spectra k
      (curves (calDas gasList grid profile "Absorbance" iCut xi md s)).
Proof.
  intros db hapi k gasList gasList' grid profile iCut xi md s Hcols.
  revert grid s.
  induction Hcols as [|g g' rest rest' Hg Hrest IH]; intros grid s.
  - reflexivity.
  - rewrite !calDas_cons.
    pose proof (calDas_body_absorbance_scaled profile iCut xi md k g g' grid s
                  Hg) as Hstep.
    destruct (calDas_body profile "Absorbance" iCut xi md g grid s)
      as [[[m1 | [g1 r1]] | e1] s1];
      destruct (calDas_body profile "Absorbance" iCut xi md g' grid s)
      as [[[m2 | [g2 r2]] | e2] s2]; try contradiction.
    + destruct Hstep as [-> ->]. reflexivity.
    + destruct Hstep as (-> & -> & Hnu & Hsp).
      specialize (IH g2 s2).
      destruct (calDas rest g2 profile "Absorbance" iCut xi md s2)
        as [[[ma | ra] | ea] sa];
        destruct (calDas rest' g2 profile "Absorbance" iCut xi md s2)
        as [[[mb | rb] | eb] sb]; simpl in IH |- *; try discriminate;
        try exact IH.
      injection IH as Hrs Hs. rewrite Hnu, Hsp, Hrs, Hs. reflexivity.
    + destruct Hstep as [-> ->]. reflexivity.
Qed.

Lemma calDas_absorbance_column_witness :
  Forall2 (column_scaled 10) [Toy.nh3] [Toy.nh3_tenfold] /\
  curves (calDas (hapi := Toy.hapi 0 1) [Toy.nh3_tenfold] [1100; 1101]
            "Voigt" "Absorbance" 1e-30 true false ["NH3"]) =
  scale_spectra 10
    (curves (calDas (hapi := Toy.hapi 0 1) [Toy.nh3] [1100; 1101] "Voigt"
               "Absorbance" 1e-30 true false ["NH3"])).
Proof.
  assert (Hcols : Forall2 (column_scaled 10) [Toy.nh3] [Toy.nh3_tenfold]).
  { repeat constructor. simpl. lra. }
  split; [exact Hcols|].
  apply (calDas_absorbance_column (list string) (Toy.hapi 0 1)); exact Hcols.
Defined.

Lemma Rgas_pos : 0 < Rgas.
Proof. unfold Rgas. lra. Qed.

(** X7.  The two converters fail together, exactly at temperature zero, and
    otherwise the number density per cm3 is the molar density per m3 times
    [R / kb * 1e-6].  That factor is below [nA * 1e-6], the factor [calDas]
    uses for a molar density: for a positive mixing ratio, pressure and
    temperature, sending the molar density of [mixRatio2molDen] through
    the molar branch gives more than [mixRatio2numDen]. *)
Theorem converters_agree_up_to_constants :
  forall (conc p_atm T : R),
    (mixRatio2numDen conc p_atm T = Raise ZeroDivisionError <-> T = 0) /\
    (mixRatio2molDen conc p_atm T = Raise ZeroDivisionError <-> T = 0) /\
    (T <> 0 ->
     exists n m,
       mixRatio2numDen conc p_atm T = Return n /\
       mixRatio2molDen conc p_atm T = Return m /\
       n = Rgas / kb * 1e-6 * m /\
       (0 < conc -> 0 < p_atm -> 0 < T -> n < nA * m * 1e-6)).
Proof.
  intros conc p_atm T. unfold mixRatio2numDen, mixRatio2molDen.
  pose proof kb_pos as Hkb. pose proof Rgas_pos as HR.
  destruct (Req_dec_T T 0) as [E | E].
  - split; [tauto|]. split; [tauto|]. intros Hne. contradiction.
  - split; [split; [discriminate | contradiction]|].
    split; [split; [discriminate | contradiction]|].
    intros _. do 2 eexists. split; [reflexivity|]. split; [reflexivity|].
    split.
    + field. repeat split; lra.
    + intros Hc Hp HT.
      assert (Hq : 0 < p_atm * 1.013e5 * conc / T).
      { apply Rdiv_lt_0_compat; [|exact HT].
        apply Rmult_lt_0_compat; [|exact Hc].
        apply Rmult_lt_0_compat; lra. }
      assert (Hk : / Rgas < nA * / kb * 1).
      { unfold Rgas, nA, kb. lra. }
      replace (p_atm * 1.013e5 / kb / T * 1e-6 * conc)
        with (p_atm * 1.013e5 * conc / T * 1e-6 * / kb) by (field; lra).
      replace (nA * (p_atm * 1.013e5 / Rgas / T * conc) * 1e-6)
        with (p_atm * 1.013e5 * conc / T * 1e-6 * (nA * / Rgas))
        by (field; lra).
      apply Rmult_lt_compat_l; [lra|].
      unfold Rgas, nA, kb. lra.
Qed.

Lemma converters_agree_witness :
  293.15 <> 0 /\
  exists n m,
    mixRatio2numDen 300e-9 1 293.15 = Return n /\
    mixRatio2molDen 300e-9 1 293.15 = Return m /\
    n = Rgas / kb * 1e-6 * m.
Proof.
  assert (Hne : 293.15 <> 0) by lra.
  split; [exact Hne|].
  destruct (proj2 (proj2 (converters_agree_up_to_constants 300e-9 1 293.15))
              Hne) as (n & m & Hn & Hm & Hrel & _).
  exists n, m. auto.
Defined.

Lemma calDas_body_messages {db : Type} {hapi : Hapi db}
    (profile mode : string) (iCut : R) (xi md : bool) (g : GasParams)
    (grid : list R) (s : db) (msg : string) (s' : db) :
  calDas_body profile mode iCut xi md g grid s = (Return (inl msg), s') ->
  msg = msg_gas \/ msg = msg_range.
Proof.
  unfold calDas_body.
  destruct (negb _); [intros Heq; injection Heq as <- _; auto|].
  destruct (np_min grid); [|discriminate].
  destruct (np_max grid); [|discriminate].
  destruct (np_min _); [|discriminate].
  destruct (np_max _); [|discriminate].
  destruct (out_of_range _ _ _ _); [intros Heq; injection Heq as <- _; auto|].
  destruct (number_density _ _ _ _); [|discriminate].
  destruct (line_shape _ _ _ _ _ _) as [[g1 raw]|]; [|discriminate].
  destruct (apply_mode _ _ _ _); discriminate.
Qed.

Lemma calDas_messages {db : Type} {hapi : Hapi db}
    (gasList : list GasParams) :
  forall (grid : list R) (profile mode : string) (iCut : R) (xi md : bool)
         (s : db) (msg : string) (s' : db),
    calDas gasList grid profile mode iCut xi md s = (Return (inl msg), s') ->
    msg = msg_gas \/ msg = msg_range.
Proof.
  induction gasList as [|g rest IH];
    intros grid profile mode iCut xi md s msg s' Hrun; [discriminate|].
  rewrite calDas_cons in Hrun.
  destruct (calDas_body profile mode iCut xi md g grid s)
    as [[[m | [grid1 r1]] | e] s1] eqn:Ebody; try discriminate.
  - injection Hrun as <- _. eapply calDas_body_messages; eassumption.
  - destruct (calDas rest grid1 profile mode iCut xi md s1)
      as [[[m | rs] | e] s2] eqn:Erest; try discriminate.
    simpl in Hrun. injection Hrun as <- _. eapply IH; eassumption.
Qed.

(** X11.  The only strings a call returns are the two messages of its
    checks, and the only exceptions it raises are [ValueError],
    [ZeroDivisionError], [UnboundLocalError] and
    [Exception('No suitable profile.')]. *)
Theorem calDas_failures :
  forall (db : Type) (hapi : Hapi db) (gasList : list GasParams)
         (grid : list R) (profile mode : string) (iCut : R) (xi md : bool)
         (s : db),
    match fst (calDas gasList grid profile mode iCut xi md s) with
    | Return (inl msg) => msg = msg_gas \/ msg = msg_range
    | Return (inr _) => True
    | Raise e =>
        e = ValueError \/ e = ZeroDivisionError \/ e = UnboundLocalError \/
        e = Exception "No suitable profile."
    end.
Proof.
  intros db hapi gasList.
  induction gasList as [|g rest IH]; intros grid profile mode iCut xi md s.
  - exact I.
  - rewrite calDas_cons.
    destruct (calDas_body profile mode iCut xi md g grid s)
      as [[[msg | [grid1 r1]] | e] s1] eqn:Ebody.
    + simpl. eapply calDas_body_messages; eassumption.
    + specialize (IH grid1 profile mode iCut xi md s1).
      destruct (calDas rest grid1 profile mode iCut xi md s1)
        as [[[msg | rs] | e] s2]; simpl in IH |- *; auto.
    + simpl. revert Ebody. unfold calDas_body.
      destruct (negb _); [discriminate|].
      destruct (np_min grid);
        [|intros Heq; injection Heq as <- _; auto].
      destruct (np_max grid);
        [|intros Heq; injection Heq as <- _; auto].
      destruct (np_min _);
        [|intros Heq; injection Heq as <- _; auto].
      destruct (np_max _);
        [|intros Heq; injection Heq as <- _; auto].
      destruct (out_of_range _ _ _ _); [discriminate|].
      destruct (number_density xi md g _) as [n|e'] eqn:En.
      * destruct (line_shape _ _ _ _ _ _) as [[g1 raw]|e'] eqn:Els.
        -- destruct (apply_mode mode n (l g) raw) as [cf|e'] eqn:Eam;
             [discriminate|].
           intros Heq; injection Heq as <- _.
           revert Eam. unfold apply_mode, read_n.
           destruct (mode =? "Absorbance");
             [destruct n; [discriminate|];
              intros Heq; injection Heq as <-; auto|].
           destruct (mode =? "Transmission"); [|discriminate].
           destruct n; [discriminate|].
           intros Heq; injection Heq as <-; auto.
        -- intros Heq; injection Heq as <- _.
           revert Els. unfold line_shape.
           destruct (profile =? "Voigt"); [discriminate|].
           destruct (profile =? "HT"); [discriminate|].
           destruct (profile =? "Doppler"); [discriminate|].
           destruct (profile =? "Lorentz"); [discriminate|].
           intros Heq; injection Heq as <-; auto.
      * intros Heq; injection Heq as <- _.
        revert En. unfold number_density, mixRatio2numDen.
        destruct xi; simpl.
        -- destruct (Req_dec_T (t g) 0); simpl;
             [intros Heq; injection Heq as <-; auto|].
           destruct md; discriminate.
        -- destruct md; discriminate.
Qed.

Lemma np_min_In (a : list R) (m : R) : np_min a = Return m -> In m a.
Proof.
  destruct a as [|x xs]; simpl; [discriminate|].
  intros Heq. apply Return_inj_py in Heq. subst m.
  revert x. induction xs as [|y ys IH]; intros x; simpl; [now left|].
  destruct (IH (Rmin x y)) as [Hin | Hin].
  - unfold Rmin in Hin at 1. destruct (Rle_dec x y); [now left|].
    right. now left.
  - right. now right.
Qed.

Lemma np_max_In (a : list R) (m : R) : np_max a = Return m -> In m a.
Proof.
  destruct a as [|x xs]; simpl; [discriminate|].
  intros Heq. apply Return_inj_py in Heq. subst m.
  revert x. induction xs as [|y ys IH]; intros x; simpl; [now left|].
  destruct (IH (Rmax x y)) as [Hin | Hin].
  - unfold Rmax in Hin at 1. destruct (Rle_dec x y); [|now left].
    right. now left.
  - right. now right.
Qed.

(** A single known gas on a non-empty grid inside the widened range, with
    a supported profile, a non-zero temperature and a bound density, is
    computed. *)
Lemma calDas_single_runs {db : Type} {hapi : Hapi db} (g : GasParams)
    (grid : list R) (profile mode : string) (iCut : R) (xi md : bool)
    (s : db) (minTab maxTab : R) :
  In (gas g) (tableList s) ->
  grid <> [] ->
  np_min (getColumn_nu s (gas g)) = Return minTab ->
  np_max (getColumn_nu s (gas g)) = Return maxTab ->
  Forall (fun x => minTab - 1 <= x <= maxTab + 1) grid ->
  supported profile -> t g <> 0 -> xi = true \/ md = true ->
  exists r s',
    calDas [g] grid profile mode iCut xi md s = (Return (inr [r]), s').
Proof.
  intros Hin Hne Htlo Hthi Hall Hsup Ht Hflag.
  destruct grid as [|x xs]; [contradiction|].
  destruct (np_min (x :: xs)) as [minNu|] eqn:Hlo; [|discriminate].
  destruct (np_max (x :: xs)) as [maxNu|] eqn:Hhi; [|discriminate].
  pose proof (proj1 (Forall_forall _ _) Hall _ (np_min_In _ _ Hlo)) as Hmin.
  pose proof (proj1 (Forall_forall _ _) Hall _ (np_max_In _ _ Hhi)) as Hmax.
  rewrite calDas_cons.
  rewrite (calDas_body_known profile mode iCut xi md g (x :: xs) s
             minNu maxNu minTab maxTab) by assumption.
  assert (E : out_of_range minNu maxNu minTab maxTab = false).
  { destruct (out_of_range minNu maxNu minTab maxTab) eqn:E';
      [|reflexivity].
    apply out_of_range_true in E'; [lra|].
    eapply np_min_le_max; eassumption. }
  rewrite E. cbv zeta.
  destruct (number_density_bound xi md g (p g / 1.013e3) Hflag Ht) as [v ->].
  destruct (line_shape_supported profile
              (select_tmp s (gas g) minNu maxNu iCut) (x :: xs) (t g)
              (p g / 1.013e3) iCut Hsup) as (grid' & raw & ->).
  assert (Ham : exists coeff',
             apply_mode mode (Some v) (l g) raw = Return coeff').
  { unfold apply_mode. destruct (mode =? "Absorbance"); simpl; eauto.
    destruct (mode =? "Transmission"); simpl; eauto. }
  destruct Ham as [coeff' ->]. simpl. eauto.
Qed.

End DasExtra.

(** ** Wavelength modulation: further properties *)

Module WmsExtra.

Import Das Wms DasFacts WmsFacts.
Local Open Scope R_scope.

Lemma broadcast_same_length {A : Type} (f : A -> A -> A) (a b : list A) :
  List.length a = List.length b ->
  broadcast f a b = Return (map (fun xy => f (fst xy) (snd xy)) (combine a b)).
Proof.
  intros Hlen. unfold broadcast.
  now rewrite (proj2 (Nat.eqb_eq _ _) Hlen).
Qed.

Lemma nth_error_zip (f : R -> R -> R) (a b : list R) (i : nat) :
  nth_error (map (fun xy => f (fst xy) (snd xy)) (combine a b)) i =
  match nth_error a i, nth_error b i with
  | Some x, Some y => Some (f x y)
  | _, _ => None
  end.
Proof.
  revert b i. induction a as [|x a IH]; intros b i.
  - destruct i; reflexivity.
  - destruct b as [|y b].
    + destruct i; simpl; [reflexivity|]. now destruct (nth_error a i).
    + destruct i; simpl; [reflexivity | apply IH].
Qed.

Lemma length_zip (f : R -> R -> R) (a b : list R) :
  List.length a = List.length b ->
  List.length (map (fun xy => f (fst xy) (snd xy)) (combine a b))
    = List.length a.
Proof.
  intros Hlen. rewrite length_map, length_combine, <- Hlen. apply Nat.min_id.
Qed.

(** A whole number of samples per ramp: both sample counts agree. *)
Lemma whole_sample_count (N : Z) :
  (0 <= N)%Z -> py_int (IZR N) = N /\ Zceil (IZR N) = N.
Proof.
  intros HN. split.
  - destruct (py_int_nonneg (IZR N)) as [-> _]; [now apply IZR_le|].
    apply ZfloorZ.
  - apply Zceil_eq. lra.
Qed.

Lemma waveforms_whole (ls : LaserSpec) (N : Z) :
  fRamp ls <> 0 -> fS ls / fRamp ls = IZR N -> (0 <= N)%Z ->
  exists stamps lin ramp modc,
    ts ls = Return stamps /\ linspace 0 (aRamp ls) N = Return lin /\
    currRamp ls = Return ramp /\ currMod ls = Return modc /\
    List.length stamps = Z.to_nat N /\ List.length ramp = Z.to_nat N /\
    List.length modc = Z.to_nat N /\
    stamps = map (fun i => INR i / fS ls) (seq 0 (Z.to_nat N)) /\
    ramp = map (fun x => (x - aRamp ls * 0.5) / 1000) lin /\
    modc = map (fun tm => 0.5 * aMod ls * sin (2 * PI * fMod ls * tm) / 1000)
               stamps.
Proof.
  intros HfRamp HnS HN.
  destruct (whole_sample_count N HN) as [Hint Hceil].
  destruct (linspace_length 0 (aRamp ls) N HN) as (lin & Hlin & Hlen).
  unfold ts, currMod, ts, currRamp, nS, arange.
  destruct (Req_dec_T (fRamp ls) 0); [contradiction|].
  simpl. rewrite HnS, Hint, Hceil, Hlin. simpl.
  exists (map (fun i => i / fS ls) (map INR (seq 0 (Z.to_nat N)))), lin.
  do 2 eexists.
  split; [reflexivity|]. split; [reflexivity|]. split; [reflexivity|].
  split; [reflexivity|].
  split; [now rewrite !length_map, length_seq|].
  split; [now rewrite length_map|].
  split; [now rewrite !length_map, length_seq|].
  split; [now rewrite map_map|]. split; reflexivity.
Qed.

(** X8.  The simulated optical power is never negative: every sample is
    the larger of zero and [(currRamp + currMod) * c2p + laserDC]. *)
Theorem intensity_clipped :
  forall (ls : LaserSpec) (power : list R),
    intensity ls = Return power ->
    Forall (fun x => 0 <= x) power /\
    forall ramp modc,
      currRamp ls = Return ramp -> currMod ls = Return modc ->
      List.length ramp = List.length modc ->
      power = map (fun rm => Rmax 0 ((fst rm + snd rm) * c2p ls + laserDC ls))
                  (combine ramp modc).
Proof.
  intros ls power. unfold intensity.
  destruct (currRamp ls) as [ramp|]; [|discriminate].
  destruct (currMod ls) as [modc|]; [|discriminate]. simpl.
  destruct (broadcast Rplus ramp modc) as [curr|] eqn:Ecurr; [|discriminate].
  simpl. intros Hpow. apply Return_inj in Hpow. subst power. split.
  - rewrite map_map. apply Forall_map. apply Forall_forall. intros x _.
    destruct (Rlt_dec _ 0); lra.
  - intros ramp' modc' Hr Hm Hlen.
    apply Return_inj in Hr. apply Return_inj in Hm. subst ramp' modc'.
    rewrite (broadcast_same_length Rplus ramp modc Hlen) in Ecurr.
    apply Return_inj in Ecurr. subst curr.
    rewrite !map_map. apply map_ext. intros [x y]. simpl.
    unfold Rmax.
    destruct (Rlt_dec _ 0); destruct (Rle_dec 0 _); lra.
Qed.

Lemma intensity_clipped_witness :
  exists power,
    intensity bench_laser = Return power /\ Forall (fun x => 0 <= x) power.
Proof.
  destruct (waveforms_whole bench_laser 4) as
    (stamps & lin & ramp & modc & _ & _ & Hr & Hm & _ & Hlr & Hlm & _);
    [simpl; lra | simpl; lra | lia |].
  destruct (intensity bench_laser) as [power|e] eqn:Epow.
  - exists power. split; [reflexivity|].
    apply (intensity_clipped bench_laser power Epow).
  - exfalso. revert Epow. unfold intensity. rewrite Hr, Hm. simpl.
    rewrite broadcast_same_length by congruence. discriminate.
Defined.

(** X9.  With a whole number of samples per ramp the four waveforms have
    that many samples, and at each sample the instantaneous wavenumber
    leaves the ramp by [modDepth * sin (2 PI fMod t)]: the reported
    modulation depth is the size of the wavenumber excursion. *)
Theorem modulation_excursion :
  forall (ls : LaserSpec) (N : Z),
    fRamp ls <> 0 -> fS ls / fRamp ls = IZR N -> (0 <= N)%Z ->
    exists stamps ramp total,
      ts ls = Return stamps /\ nuRamp ls = Return ramp /\
      nuTotal ls = Return total /\
      List.length stamps = Z.to_nat N /\ List.length ramp = Z.to_nat N /\
      List.length total = Z.to_nat N /\
      forall i tm r w,
        nth_error stamps i = Some tm -> nth_error ramp i = Some r ->
        nth_error total i = Some w ->
        w - r = modDepth ls * sin (2 * PI * fMod ls * tm) /\
        Rabs (w - r) <= Rabs (modDepth ls).
Proof.
  intros ls N HfRamp HnS HN.
  destruct (waveforms_whole ls N HfRamp HnS HN)
    as (stamps & lin & ramp & modc & Hts & _ & Hr & Hm & Hls & Hlr & Hlm
        & _ & _ & Hmod).
  unfold nuTotal, nuRamp. rewrite Hr, Hm. simpl.
  rewrite broadcast_same_length by (rewrite !length_map; congruence).
  do 3 eexists. split; [exact Hts|]. split; [reflexivity|].
  split; [reflexivity|]. split; [exact Hls|].
  split; [now rewrite length_map|].
  split; [rewrite length_zip; rewrite !length_map; congruence|].
  intros i tm r w Htm Hri Hw.
  rewrite nth_error_zip, Hri in Hw.
  rewrite Hmod, map_map, nth_error_map, Htm in Hw. simpl in Hw.
  injection Hw as <-.
  assert (Heq : r + 0.5 * aMod ls * sin (2 * PI * fMod ls * tm) / 1000
                    * tMod ls * 200 - r
                = modDepth ls * sin (2 * PI * fMod ls * tm)).
  { unfold modDepth. lra. }
  split; [exact Heq|].
  rewrite Heq, Rabs_mult.
  pose proof (SIN_bound (2 * PI * fMod ls * tm)) as [Hlo Hhi].
  assert (Hsin : Rabs (sin (2 * PI * fMod ls * tm)) <= 1).
  { apply Rabs_le. lra. }
  pose proof (Rabs_pos (modDepth ls)). nra.
Qed.

Lemma modulation_excursion_witness :
  fRamp bench_laser <> 0 /\ fS bench_laser / fRamp bench_laser = IZR 4 /\
  exists total,
    nuTotal bench_laser = Return total /\ List.length total = 4%nat.
Proof.
  assert (H1 : fRamp bench_laser <> 0) by (simpl; lra).
  assert (H2 : fS bench_laser / fRamp bench_laser = IZR 4) by (simpl; lra).
  split; [exact H1|]. split; [exact H2|].
  destruct (modulation_excursion bench_laser 4 H1 H2)
    as (stamps & ramp & total & _ & _ & Htot & _ & _ & Hlen & _); [lia|].
  exists total. split; [exact Htot | exact Hlen].
Defined.

(** X10.  The configuration [calPlot] prepares makes the ramp sweep the
    plotted range: for a non-zero ramp tuning rate and a whole number
    [N >= 2] of samples, the ramp wavenumbers reported by the simulation
    are the [N] evenly spaced points from [nuMin] to [nuMax]. *)
Theorem calPlot_ramp_sweeps_range :
  forall (ls : LaserSpec) (nuMin nuMax : R) (N : Z),
    tRamp ls <> 0 -> fRamp ls <> 0 -> fS ls / fRamp ls = IZR N ->
    (2 <= N)%Z ->
    exists ls' ramp,
      calPlot_laserSpec ls nuMin nuMax = Return ls' /\
      nuRamp ls' = Return ramp /\
      List.length ramp = Z.to_nat N /\
      (forall i,
          (S i < List.length ramp)%nat ->
          nth_error ramp i =
            Some (nuMin + INR i * ((nuMax - nuMin)
                                     / INR (List.length ramp - 1)))) /\
      last ramp 0 = nuMax.
Proof.
  intros ls nuMin nuMax N HtRamp HfRamp HnS HN.
  unfold calPlot_laserSpec.
  destruct (Req_dec_T (tRamp ls) 0); [contradiction|].
  eexists. 
  match goal with
  | |- exists ramp, Return ?x = Return _ /\ _ => set (ls' := x)
  end.
  destruct (waveforms_whole ls' N) as
    (stamps & lin & ramp & modc & _ & Hlin & Hr & _ & _ & Hlr & _ & _
       & Hramp & _); [exact HfRamp | exact HnS | lia |].
  assert (Hll : List.length lin = Z.to_nat N).
  { rewrite <- Hlr, Hramp. now rewrite length_map. }
  unfold nuRamp. rewrite Hr. simpl.
  eexists. split; [reflexivity|]. split; [reflexivity|].
  split; [now rewrite length_map|]. split.
  - intros i Hi. subst ramp. rewrite !length_map in Hi |- *.
    rewrite map_map, nth_error_map.
    rewrite (linspace_nth _ _ _ _ _ Hlin Hi). simpl. f_equal.
    assert (Hd : INR (List.length lin - 1) <> 0).
    { apply not_0_INR. lia. }
    replace 1e3 with 1000 by lra. replace 0.5 with (1 / 2) by lra.
    field. split; assumption.
  - assert (Hlast : last lin 0 = aRamp ls').
    { eapply linspace_last; [exact Hlin | lia]. }
    rewrite Hramp, map_map.
    destruct lin as [|x xs] using rev_ind; [simpl in Hll; lia|].
    rewrite last_last in Hlast. rewrite map_app. simpl. rewrite last_last.
    rewrite Hlast. simpl.
    replace 1e3 with 1000 by lra. replace 0.5 with (1 / 2) by lra.
    field. assumption.
Qed.

Lemma calPlot_ramp_sweeps_range_witness :
  tRamp bench_laser <> 0 /\
  exists ls' ramp,
    calPlot_laserSpec bench_laser 1103 1105 = Return ls' /\
    nuRamp ls' = Return ramp /\ last ramp 0 = 1105.
Proof.
  assert (H1 : tRamp bench_laser <> 0) by (simpl; lra).
  split; [exact H1|].
  destruct (calPlot_ramp_sweeps_range bench_laser 1103 1105 4 H1)
    as (ls' & ramp & Hls & Hr & _ & _ & Hlast);
    [simpl; lra | simpl; lra | lia |].
  exists ls', ramp. auto.
Defined.

Lemma py_map_Forall2 {A B : Type} (f : A -> py B) (xs : list A) (ys : list B) :
  py_map f xs = Return ys -> Forall2 (fun x y => f x = Return y) xs ys.
Proof.
  revert ys. induction xs as [|x rest IH]; intros ys; simpl.
  - intros Heq. apply Return_inj in Heq. subst ys. constructor.
  - destruct (f x) as [y|] eqn:Ey; simpl; [|discriminate].
    destruct (py_map f rest) as [ys'|]; simpl; [|discriminate].
    intros Heq. apply Return_inj in Heq. subst ys.
    constructor; [exact Ey | now apply IH].
Qed.

Lemma py_map_total {A B : Type} (f : A -> py B) (xs : list A) :
  (forall x, In x xs -> exists y, f x = Return y) ->
  exists ys, py_map f xs = Return ys.
Proof.
  induction xs as [|x rest IH]; intros Hall; simpl.
  - now exists [].
  - destruct (Hall x) as [y ->]; [now left|]. simpl.
    destruct IH as [ys ->]; [intros z Hz; apply Hall; now right|].
    simpl. eauto.
Qed.

Lemma Forall2_length_eq {A B : Type} (P : A -> B -> Prop) (xs : list A)
    (ys : list B) :
  Forall2 P xs ys -> List.length xs = List.length ys.
Proof. induction 1; simpl; congruence. Qed.

Section Shapes.

Context {db : Type} {hapi : Hapi db} {scipy : SciPy}.

Lemma theoretical_result_shape (grid : list R) (nf : Z) (dNu : R)
    (hd : list R) (r : DasResult) (w : WmsResult) :
  theoretical_result grid nf dNu hd r = Return w ->
  wms_gasParams w = gasParams r /\ wms_nu w = grid /\ wms_nf w = nf /\
  wms_modDepth w = dNu /\
  List.length (wms_spectrum w) = List.length grid.
Proof.
  unfold theoretical_result.
  destruct (py_map _ grid) as [Hnf|] eqn:Emap; simpl; [|discriminate].
  intros Heq. apply Return_inj in Heq. subst w. simpl.
  repeat split. symmetry.
  eapply Forall2_length_eq. apply py_map_Forall2. exact Emap.
Qed.

Lemma simulated_result_shape (grid : list R) (nf : Z) (ls : LaserSpec)
    (stamps ramp total power : list R) (ba : filter_ba) (r : DasResult)
    (w : WmsResult) :
  simulated_result grid nf ls stamps ramp total power ba r = Return w ->
  wms_gasParams w = gasParams r /\ wms_nu w = ramp /\ wms_nf w = nf /\
  wms_modDepth w = modDepth ls.
Proof.
  unfold simulated_result.
  destruct (interp _ _ _) as [modCoeff|]; simpl; [|discriminate].
  destruct (broadcast Rmult power modCoeff) as [S|]; simpl; [|discriminate].
  destruct (lock_in ba S _) as [y|]; simpl; [|discriminate].
  destruct (lock_in ba S _) as [x|]; simpl; [|discriminate].
  intros Heq. apply Return_inj in Heq. subst w. simpl. auto.
Qed.

Lemma results_shape (f : DasResult -> py WmsResult) (P : WmsResult -> Prop)
    (rs : list DasResult) (ws : list WmsResult) :
  (forall r w, f r = Return w -> wms_gasParams w = gasParams r /\ P w) ->
  py_map f rs = Return ws ->
  map wms_gasParams ws = map gasParams rs /\ Forall P ws.
Proof.
  intros Hf Hmap. apply py_map_Forall2 in Hmap.
  induction Hmap as [|r w rs' ws' Hrw _ IH]; simpl.
  - split; constructor.
  - destruct (Hf r w Hrw) as [Hg HP]. destruct IH as [IHg IHP].
    split; [congruence | now constructor].
Qed.

End Shapes.

(** X12.  A call of the theoretical method that returns results returns one
    per gas, in order, each on the grid of the caller with a harmonic per
    grid point, the requested [nf] and [modDepth = dNu].  The method reads
    neither the laser configuration nor the two conversion flags: its
    [calDas] call always converts a mixing ratio. *)
Theorem calWms_theoretical_shape :
  forall (db : Type) (hapi : Hapi db) (scipy : SciPy)
         (gasList : list GasParams) (grid : list R) (profile : string)
         (nf : Z) (ls : LaserSpec) (dNu iCut : R) (diag xi md : bool) (s : db)
         (ws : list WmsResult) (s' : db),
    calWms gasList grid profile nf "Theoretical" ls dNu iCut diag xi md s
      = (Return (inr ws), s') ->
    map wms_gasParams ws = gasList /\
    Forall (fun w => wms_nu w = grid /\ wms_nf w = nf /\
                     wms_modDepth w = dNu /\
                     List.length (wms_spectrum w) = List.length grid) ws /\
    forall ls' diag' xi' md',
      calWms gasList grid profile nf "Theoretical" ls' dNu iCut diag' xi' md' s
        = (Return (inr ws), s').
Proof.
  intros db hapi scipy gasList grid profile nf ls dNu iCut diag xi md s ws s'
         Hrun.
  assert (Hflags : forall ls' diag' xi' md',
             calWms gasList grid profile nf "Theoretical" ls' dNu iCut diag'
               xi' md' s = (Return (inr ws), s')).
  { intros. exact Hrun. }
  split; [|split; [|exact Hflags]];
    revert Hrun; unfold calWms;
    (destruct (np_max grid) as [maxNu|]; [|discriminate]);
    (destruct (np_min grid) as [minNu|]; [|discriminate]);
    rewrite String.eqb_refl;
    (destruct (py_bind (hdNu_num minNu maxNu dNu) (linspace minNu maxNu))
      as [hd|]; [|discriminate]);
    (destruct (calDas gasList hd profile "Transmission" iCut true false s)
      as [[[msg | rs] | e] s1] eqn:Edas; try discriminate);
    (destruct (py_map (theoretical_result grid nf dNu hd) rs)
      as [ws'|] eqn:Emap; simpl; [|discriminate]);
    intros Heq; injection Heq as <- _;
    destruct (results_shape (theoretical_result grid nf dNu hd)
                (fun w => wms_nu w = grid /\ wms_nf w = nf /\
                          wms_modDepth w = dNu /\
                          List.length (wms_spectrum w) = List.length grid)
                rs ws' (theoretical_result_shape grid nf dNu hd) Emap)
      as [Hg HP].
  - rewrite Hg.
    apply (DasExtra.calDas_echo _ _ _ _ _ _ _ _ _ _ Edas).
  - exact HP.
Qed.

(** X13.  A call of the simulation that returns results returns one per
    gas, in order, each on the ramp wavenumbers of line 385 with the
    requested [nf] and the modulation depth of line 416. *)
Theorem calWms_simulation_shape :
  forall (db : Type) (hapi : Hapi db) (scipy : SciPy)
         (gasList : list GasParams) (grid : list R) (profile : string)
         (nf : Z) (ls : LaserSpec) (dNu iCut : R) (diag xi md : bool) (s : db)
         (ws : list WmsResult) (s' : db),
    calWms gasList grid profile nf "Simulation with parameters" ls dNu iCut
      diag xi md s = (Return (inr ws), s') ->
    exists ramp,
      nuRamp ls = Return ramp /\
      map wms_gasParams ws = gasList /\
      Forall (fun w => wms_nu w = ramp /\ wms_nf w = nf /\
                       wms_modDepth w = modDepth ls) ws.
Proof.
  intros db hapi scipy gasList grid profile nf ls dNu iCut diag xi md s ws s'.
  unfold calWms.
  destruct (np_max grid) as [maxNu|]; [|discriminate].
  destruct (np_min grid) as [minNu|]; [|discriminate].
  simpl.
  destruct (synthesize ls) as [[[[[stamps ramp] total] power] ba]|] eqn:Esyn;
    [|discriminate].
  destruct (calDas gasList grid profile "Transmission" iCut xi md s)
    as [[[msg | rs] | e] s1] eqn:Edas; try discriminate.
  destruct (py_map (simulated_result grid nf ls stamps ramp total power ba) rs)
    as [ws'|] eqn:Emap; simpl; [|discriminate].
  intros Heq. injection Heq as <- _.
  destruct (results_shape
              (simulated_result grid nf ls stamps ramp total power ba)
              (fun w => wms_nu w = ramp /\ wms_nf w = nf /\
                        wms_modDepth w = modDepth ls)
              rs ws'
              (simulated_result_shape grid nf ls stamps ramp total power ba)
              Emap) as [Hg HP].
  exists ramp. split; [|split].
  - revert Esyn. unfold synthesize.
    destruct (ts ls); simpl; [|discriminate].
    destruct (nuRamp ls) as [ramp'|]; simpl; [|discriminate].
    destruct (nuTotal ls); simpl; [|discriminate].
    destruct (intensity ls); simpl; [|discriminate].
    destruct (design_filter ls); simpl; [|discriminate].
    intros Heq. apply Return_inj in Heq. congruence.
  - rewrite Hg. apply (DasExtra.calDas_echo _ _ _ _ _ _ _ _ _ _ Edas).
  - exact HP.
Qed.

(** X14.  What [calWms] does without computing a spectrum.  An empty grid
    raises [ValueError] for every method; a method name other than the two
    it knows raises [UnboundLocalError] at the final [return]; in both
    cases [calDas] is not called and the store is untouched.  And the only
    strings it returns are the two messages of [calDas]. *)
Theorem calWms_failures :
  forall (db : Type) (hapi : Hapi db) (scipy : SciPy)
         (gasList : list GasParams) (grid : list R) (profile : string)
         (nf : Z) (method : string) (ls : LaserSpec) (dNu iCut : R)
         (diag xi md : bool) (s : db),
    (grid = [] ->
     calWms gasList grid profile nf method ls dNu iCut diag xi md s
       = (Raise ValueError, s)) /\
    (grid <> [] -> method <> "Theoretical"%string ->
     method <> "Simulation with parameters"%string ->
     calWms gasList grid profile nf method ls dNu iCut diag xi md s
       = (Raise UnboundLocalError, s)) /\
    (forall msg s',
        calWms gasList grid profile nf method ls dNu iCut diag xi md s
          = (Return (inl msg), s') ->
        msg = msg_gas \/ msg = msg_range).
Proof.
  intros db hapi scipy gasList grid profile nf method ls dNu iCut diag xi md s.
  split; [|split].
  - intros ->. reflexivity.
  - intros Hne HT HS. unfold calWms.
    destruct grid as [|x xs]; [contradiction|]. simpl.
    apply String.eqb_neq in HT, HS. now rewrite HT, HS.
  - intros msg s'. unfold calWms.
    destruct (np_max grid) as [maxNu|]; [|discriminate].
    destruct (np_min grid) as [minNu|]; [|discriminate].
    destruct (method =? "Theoretical")%string.
    + destruct (py_bind (hdNu_num minNu maxNu dNu) (linspace minNu maxNu))
        as [hd|]; [|discriminate].
      destruct (calDas gasList hd profile "Transmission" iCut true false s)
        as [[[m | rs] | e] s1] eqn:Edas; try discriminate.
      * intros Heq. injection Heq as <- _.
        eapply DasExtra.calDas_messages; eassumption.
      * destruct (py_map _ rs); discriminate.
    + destruct (method =? "Simulation with parameters")%string;
        [|discriminate].
      destruct (synthesize ls) as [[[[[stamps ramp] total] power] ba]|];
        [|discriminate].
      destruct (calDas gasList grid profile "Transmission" iCut xi md s)
        as [[[m | rs] | e] s1] eqn:Edas; try discriminate.
      * intros Heq. injection Heq as <- _.
        eapply DasExtra.calDas_messages; eassumption.
      * destruct (py_map _ rs); discriminate.
Qed.

(** *** Runs on the small line database and the stand-in numerics *)

Local Open Scope string_scope.

Lemma toy_harmonic_total (nf : Z) (dNu : R) (hd : list R)
    (coeff : list np64) (iNu : R) :
  exists r, harmonic (scipy := Toy.scipy) nf dNu hd coeff iNu = Return r.
Proof.
  unfold harmonic.
  destruct (linspace_length (- PI) PI (2 ^ 10 + 1)) as (u & -> & _); [lia|].
  cbn [py_bind interp Toy.scipy].
  rewrite broadcast_same_length by now rewrite !length_map.
  cbn [py_bind romb Toy.scipy]. eauto.
Qed.

Lemma toy_theoretical_total (grid : list R) (nf : Z) (dNu : R) (hd : list R)
    (r : DasResult) :
  exists w,
    theoretical_result (scipy := Toy.scipy) grid nf dNu hd r = Return w.
Proof.
  unfold theoretical_result.
  destruct (py_map_total (harmonic (scipy := Toy.scipy) nf dNu hd (spectrum r))
              grid) as [Hnf ->].
  - intros x _. apply toy_harmonic_total.
  - simpl. eauto.
Qed.

Lemma toy_theoretical_runs :
  exists ws s',
    calWms (hapi := Toy.hapi 0 1) (scipy := Toy.scipy) [Toy.nh3] [1103; 1105]
      "Voigt" 2 "Theoretical" bench_laser 0.5 1e-30 false true false ["NH3"]
    = (Return (inr ws), s').
Proof.
  unfold calWms.
  replace (np_max [1103; 1105]) with (Return 1105) by (symmetry; np_eval).
  replace (np_min [1103; 1105]) with (Return 1103) by (symmetry; np_eval).
  cbn [String.eqb Ascii.eqb Bool.eqb].
  assert (Hnum : hdNu_num 1103 1105 0.5 = Return 4097%Z).
  { replace 0.5 with (Q2R (1 # 2)) by (unfold Q2R; simpl; lra).
    rewrite <- (Q2R_integer 1103), <- (Q2R_integer 1105), hdNu_num_Q2R.
    vm_compute. reflexivity. }
  rewrite Hnum. cbn [py_bind].
  destruct (linspace_length 1103 1105 4097) as (hd & Hlin & Hlen); [lia|].
  rewrite Hlin.
  destruct (DasExtra.calDas_single_runs (hapi := Toy.hapi 0 1) Toy.nh3 hd
              "Voigt" "Transmission" 1e-30 true false ["NH3"] 1000 1200)
    as (r & s' & ->).
  - simpl. auto.
  - intros ->. simpl in Hlen. lia.
  - np_eval.
  - np_eval.
  - eapply Forall_impl; [|eapply linspace_between; [|exact Hlin]; lra].
    simpl. intros x Hx. lra.
  - unfold supported. auto.
  - unfold Toy.nh3. simpl. lra.
  - auto.
  - cbn [py_map].
    destruct (toy_theoretical_total [1103; 1105] 2 0.5 hd r) as [w Hw].
    rewrite Hw. cbn [py_bind]. eauto.
Qed.

Lemma calWms_theoretical_shape_witness :
  exists ws s',
    calWms (hapi := Toy.hapi 0 1) (scipy := Toy.scipy) [Toy.nh3] [1103; 1105]
      "Voigt" 2 "Theoretical" bench_laser 0.5 1e-30 false true false ["NH3"]
    = (Return (inr ws), s') /\
    map wms_gasParams ws = [Toy.nh3].
Proof.
  destruct toy_theoretical_runs as (ws & s' & Hrun).
  exists ws, s'. split; [exact Hrun|].
  apply (calWms_theoretical_shape _ _ _ _ _ _ _ _ _ _ _ _ _ _ _ _ Hrun).
Defined.

Lemma synthesize_whole {scipy : SciPy} (ls : LaserSpec) (N : Z)
    (ba : filter_ba) :
  fRamp ls <> 0 -> fS ls / fRamp ls = IZR N -> (0 <= N)%Z ->
  fS ls <> 0 -> butter_low4 (fCut ls / fS ls) = Return ba ->
  exists stamps ramp total power,
    synthesize ls = Return (stamps, ramp, total, power, ba) /\
    ts ls = Return stamps /\
    List.length stamps = Z.to_nat N /\ List.length ramp = Z.to_nat N /\
    List.length total = Z.to_nat N /\ List.length power = Z.to_nat N.
Proof.
  intros HfRamp HnS HN HfS Hba.
  destruct (waveforms_whole ls N HfRamp HnS HN)
    as (stamps & lin & ramp & modc & Hts & _ & Hr & Hm & Hls & Hlr & Hlm & _).
  unfold synthesize, nuTotal, intensity, nuRamp, design_filter.
  rewrite Hts, Hr, Hm. cbn [py_bind].
  rewrite !broadcast_same_length by (rewrite ?length_map; congruence).
  cbn [py_bind].
  destruct (Req_dec_T (fS ls) 0); [contradiction|].
  rewrite Hba. cbn [py_bind].
  do 4 eexists. split; [reflexivity|]. split; [reflexivity|].
  split; [exact Hls|]. split; [now rewrite length_map|].
  split.
  - rewrite length_zip; rewrite !length_map; congruence.
  - rewrite !length_map, length_combine, Hlr, Hlm. apply Nat.min_id.
Qed.

Lemma toy_simulated_total (grid : list R) (nf : Z) (ls : LaserSpec)
    (stamps ramp total power : list R) (r : DasResult) :
  List.length power = List.length total ->
  List.length stamps = List.length total ->
  exists w,
    simulated_result (scipy := Toy.scipy) grid nf ls stamps ramp total power
      tt r = Return w.
Proof.
  intros Hp Hs. unfold simulated_result, lock_in.
  cbn [py_bind interp Toy.scipy].
  rewrite broadcast_same_length by (rewrite length_map, length_rev; exact Hp).
  cbn [py_bind].
  rewrite !broadcast_same_length
    by (rewrite length_zip, length_map;
        [congruence | rewrite length_map, length_rev; exact Hp]).
  cbn [py_bind lfilter Toy.scipy]. eauto.
Qed.

Lemma toy_simulation_runs :
  exists ws s',
    calWms (hapi := Toy.hapi 0 1) (scipy := Toy.scipy) [Toy.nh3] [1103; 1105]
      "Voigt" 2 "Simulation with parameters" bench_laser 0.5 1e-30 false true
      false ["NH3"]
    = (Return (inr ws), s').
Proof.
  unfold calWms.
  replace (np_max [1103; 1105]) with (Return 1105) by (symmetry; np_eval).
  replace (np_min [1103; 1105]) with (Return 1103) by (symmetry; np_eval).
  cbn [String.eqb Ascii.eqb Bool.eqb].
  destruct (synthesize_whole (scipy := Toy.scipy) bench_laser 4 tt)
    as (stamps & ramp & total & power & -> & _ & Hls & _ & Hlt & Hlp);
    [simpl; lra | simpl; lra | lia | simpl; lra | reflexivity |].
  destruct (DasExtra.calDas_single_runs (hapi := Toy.hapi 0 1) Toy.nh3
              [1103; 1105] "Voigt" "Transmission" 1e-30 true false ["NH3"]
              1000 1200)
    as (r & s' & ->).
  - simpl. auto.
  - discriminate.
  - np_eval.
  - np_eval.
  - repeat constructor; lra.
  - unfold supported. auto.
  - unfold Toy.nh3. simpl. lra.
  - auto.
  - cbn [py_map].
    destruct (toy_simulated_total [1103; 1105] 2 bench_laser stamps ramp total
                power r) as [w Hw]; [congruence | congruence |].
    rewrite Hw. cbn [py_bind]. eauto.
Qed.

Lemma calWms_simulation_shape_witness :
  exists ws s' ramp,
    calWms (hapi := Toy.hapi 0 1) (scipy := Toy.scipy) [Toy.nh3] [1103; 1105]
      "Voigt" 2 "Simulation with parameters" bench_laser 0.5 1e-30 false true
      false ["NH3"]
    = (Return (inr ws), s') /\
    nuRamp bench_laser = Return ramp /\
    Forall (fun w => wms_nu w = ramp /\ wms_nf w = 2%Z /\
                     wms_modDepth w = modDepth bench_laser) ws.
Proof.
  destruct toy_simulation_runs as (ws & s' & Hrun).
  destruct (calWms_simulation_shape _ _ _ _ _ _ _ _ _ _ _ _ _ _ _ _ Hrun)
    as (ramp & Hramp & _ & Hall).
  exists ws, s', ramp. auto.
Defined.

Lemma calWms_failures_witness :
  [1103; 1105] <> [] /\
  calWms (hapi := Toy.hapi 0 1) (scipy := Toy.scipy) [Toy.nh3] [1103; 1105]
    "Voigt" 2 "Simulation w/ params" bench_laser 0.5 1e-30 false true false
    ["NH3"]
  = (Raise UnboundLocalError, ["NH3"]).
Proof.
  split; [discriminate|].
  apply (calWms_failures (list string) (Toy.hapi 0 1) Toy.scipy [Toy.nh3]
           [1103; 1105] "Voigt" 2 "Simulation w/ params" bench_laser 0.5 1e-30
           false true false ["NH3"]); discriminate.
Defined.

(** X15.  [IIRFilter] is the in-phase channel of the simulation: on a
    signal with one sample per time stamp, called with the sampling
    frequency, modulation frequency, cut-off and phase of the laser
    configuration, it returns what line 409 computes for that signal. *)
Theorem IIRFilter_is_in_phase_channel :
  forall (scipy : SciPy) (ls : LaserSpec) (nf : Z)
         (stamps ramp total power : list R) (ba : filter_ba) (S : list R),
    synthesize ls = Return (stamps, ramp, total, power, ba) ->
    List.length S = List.length stamps ->
    IIRFilter S (fS ls) (fMod ls) nf (fCut ls) (phase ls) =
    lock_in ba S
      (map (fun tm => cos (2 * IZR nf * PI * fMod ls * tm
                           + phase ls / 180 * PI)) stamps).
Proof.
  intros scipy ls nf stamps ramp total power ba S Hsyn Hlen.
  revert Hsyn. unfold synthesize.
  destruct (ts ls) as [stamps'|] eqn:Hts; simpl; [|discriminate].
  destruct (nuRamp ls); simpl; [|discriminate].
  destruct (nuTotal ls); simpl; [|discriminate].
  destruct (intensity ls); simpl; [|discriminate].
  destruct (design_filter ls) as [ba'|] eqn:Hba; simpl; [|discriminate].
  intros Heq. apply Return_inj in Heq.
  injection Heq as -> _ _ _ ->.
  revert Hba. unfold design_filter, IIRFilter.
  destruct (Req_dec_T (fS ls) 0); [discriminate|].
  intros ->. simpl.
  revert Hts. unfold ts, nS.
  destruct (Req_dec_T (fRamp ls) 0); [discriminate|]. simpl.
  intros Heq. apply Return_inj in Heq. subst stamps.
  unfold arange in Hlen |- *.
  rewrite !length_map, length_seq in Hlen. rewrite Hlen.
  f_equal. rewrite !map_map. apply map_ext. intros i. f_equal. lra.
Qed.

Lemma IIRFilter_is_in_phase_channel_witness :
  exists stamps ramp total power,
    synthesize (scipy := Toy.scipy) bench_laser
      = Return (stamps, ramp, total, power, tt) /\
    IIRFilter (scipy := Toy.scipy) [1; 2; 3; 4] (fS bench_laser)
      (fMod bench_laser) 2 (fCut bench_laser) (phase bench_laser) =
    lock_in (scipy := Toy.scipy) tt [1; 2; 3; 4]
      (map (fun tm => cos (2 * IZR 2 * PI * fMod bench_laser * tm
                           + phase bench_laser / 180 * PI)) stamps).
Proof.
  destruct (synthesize_whole (scipy := Toy.scipy) bench_laser 4 tt)
    as (stamps & ramp & total & power & Hsyn & _ & Hls & _);
    [simpl; lra | simpl; lra | lia | simpl; lra | reflexivity |].
  exists stamps, ramp, total, power. split; [exact Hsyn|].
  apply (IIRFilter_is_in_phase_channel Toy.scipy bench_laser 2 stamps ramp
           total power tt [1; 2; 3; 4] Hsyn).
  rewrite Hls. reflexivity.
Defined.

End WmsExtra.

(** ** Metrology: further properties *)

Module MetricsExtra.

Import Metrics MetricsFacts.
Local Open Scope Q_scope.

Lemma fold_left_sumQ (a : list Q) :
  forall acc, fold_left Qplus a acc == acc + sumQ a.
Proof.
  induction a as [|x xs IH]; intros acc; simpl.
  - ring.
  - rewrite IH. unfold sumQ. simpl. ring.
Qed.

Lemma sumQ_shift (c : Q) (a : list Q) :
  sumQ (map (fun x => x + c) a)
  == sumQ a + inject_Z (Z.of_nat (List.length a)) * c.
Proof.
  induction a as [|x xs IH].
  - simpl. ring.
  - change (sumQ (map (fun x => x + c) (x :: xs)))
      with ((x + c) + sumQ (map (fun x => x + c) xs)).
    change (sumQ (x :: xs)) with (x + sumQ xs).
    rewrite IH.
    change (List.length (x :: xs)) with (S (List.length xs)).
    rewrite Nat2Z.inj_succ. unfold Z.succ. rewrite inject_Z_plus. ring.
Qed.

Lemma py_slice_map {A B : Type} (f : A -> B) (a : list A) (start stop : Z) :
  py_slice (map f a) start stop = map f (py_slice a start stop).
Proof.
  unfold py_slice. rewrite length_map.
  now rewrite skipn_map, firstn_map.
Qed.

Lemma Qle_bool_shift (c x y : Q) : Qle_bool (x + c) (y + c) = Qle_bool x y.
Proof.
  apply Bool.eq_true_iff_eq. rewrite !Qle_bool_iff.
  split; intros Hle.
  - apply (Qplus_le_l x y c). exact Hle.
  - apply (Qplus_le_l x y c). exact Hle.
Qed.

Lemma argmax_from_shift (c : Q) (a : list Q) :
  forall best bi i,
    argmax_from (best + c) bi i (map (fun x => x + c) a)
    = argmax_from best bi i a.
Proof.
  induction a as [|x xs IH]; intros best bi i; simpl; [reflexivity|].
  rewrite Qle_bool_shift. destruct (Qle_bool x best); apply IH.
Qed.

Lemma argmin_from_shift (c : Q) (a : list Q) :
  forall best bi i,
    argmin_from (best + c) bi i (map (fun x => x + c) a)
    = argmin_from best bi i a.
Proof.
  induction a as [|x xs IH]; intros best bi i; simpl; [reflexivity|].
  rewrite Qle_bool_shift. destruct (Qle_bool best x); apply IH.
Qed.

Lemma np_argmax_shift (c : Q) (a : list Q) :
  np_argmax (map (fun x => x + c) a) = np_argmax a.
Proof.
  destruct a as [|x xs]; simpl; [reflexivity|].
  now rewrite argmax_from_shift.
Qed.

Lemma np_argmin_shift (c : Q) (a : list Q) :
  np_argmin (map (fun x => x + c) a) = np_argmin a.
Proof.
  destruct a as [|x xs]; simpl; [reflexivity|].
  now rewrite argmin_from_shift.
Qed.

Lemma np_mean_shift (c : Q) (a : list Q) :
  feq (np_mean (map (fun x => x + c) a)) (fadd (np_mean a) (Fin c)).
Proof.
  destruct a as [|x xs]; [exact I|].
  unfold np_mean.
  change (map (fun x0 => x0 + c) (x :: xs))
    with ((x + c) :: map (fun x0 => x0 + c) xs).
  cbv iota. unfold fadd, feq.
  change ((x + c) :: map (fun x0 => x0 + c) xs)
    with (map (fun x0 => x0 + c) (x :: xs)).
  rewrite !fold_left_sumQ, length_map, sumQ_shift.
  set (n := inject_Z (Z.of_nat (List.length (x :: xs)))).
  assert (Hn : ~ n == 0).
  { unfold n. simpl List.length. rewrite Nat2Z.inj_succ.
    unfold Qeq. simpl. lia. }
  field. exact Hn.
Qed.

Lemma height_shift (c : Q) (a a' b b' d d' : npfloat) :
  feq a' (fadd a (Fin c)) -> feq b' (fadd b (Fin c)) ->
  feq d' (fadd d (Fin c)) ->
  feq (fsub a' (fmul (Fin (1 # 2)) (fadd b' d')))
      (fsub a (fmul (Fin (1 # 2)) (fadd b d))).
Proof.
  destruct a, a', b, b', d, d'; simpl; try tauto.
  intros Ha Hb Hd. rewrite Ha, Hb, Hd. ring.
Qed.

(** X18.  The height does not depend on the baseline: adding one constant
    to every sample of the signal leaves the outcome of
    [peakTroughHeight] unchanged, the exception or NaN included. *)
Theorem peakTroughHeight_offset_invariant :
  forall (signal : list Q) (c : Q) (startIdx endIdx : Z)
         (twoSideTrough : bool) (avgWindow : Z),
    py_feq
      (peakTroughHeight (map (fun x => x + c) signal) startIdx endIdx
         twoSideTrough avgWindow)
      (peakTroughHeight signal startIdx endIdx twoSideTrough avgWindow).
Proof.
  intros signal c startIdx endIdx twoSideTrough avgWindow.
  unfold peakTroughHeight, slice_to, slice_from, window.
  rewrite py_slice_map. set (tmp := py_slice signal startIdx endIdx).
  rewrite np_argmax_shift, length_map.
  destruct (np_argmax tmp) as [peak|e]; simpl; [|reflexivity].
  rewrite !py_slice_map, !np_argmin_shift.
  destruct (np_argmin (py_slice tmp 0 (Z.of_nat peak))) as [lT|e]; simpl;
    [|reflexivity].
  destruct (np_argmin (py_slice tmp (Z.of_nat peak) _)) as [rT|e]; simpl;
    [|reflexivity].
  rewrite !py_slice_map.
  apply (height_shift c); apply np_mean_shift.
Qed.

Lemma norm_index_range (n i : Z) :
  (0 <= n)%Z -> (0 <= norm_index n i <= n)%Z.
Proof.
  intros Hn. unfold norm_index. destruct (Z.ltb_spec i 0); lia.
Qed.

Lemma py_slice_length {A : Type} (a : list A) (start stop : Z) :
  List.length (py_slice a start stop) =
  Z.to_nat (norm_index (Z.of_nat (List.length a)) stop
            - norm_index (Z.of_nat (List.length a)) start).
Proof.
  unfold py_slice. rewrite length_firstn, length_skipn.
  pose proof (norm_index_range (Z.of_nat (List.length a)) start) as Hlo.
  pose proof (norm_index_range (Z.of_nat (List.length a)) stop) as Hhi.
  lia.
Qed.

Lemma argmax_from_bound (a : list Q) :
  forall best bi i, (bi < i)%nat ->
    (argmax_from best bi i a < i + List.length a)%nat.
Proof.
  induction a as [|x xs IH]; intros best bi i Hlt; simpl; [lia|].
  destruct (Qle_bool x best).
  - specialize (IH best bi (S i)). lia.
  - specialize (IH x i (S i)). lia.
Qed.

Lemma np_argmax_bound (a : list Q) (k : nat) :
  np_argmax a = Return k -> (k < List.length a)%nat.
Proof.
  destruct a as [|x xs]; simpl; [discriminate|].
  intros Heq. injection Heq as <-.
  pose proof (argmax_from_bound xs x 0%nat 1%nat). lia.
Qed.

Lemma np_argmin_nonempty (a : list Q) :
  (0 < List.length a)%nat -> exists k, np_argmin a = Return k.
Proof.
  destruct a as [|x xs]; simpl; [lia | eauto].
Qed.

(** X19.  A peak close to the start of the window gives NaN: when the
    maximum of [signal[startIdx:endIdx]] sits at a position between 1 and
    [avgWindow / 2 - 1] and the window has at least [2 * (avgWindow / 2)]
    samples, the lower bound of the averaging slice is negative, counts
    from the end, the slice is empty, and the call returns NaN. *)
Theorem peakTroughHeight_early_peak_nan :
  forall (signal : list Q) (startIdx endIdx : Z) (twoSideTrough : bool)
         (avgWindow : Z) (peak : nat),
    np_argmax (py_slice signal startIdx endIdx) = Return peak ->
    (0 < peak)%nat ->
    (Z.of_nat peak < avgWindow / 2)%Z ->
    (2 * (avgWindow / 2)
       <= Z.of_nat (List.length (py_slice signal startIdx endIdx)))%Z ->
    window (py_slice signal startIdx endIdx) (Z.of_nat peak) (avgWindow / 2)
      = [] /\
    peakTroughHeight signal startIdx endIdx twoSideTrough avgWindow
      = Return NaN.
Proof.
  intros signal startIdx endIdx twoSideTrough avgWindow peak Hpeak Hpos Hh Hlen.
  set (tmp := py_slice signal startIdx endIdx) in *.
  pose proof (np_argmax_bound tmp peak Hpeak) as Hbound.
  assert (Hwin : window tmp (Z.of_nat peak) (avgWindow / 2) = []).
  { apply length_zero_iff_nil. unfold window. rewrite py_slice_length.
    unfold norm_index.
    destruct (Z.ltb_spec (Z.of_nat peak - avgWindow / 2) 0); [|lia].
    destruct (Z.ltb_spec (Z.of_nat peak + avgWindow / 2) 0); lia. }
  split; [exact Hwin|].
  unfold peakTroughHeight. fold tmp. rewrite Hpeak. cbn [py_bind].
  destruct (np_argmin_nonempty (slice_to tmp (Z.of_nat peak))) as [lT ->].
  { unfold slice_to. rewrite py_slice_length. unfold norm_index. simpl.
    destruct (Z.ltb_spec (Z.of_nat peak) 0); lia. }
  destruct (np_argmin_nonempty (slice_from tmp (Z.of_nat peak))) as [rT ->].
  { unfold slice_from. rewrite py_slice_length. unfold norm_index.
    destruct (Z.ltb_spec (Z.of_nat peak) 0); [lia|].
    destruct (Z.ltb_spec (Z.of_nat (List.length tmp)) 0); lia. }
  cbn [py_bind]. rewrite Hwin. reflexivity.
Qed.

Lemma peakTroughHeight_early_peak_witness :
  np_argmax (py_slice early_peak_signal 0 60) = Return 10%nat /\
  peakTroughHeight early_peak_signal 0 60 true 50 = Return NaN.
Proof.
  assert (Hpeak : np_argmax (py_slice early_peak_signal 0 60) = Return 10%nat)
    by reflexivity.
  split; [exact Hpeak|].
  apply (peakTroughHeight_early_peak_nan early_peak_signal 0 60 true 50 10
           Hpeak).
  - lia.
  - reflexivity.
  - vm_compute. discriminate.
Defined.

End MetricsExtra.

(** ** Etalons *)

Module EtalonFacts.

Import Etalon.
Local Open Scope R_scope.

Lemma denominator_zero (r : R) : (1 - r) ^ 2 = 0 <-> r = 1.
Proof.
  split.
  - intros Hz. destruct (Req_dec r 1) as [E | E]; [exact E|].
    assert (Hpos : 0 < (1 - r) ^ 2).
    { simpl. rewrite Rmult_1_r.
      destruct (Rtotal_order r 1) as [Hlt | [Heq | Hgt]]; [|contradiction|];
        nra. }
    lra.
  - intros ->. ring.
Qed.

Lemma etalon_coeff_raises (param : EtalonParams) :
  etalon_coeff param = Raise ZeroDivisionError <-> et_R param = 1.
Proof.
  unfold etalon_coeff.
  destruct (Req_dec_T ((1 - et_R param) ^ 2) 0) as [E | E].
  - split; [intros _ | reflexivity]. now apply denominator_zero.
  - split; [discriminate|]. intros HR. exfalso. apply E.
    now apply denominator_zero.
Qed.

Lemma etalon_coeff_cases (param : EtalonParams) :
  (et_R param = 1 /\ etalon_coeff param = Raise ZeroDivisionError) \/
  (et_R param <> 1 /\
   etalon_coeff param =
   Return (mkCoeffs (4 * et_R param / (1 - et_R param) ^ 2)
             (4 * PI * et_n param * et_l param
              * cos (np_degrees (et_theta param))))).
Proof.
  unfold etalon_coeff.
  destruct (Req_dec_T ((1 - et_R param) ^ 2) 0) as [E | E].
  - left. split; [now apply denominator_zero | reflexivity].
  - right. split; [|reflexivity]. intros HR. apply E.
    now apply denominator_zero.
Qed.

(** X16.  [generateEtalons] raises [ZeroDivisionError] exactly when some
    part has reflectance 1; otherwise it returns one pair of coefficients
    per part, in order, with [F = 4 R / (1 - R)^2] and
    [delta_coeff = 4 PI n l cos (theta * 180 / PI)]. *)
Theorem generateEtalons_total_unless_mirror :
  forall params : list EtalonParams,
    (generateEtalons params = Raise ZeroDivisionError <->
     Exists (fun q => et_R q = 1) params) /\
    (Forall (fun q => et_R q <> 1) params ->
     generateEtalons params =
     Return (map (fun q =>
                    mkCoeffs (4 * et_R q / (1 - et_R q) ^ 2)
                      (4 * PI * et_n q * et_l q
                       * cos (et_theta q * (180 / PI)))) params)).
Proof.
  intros params. unfold generateEtalons. split.
  - induction params as [|q rest IH]; simpl.
    + split; [discriminate | intros HE; inversion HE].
    + destruct (etalon_coeff_cases q) as [[HR ->] | [HR ->]]; simpl.
      * split; [intros _; now left | reflexivity].
      * destruct (Wms.py_map etalon_coeff rest) as [ys|e]; simpl.
        -- split; [discriminate|]. intros HE.
           inversion HE as [? ? Hq | ? ? Hrest]; subst; [contradiction|].
           apply IH in Hrest. discriminate.
        -- split.
           ++ intros Heq. right. apply IH. exact Heq.
           ++ intros HE.
              inversion HE as [? ? Hq | ? ? Hrest]; subst; [contradiction|].
              apply IH in Hrest. exact Hrest.
  - intros Hall. induction Hall as [|q rest Hq Hrest IH]; simpl.
    + reflexivity.
    + destruct (etalon_coeff_cases q) as [[HR _] | [_ ->]]; [contradiction|].
      simpl. rewrite IH. reflexivity.
Qed.

Lemma generateEtalons_witness :
  Forall (fun q => et_R q <> 1) [glass] /\
  Exists (fun q => et_R q = 1) [glass; mirror] /\
  generateEtalons [glass; mirror] = Raise ZeroDivisionError /\
  List.length [glass] = 1%nat.
Proof.
  assert (H1 : Forall (fun q => et_R q <> 1) [glass]).
  { repeat constructor. simpl. lra. }
  assert (H2 : Exists (fun q => et_R q = 1) [glass; mirror]).
  { right. left. reflexivity. }
  split; [exact H1|]. split; [exact H2|]. split; [|reflexivity].
  apply (proj2 (proj1 (generateEtalons_total_unless_mirror [glass; mirror]))).
  exact H2.
Defined.

Lemma finesse_increasing (r1 r2 : R) :
  0 <= r1 -> r1 < r2 -> r2 < 1 ->
  4 * r1 / (1 - r1) ^ 2 < 4 * r2 / (1 - r2) ^ 2.
Proof.
  intros H0 H12 H21.
  assert (Hd1 : 0 < (1 - r1) ^ 2) by nra.
  assert (Hd2 : 0 < (1 - r2) ^ 2) by nra.
  assert (Hdd : (1 - r2) ^ 2 < (1 - r1) ^ 2) by nra.
  apply Rlt_le_trans with (4 * r2 / (1 - r1) ^ 2).
  - unfold Rdiv. apply Rmult_lt_compat_r; [now apply Rinv_0_lt_compat | lra].
  - unfold Rdiv. apply Rmult_le_compat_l; [lra|].
    apply Rinv_le_contravar; lra.
Qed.

(** X17.  For reflectances in [0, 1) the coefficient of finesse is not
    negative and grows strictly with the reflectance; the phase coefficient
    never exceeds [4 PI |n l|] in size and equals [4 PI n l] at normal
    incidence. *)
Theorem etalon_coefficients_bounds :
  forall (q1 q2 : EtalonParams) (k1 k2 : EtalonCoeffs),
    etalon_coeff q1 = Return k1 -> etalon_coeff q2 = Return k2 ->
    (0 <= et_R q1 < 1 -> 0 <= F k1) /\
    (0 <= et_R q1 -> et_R q1 < et_R q2 -> et_R q2 < 1 -> F k1 < F k2) /\
    Rabs (delta_coeff k1) <= 4 * PI * Rabs (et_n q1 * et_l q1) /\
    (et_theta q1 = 0 -> delta_coeff k1 = 4 * PI * et_n q1 * et_l q1).
Proof.
  intros q1 q2 k1 k2 H1 H2.
  destruct (etalon_coeff_cases q1) as [[_ E1] | [Hne1 E1]];
    rewrite E1 in H1; [discriminate|].
  destruct (etalon_coeff_cases q2) as [[_ E2] | [Hne2 E2]];
    rewrite E2 in H2; [discriminate|].
  injection H1 as <-. injection H2 as <-. simpl.
  split; [|split; [|split]].
  - intros [H0 Hlt].
    assert (Hd : 0 < (1 - et_R q1) ^ 2) by nra.
    apply Rmult_le_pos; [lra|]. left. now apply Rinv_0_lt_compat.
  - intros H0 H12 H21. now apply finesse_increasing.
  - pose proof PI_RGT_0 as Hpi.
    pose proof (COS_bound (np_degrees (et_theta q1))) as [Hlo Hhi].
    assert (Hcos : Rabs (cos (np_degrees (et_theta q1))) <= 1)
      by (apply Rabs_le; lra).
    replace (4 * PI * et_n q1 * et_l q1 * cos (np_degrees (et_theta q1)))
      with (4 * PI * (et_n q1 * et_l q1) * cos (np_degrees (et_theta q1)))
      by ring.
    rewrite (Rabs_mult _ (cos _)), (Rabs_mult (4 * PI)).
    rewrite (Rabs_right (4 * PI)) by lra.
    pose proof (Rabs_pos (et_n q1 * et_l q1)) as Hnl.
    rewrite <- (Rmult_1_r (4 * PI * Rabs (et_n q1 * et_l q1))) at 2.
    apply Rmult_le_compat_l; [|exact Hcos].
    apply Rmult_le_pos; lra.
  - intros Hth. rewrite Hth. unfold np_degrees.
    rewrite Rmult_0_l, cos_0. ring.
Qed.

Lemma etalon_coefficients_witness :
  exists k,
    etalon_coeff glass = Return k /\ 0 <= F k /\
    delta_coeff k = 4 * PI * 1.45 * 0.1.
Proof.
  destruct (etalon_coeff_cases glass) as [[HR _] | [_ E]];
    [exfalso; revert HR; simpl; lra|].
  eexists. split; [exact E|].
  destruct (etalon_coefficients_bounds glass glass _ _ E E)
    as (Hpos & _ & _ & Hdelta).
  split; [apply Hpos; simpl; lra | apply Hdelta; reflexivity].
Defined.

End EtalonFacts.

(** ** Laser configuration files *)

Module ConfigFacts.

Import Config.
Local Open Scope string_scope.

Lemma getitem_filter (config : dict) (key key' : string) :
  key <> key' ->
  getitem (filter (fun kv => negb (fst kv =? key)) config) key'
  = getitem config key'.
Proof.
  intros Hne. induction config as [|[k v] rest IH]; simpl; [reflexivity|].
  destruct (String.eqb_spec k key) as [-> | Hk]; simpl.
  - destruct (String.eqb_spec key key'); [contradiction | exact IH].
  - destruct (k =? key'); [reflexivity | exact IH].
Qed.

Lemma getitem_setitem (config : dict) (key key' : string) (v : R) :
  getitem (setitem config key v) key'
  = if key =? key' then Some v else getitem config key'.
Proof.
  unfold setitem. simpl.
  destruct (String.eqb_spec key key') as [-> | Hne]; [reflexivity|].
  now apply getitem_filter.
Qed.

Lemma find_append {A : Type} (f : A -> bool) (xs ys : list A) :
  find f (xs ++ ys)%list =
  match find f xs with
  | Some x => Some x
  | None => find f ys
  end.
Proof.
  induction xs as [|x xs IH]; simpl; [reflexivity|].
  destruct (f x); [reflexivity | exact IH].
Qed.

Lemma split_nonempty (line : string) : split line <> [].
Proof.
  destruct line as [|ch rest]; simpl; [discriminate|].
  destruct rest as [|ch' rest'].
  - simpl. discriminate.
  - destruct (Ascii.eqb ch colon && Ascii.eqb ch' space)%bool;
      [discriminate|].
    unfold cons_piece. destruct (split (String ch' rest')); discriminate.
Qed.

Lemma cons_piece_single (ch : Ascii.ascii) (pieces : list string) (s : string) :
  pieces <> [] -> cons_piece ch pieces = [String ch s] -> pieces = [s].
Proof.
  intros Hne. destruct pieces as [|piece others]; [contradiction|].
  simpl. intros Heq. injection Heq as -> ->. reflexivity.
Qed.

(** A key and a value without separator, joined by the separator, split
    into the two. *)
Lemma split_entry (key value : string) :
  split key = [key] -> split value = [value] ->
  split (key ++ ": " ++ value) = [key; value].
Proof.
  intros Hkey Hvalue. induction key as [|ch k IH].
  - simpl. rewrite Hvalue. reflexivity.
  - destruct k as [|ch' k'].
    + change (String ch "" ++ ": " ++ value)
        with (String ch (String colon (String space value))).
      change (split (String ch (String colon (String space value))))
        with (if (Ascii.eqb ch colon && Ascii.eqb colon space)%bool
              then EmptyString :: split (String space value)
              else cons_piece ch (split (String colon (String space value)))).
      replace (Ascii.eqb colon space) with false by reflexivity.
      rewrite Bool.andb_false_r.
      change (split (String colon (String space value)))
        with (EmptyString :: split value).
      rewrite Hvalue. reflexivity.
    + change (split (String ch (String ch' k')))
        with (if (Ascii.eqb ch colon && Ascii.eqb ch' space)%bool
              then EmptyString :: split k'
              else cons_piece ch (split (String ch' k'))) in Hkey.
      change (split (String ch (String ch' k') ++ ": " ++ value))
        with (if (Ascii.eqb ch colon && Ascii.eqb ch' space)%bool
              then EmptyString :: split (k' ++ ": " ++ value)
              else cons_piece ch (split (String ch' k' ++ ": " ++ value))).
      destruct (Ascii.eqb ch colon && Ascii.eqb ch' space)%bool;
        [discriminate|].
      apply cons_piece_single in Hkey; [|apply split_nonempty].
      rewrite (IH Hkey). reflexivity.
Qed.

Lemma drop_last_snoc (text : string) (ch : Ascii.ascii) :
  drop_last (text ++ String ch "") = text.
Proof.
  induction text as [|c rest IH]; [reflexivity|].
  change (drop_last (String c (rest ++ String ch "")) = String c rest).
  destruct rest as [|c' rest']; [reflexivity|].
  change (String c (drop_last (String c' rest' ++ String ch ""))
          = String c (String c' rest')).
  now rewrite IH.
Qed.

Section Facts.

Variable float : string -> py R.

Lemma read_lines_lookup (lines : list string) :
  forall (config0 config : dict) (key : string),
    read_lines float lines config0 = Return config ->
    getitem config key =
    match find (fun line => key_of line =? key) (rev lines) with
    | Some line => entry float line
    | None => getitem config0 key
    end.
Proof.
  induction lines as [|line rest IH]; intros config0 config key; simpl.
  - intros Heq. injection Heq as <-. reflexivity.
  - destruct (split line) as [|k [|value [|]]] eqn:Esplit; try discriminate.
    destruct (float (drop_last value)) as [v|] eqn:Efloat; simpl;
      [|discriminate].
    intros Hrun. rewrite (IH _ _ key Hrun).
    rewrite find_append.
    destruct (find (fun line0 => key_of line0 =? key) (rev rest));
      [reflexivity|].
    cbn [find]. unfold key_of. rewrite Esplit. cbn [hd].
    rewrite getitem_setitem.
    destruct (k =? key); [|reflexivity].
    unfold entry. now rewrite Esplit, Efloat.
Qed.

(** X20.  Every line must hold the separator [': '] exactly once: a line
    that splits into one piece (a blank line, say) or into more than two
    makes the whole read raise [ValueError], as does a value [float]
    refuses, and no dict is returned. *)
Theorem read_config_malformed_line :
  forall lines : list string,
    (forall s e, float s = Raise e -> e = ValueError) ->
    Exists (fun line => List.length (split line) <> 2%nat) lines ->
    read_config float lines = Raise ValueError.
Proof.
  intros lines Hfloat Hbad. unfold read_config. generalize (@nil (string * R)).
  induction Hbad as [line rest Hline | line rest Hrest IH]; intros config;
    simpl.
  - destruct (split line) as [|k [|value [|]]]; try reflexivity.
    simpl in Hline. contradiction.
  - destruct (split line) as [|k [|value [|]]]; try reflexivity.
    destruct (float (drop_last value)) as [v|e] eqn:Efloat; simpl.
    + apply IH.
    + now rewrite (Hfloat _ _ Efloat).
Qed.

(** X21.  When the read returns a dict, each key maps to the value of the
    last line filed under it, read by [float] from the text after the
    separator without its final character; keys of no line are absent. *)
Theorem read_config_lookup :
  forall (lines : list string) (config : dict) (key : string),
    read_config float lines = Return config ->
    getitem config key =
    match find (fun line => key_of line =? key) (rev lines) with
    | Some line => entry float line
    | None => None
    end.
Proof.
  intros lines config key Hrun.
  apply (read_lines_lookup lines [] config key Hrun).
Qed.

(** X22.  The final character of a line is dropped whatever it is: when the
    last line is a key, the separator, a text and one more character (a
    line end, or the last digit of a file that ends without one), the key
    maps to what [float] reads from the text alone. *)
Theorem read_config_drops_last_character :
  forall (front : list string) (key text : string) (ch : Ascii.ascii)
         (config : dict) (v : R),
    split key = [key] ->
    split (text ++ String ch "") = [text ++ String ch ""] ->
    read_config float
      (front ++ [(key ++ ": " ++ text ++ String ch "")%string])%list
      = Return config ->
    float text = Return v ->
    getitem config key = Some v.
Proof.
  intros front key text ch config v Hkey Hvalue Hrun Hv.
  rewrite (read_lines_lookup _ [] config key Hrun).
  rewrite rev_app_distr. cbn [rev List.app find].
  unfold key_of. rewrite (split_entry _ _ Hkey Hvalue). cbn [hd].
  rewrite String.eqb_refl. unfold entry.
  now rewrite (split_entry _ _ Hkey Hvalue), drop_last_snoc, Hv.
Qed.

End Facts.

Lemma float_digits_errors (s : string) (e : exn) :
  float_digits s = Raise e -> e = ValueError.
Proof.
  unfold float_digits. destruct s; [intros Heq; now injection Heq|].
  destruct (digits _ 0); [discriminate | intros Heq; now injection Heq].
Qed.

Lemma read_config_malformed_line_witness :
  Exists (fun line => List.length (split line) <> 2%nat)
    (two_lines ++ [String newline ""])%list /\
  read_config float_digits (two_lines ++ [String newline ""])%list
    = Raise ValueError.
Proof.
  assert (Hbad : Exists (fun line => List.length (split line) <> 2%nat)
                   (two_lines ++ [String newline ""])%list).
  { right. right. left. simpl. discriminate. }
  split; [exact Hbad|].
  apply (read_config_malformed_line float_digits _ float_digits_errors Hbad).
Defined.


Lemma read_config_lookup_witness :
  exists config,
    read_config float_digits two_lines = Return config /\
    getitem config "fS" = Some (INR 1000).
Proof.
  eexists. split; [reflexivity|].
  rewrite (read_config_lookup float_digits two_lines _ "fS" eq_refl).
  reflexivity.
Defined.

Lemma read_config_drops_last_character_witness :
  exists config,
    read_config float_digits two_lines = Return config /\
    getitem config "fMod" = Some (INR 1).
Proof.
  eexists. split; [reflexivity|].
  apply (read_config_drops_last_character float_digits
           ["fS: 1000" ++ String newline ""] "fMod" "1"
           (Ascii.ascii_of_nat 48) _ (INR 1)); reflexivity.
Defined.

End ConfigFacts.

(** ** Plotting *)

Module PlotFacts.

Import Das Plot DasFacts.
Local Open Scope R_scope.
Local Open Scope string_scope.

Lemma length_zipWith {A : Type} (f : A -> A -> A) (a b : list A) (n : nat) :
  List.length a = n -> List.length b = n -> List.length (zipWith f a b) = n.
Proof.
  intros Ha Hb. unfold zipWith.
  rewrite length_map, length_combine, Ha, Hb. apply Nat.min_id.
Qed.

Lemma broadcast_uniform {A : Type} (f : A -> A -> A) (a b : list A) (n : nat) :
  List.length a = n -> List.length b = n ->
  Wms.broadcast f a b = Return (zipWith f a b).
Proof.
  intros Ha Hb. apply WmsExtra.broadcast_same_length. congruence.
Qed.

Lemma ax_plot_uniform (d : list curve) (label : option GasParams)
    (x : list R) (y : list np64) (n : nat) :
  List.length x = n -> List.length y = n ->
  ax_plot d label x y = Return (d ++ [Curve label x y])%list.
Proof.
  intros Hx Hy. unfold ax_plot.
  now rewrite (proj2 (Nat.eqb_eq _ _) (eq_trans Hx (eq_sym Hy))).
Qed.

Lemma last_cons_default {A : Type} (l : list A) :
  forall x d, last (x :: l) d = last l x.
Proof.
  induction l as [|y l IH]; intros x d; [reflexivity|].
  change (last (x :: y :: l) d) with (last (y :: l) d).
  now rewrite !IH.
Qed.

(** The loop in the three modes. *)
Lemma plotDas_loop_absorbance (n : nat) (results : list DasResult) :
  forall st,
    uniform n results -> List.length (sumAbsorp st) = n ->
    plotDas_loop "Absorbance" st results =
    Return (mkPlot (drawn st ++ map gas_curve results)%list
              (last (map nu results) (last_nu st))
              (fold_left (zipWith np_add) (map spectrum results) (sumAbsorp st))
              (sumTrans st)).
Proof.
  induction results as [|r rest IH]; intros st Huni Hlen.
  - simpl. rewrite app_nil_r. now destruct st.
  - apply Forall_cons_iff in Huni. destruct Huni as [[Hnu Hsp] Hrest].
    cbn [plotDas_loop]. unfold plotDas_step.
    cbn [String.eqb Ascii.eqb Bool.eqb].
    rewrite (ax_plot_uniform _ _ _ _ _ Hnu Hsp). cbn [py_bind].
    rewrite (broadcast_uniform np_add _ _ _ Hlen Hsp). cbn [py_bind].
    rewrite IH; [|exact Hrest|now apply length_zipWith].
    cbn [drawn last_nu sumAbsorp sumTrans map fold_left].
    rewrite <- app_assoc, last_cons_default. reflexivity.
Qed.

Lemma plotDas_loop_transmission (n : nat) (results : list DasResult) :
  forall st,
    uniform n results -> List.length (sumTrans st) = n ->
    plotDas_loop "Transmission" st results =
    Return (mkPlot (drawn st ++ map gas_curve results)%list
              (last (map nu results) (last_nu st))
              (sumAbsorp st)
              (fold_left (zipWith np_mul) (map spectrum results) (sumTrans st))).
Proof.
  induction results as [|r rest IH]; intros st Huni Hlen.
  - simpl. rewrite app_nil_r. now destruct st.
  - apply Forall_cons_iff in Huni. destruct Huni as [[Hnu Hsp] Hrest].
    cbn [plotDas_loop]. unfold plotDas_step.
    cbn [String.eqb Ascii.eqb Bool.eqb].
    rewrite (ax_plot_uniform _ _ _ _ _ Hnu Hsp). cbn [py_bind].
    rewrite (broadcast_uniform np_mul _ _ _ Hlen Hsp). cbn [py_bind].
    rewrite IH; [|exact Hrest|now apply length_zipWith].
    cbn [drawn last_nu sumAbsorp sumTrans map fold_left].
    rewrite <- app_assoc, last_cons_default. reflexivity.
Qed.

Lemma plotDas_loop_coefficient (n : nat) (results : list DasResult) :
  forall st,
    uniform n results ->
    plotDas_loop "Absorp coeff" st results =
    Return (mkPlot (drawn st ++ map gas_curve results)%list
              (last (map nu results) (last_nu st))
              (sumAbsorp st) (sumTrans st)).
Proof.
  induction results as [|r rest IH]; intros st Huni.
  - simpl. rewrite app_nil_r. now destruct st.
  - apply Forall_cons_iff in Huni. destruct Huni as [[Hnu Hsp] Hrest].
    cbn [plotDas_loop]. unfold plotDas_step.
    cbn [String.eqb Ascii.eqb Bool.eqb].
    rewrite (ax_plot_uniform _ _ _ _ _ Hnu Hsp). cbn [py_bind].
    rewrite IH by exact Hrest.
    cbn [drawn last_nu sumAbsorp sumTrans map].
    rewrite <- app_assoc, last_cons_default. reflexivity.
Qed.

Lemma fold_zipWith_length {A : Type} (f : A -> A -> A) (n : nat)
    (xs : list (list A)) :
  forall acc,
    Forall (fun x => List.length x = n) xs -> List.length acc = n ->
    List.length (fold_left (zipWith f) xs acc) = n.
Proof.
  induction xs as [|x rest IH]; intros acc Hall Hacc; simpl; [exact Hacc|].
  apply Forall_cons_iff in Hall. destruct Hall as [Hx Hrest].
  apply IH; [assumption|]. now apply length_zipWith.
Qed.

Lemma uniform_spectra (n : nat) (results : list DasResult) :
  uniform n results ->
  Forall (fun x => List.length x = n) (map spectrum results).
Proof.
  intros Huni. apply Forall_map. eapply Forall_impl; [|exact Huni].
  simpl. tauto.
Qed.

Lemma uniform_last_nu (n : nat) (first : DasResult)
    (others : list DasResult) (d : list R) :
  uniform n (first :: others) ->
  List.length (last (map nu (first :: others)) d) = n.
Proof.
  intros Huni.
  assert (Hall : Forall (fun x => List.length x = n)
                   (map nu (first :: others))).
  { apply Forall_map. eapply Forall_impl; [|exact Huni]. simpl. tauto. }
  assert (Hne : map nu (first :: others) <> []) by discriminate.
  destruct (exists_last Hne) as (front & x & Heq). rewrite Heq in *.
  rewrite last_last. apply Forall_app in Hall. destruct Hall as [_ Hx].
  now inversion Hx.
Qed.

(** Line 271 on a grid with a point, and on the empty grid. *)
Lemma set_xlim_points (x : list R) :
  (0 < List.length x)%nat -> exists lims, set_xlim x = Return lims.
Proof.
  destruct x as [|x0 xs]; simpl; [lia|]. intros _.
  unfold set_xlim. simpl. eauto.
Qed.

Lemma set_xlim_empty (x : list R) :
  List.length x = 0%nat -> set_xlim x = Raise ValueError.
Proof.
  destruct x as [|x0 xs]; simpl; [reflexivity | discriminate].
Qed.

Lemma plotDas_absorbance_run (first : DasResult) (others : list DasResult)
    (n : nat) :
  uniform n (first :: others) -> (0 < n)%nat ->
  plotDas first others "Absorbance" true =
  Return (map gas_curve (first :: others)
          ++ [Curve None (last (map nu others) (nu first))
                (fold_left (zipWith np_add) (map spectrum (first :: others))
                   (map (fun _ => Finite 0) (nu first)))])%list.
Proof.
  intros Huni Hpos.
  assert (Hn : List.length (nu first) = n).
  { apply Forall_cons_iff in Huni. tauto. }
  unfold plotDas, plot_total.
  rewrite (plotDas_loop_absorbance n) by
    (try exact Huni; cbn [sumAbsorp]; now rewrite length_map).
  cbn [py_bind String.eqb Ascii.eqb Bool.eqb drawn last_nu sumAbsorp].
  rewrite (ax_plot_uniform _ _ _ _ n).
  - cbn [py_bind].
    destruct (set_xlim_points (last (map nu (first :: others)) []))
      as [lims ->]; [now rewrite (uniform_last_nu n)|].
    cbn [py_bind map]. now rewrite last_cons_default.
  - now apply uniform_last_nu.
  - apply fold_zipWith_length;
      [now apply uniform_spectra | now rewrite length_map].
Qed.

Lemma plotDas_transmission_run (first : DasResult) (others : list DasResult)
    (n : nat) :
  uniform n (first :: others) -> (0 < n)%nat ->
  plotDas first others "Transmission" true =
  Return (map gas_curve (first :: others)
          ++ [Curve None (last (map nu others) (nu first))
                (fold_left (zipWith np_mul) (map spectrum (first :: others))
                   (map (fun _ => Finite (0 + 1)) (nu first)))])%list.
Proof.
  intros Huni Hpos.
  assert (Hn : List.length (nu first) = n).
  { apply Forall_cons_iff in Huni. tauto. }
  unfold plotDas, plot_total.
  rewrite (plotDas_loop_transmission n) by
    (try exact Huni; cbn [sumTrans]; now rewrite !length_map).
  cbn [py_bind String.eqb Ascii.eqb Bool.eqb drawn last_nu sumTrans].
  rewrite (ax_plot_uniform _ _ _ _ n).
  - cbn [py_bind].
    destruct (set_xlim_points (last (map nu (first :: others)) []))
      as [lims ->]; [now rewrite (uniform_last_nu n)|].
    cbn [py_bind map]. now rewrite last_cons_default, map_map.
  - now apply uniform_last_nu.
  - apply fold_zipWith_length;
      [now apply uniform_spectra | now rewrite !length_map].
Qed.

Lemma plotDas_empty_grid (first : DasResult) (others : list DasResult)
    (mode : string) (showTotal : bool) :
  uniform 0 (first :: others) ->
  mode = "Absorp coeff" \/ mode = "Absorbance" \/ mode = "Transmission" ->
  plotDas first others mode showTotal = Raise ValueError.
Proof.
  intros Huni Hmode.
  assert (Hn : List.length (nu first) = 0%nat).
  { apply Forall_cons_iff in Huni. tauto. }
  pose proof (uniform_last_nu 0 first others [] Huni) as Hlast.
  assert (Htot : forall spectra acc,
             Forall (fun x : list np64 => List.length x = 0%nat) spectra ->
             List.length acc = 0%nat ->
             forall f, List.length (fold_left (zipWith f) spectra acc) = 0%nat).
  { intros spectra acc Hall Hacc f. now apply fold_zipWith_length. }
  unfold plotDas, plot_total.
  destruct Hmode as [-> | [-> | ->]].
  - rewrite (plotDas_loop_coefficient 0) by exact Huni.
    cbn [py_bind String.eqb Ascii.eqb Bool.eqb drawn last_nu].
    now rewrite set_xlim_empty.
  - rewrite (plotDas_loop_absorbance 0) by
      (try exact Huni; cbn [sumAbsorp]; now rewrite length_map).
    cbn [py_bind String.eqb Ascii.eqb Bool.eqb drawn last_nu sumAbsorp].
    destruct showTotal.
    + rewrite (ax_plot_uniform _ _ _ _ 0);
        [|exact Hlast
         |apply Htot; [now apply uniform_spectra | now rewrite length_map]].
      cbn [py_bind]. now rewrite set_xlim_empty.
    + cbn [py_bind]. now rewrite set_xlim_empty.
  - rewrite (plotDas_loop_transmission 0) by
      (try exact Huni; cbn [sumTrans]; now rewrite !length_map).
    cbn [py_bind String.eqb Ascii.eqb Bool.eqb drawn last_nu sumTrans].
    destruct showTotal.
    + rewrite (ax_plot_uniform _ _ _ _ 0);
        [|exact Hlast
         |apply Htot; [now apply uniform_spectra | now rewrite !length_map]].
      cbn [py_bind]. now rewrite set_xlim_empty.
    + cbn [py_bind]. now rewrite set_xlim_empty.
Qed.

(** X23.  When every grid and spectrum has the same number of points, at
    least one, the plot of mode ['Absorbance'] with [showTotal] draws one
    curve per result and then the ['Total'], the sum of the spectra point
    by point; mode ['Transmission'] does the same with their product; both
    totals are drawn against the grid of the last result.  On results with
    empty grids the three modes raise [ValueError], from [ax.set_xlim]; a
    mode outside the three names raises [UnboundLocalError]. *)
Theorem plotDas_totals :
  forall (first : DasResult) (others : list DasResult) (n : nat),
    uniform n (first :: others) ->
    ((0 < n)%nat ->
     plotDas first others "Absorbance" true =
     Return (map gas_curve (first :: others)
             ++ [Curve None (last (map nu others) (nu first))
                   (fold_left (zipWith np_add)
                      (map spectrum (first :: others))
                      (map (fun _ => Finite 0) (nu first)))])%list /\
     plotDas first others "Transmission" true =
     Return (map gas_curve (first :: others)
             ++ [Curve None (last (map nu others) (nu first))
                   (fold_left (zipWith np_mul)
                      (map spectrum (first :: others))
                      (map (fun _ => Finite (0 + 1)) (nu first)))])%list) /\
    (n = 0%nat ->
     forall mode showTotal,
       mode = "Absorp coeff" \/ mode = "Absorbance" \/ mode = "Transmission" ->
       plotDas first others mode showTotal = Raise ValueError) /\
    forall mode showTotal,
      mode <> "Absorp coeff" -> mode <> "Absorbance" ->
      mode <> "Transmission" ->
      plotDas first others mode showTotal = Raise UnboundLocalError.
Proof.
  intros first others n Huni.
  split; [|split].
  - intros Hpos. split.
    + now apply (plotDas_absorbance_run first others n).
    + now apply (plotDas_transmission_run first others n).
  - intros -> mode showTotal Hmode. now apply plotDas_empty_grid.
  - intros mode showTotal H1 H2 H3. unfold plotDas, plot_total.
    apply String.eqb_neq in H1, H2, H3.
    assert (Hloop : forall results st,
               exists st', plotDas_loop mode st results = Return st').
    { induction results as [|r rest IH]; intros st; simpl; [eauto|].
      unfold plotDas_step. rewrite H1, H2, H3. simpl. apply IH. }
    destruct (Hloop (first :: others)
                (mkPlot [] []
                   (map (fun _ => Finite 0) (nu first))
                   (map (fun z => np_add z (Finite 1))
                      (map (fun _ => Finite 0) (nu first)))))
      as [st' ->].
    cbn [py_bind]. now rewrite H2, H3, H1.
Qed.

Lemma plotDas_totals_witness :
  uniform 2 [Toy.result_a; Toy.result_b] /\
  plotDas Toy.result_a [Toy.result_b] "Absorbance" true =
  Return [gas_curve Toy.result_a; gas_curve Toy.result_b;
          Curve None [1100; 1101]
            (zipWith np_add
               (zipWith np_add [Finite 0; Finite 0] [Finite 3; Finite 4])
               [Finite 5; Finite 6])].
Proof.
  assert (Huni : uniform 2 [Toy.result_a; Toy.result_b]).
  { repeat constructor. }
  split; [exact Huni|].
  apply (proj1 (proj1 (plotDas_totals Toy.result_a [Toy.result_b] 2 Huni)
                  (Nat.lt_0_succ 1))).
Defined.

(** *** The totals of the results of one batch *)

Lemma zip_exp (a b : list R) :
  zipWith Rmult (map (fun x => exp (- x)) a) (map (fun x => exp (- x)) b)
  = map (fun x => exp (- x)) (zipWith Rplus a b).
Proof.
  unfold zipWith. revert b.
  induction a as [|x a IH]; intros b; [reflexivity|].
  destruct b as [|y b]; [reflexivity|].
  simpl. rewrite IH. f_equal.
  rewrite Ropp_plus_distr. symmetry. apply exp_plus.
Qed.

Lemma fold_exp (spectra : list (list R)) :
  forall acc,
    fold_left (zipWith Rmult) (map (map (fun x => exp (- x))) spectra)
      (map (fun x => exp (- x)) acc)
    = map (fun x => exp (- x)) (fold_left (zipWith Rplus) spectra acc).
Proof.
  induction spectra as [|a rest IH]; intros acc; simpl; [reflexivity|].
  now rewrite zip_exp, IH.
Qed.

(** Sums and products of finite values are finite. *)
Lemma zip_finite (f : R -> R -> R) (g : np64 -> np64 -> np64)
    (a b : list R) :
  (forall x y, g (Finite x) (Finite y) = Finite (f x y)) ->
  zipWith g (map Finite a) (map Finite b) = map Finite (zipWith f a b).
Proof.
  intros Hfg. unfold zipWith. revert b.
  induction a as [|x a IH]; intros b; [reflexivity|].
  destruct b as [|y b]; [reflexivity|].
  simpl. now rewrite IH, Hfg.
Qed.

Lemma fold_finite (f : R -> R -> R) (g : np64 -> np64 -> np64)
    (rows : list (list R)) :
  (forall x y, g (Finite x) (Finite y) = Finite (f x y)) ->
  forall acc,
    fold_left (zipWith g) (map (map Finite) rows) (map Finite acc)
    = map Finite (fold_left (zipWith f) rows acc).
Proof.
  intros Hfg. induction rows as [|a rest IH]; intros acc; simpl;
    [reflexivity|].
  now rewrite (zip_finite f g _ _ Hfg), IH.
Qed.

(** Point by point, a sum of numbers that are not negative bounds each of
    them. *)
Lemma Forall2_Rle_trans (a b d : list R) :
  Forall2 Rle a b -> Forall2 Rle b d -> Forall2 Rle a d.
Proof.
  intros Hab. revert d.
  induction Hab as [|x y a b Hxy _ IH]; intros d Hbd;
    inversion Hbd; subst; constructor; [lra | now apply IH].
Qed.

Lemma zip_plus_bounds (n : nat) (a b : list R) :
  List.length a = n -> List.length b = n ->
  Forall (fun x => 0 <= x) a -> Forall (fun x => 0 <= x) b ->
  Forall2 Rle a (zipWith Rplus a b) /\ Forall2 Rle b (zipWith Rplus a b) /\
  Forall (fun x => 0 <= x) (zipWith Rplus a b).
Proof.
  revert n b. unfold zipWith.
  induction a as [|x a IH]; intros n b Ha Hb Ha0 Hb0.
  - destruct b; [|simpl in *; congruence]. simpl. repeat constructor.
  - destruct b as [|y b]; [simpl in *; congruence|].
    destruct n as [|n]; [discriminate|].
    simpl in Ha, Hb. injection Ha as Ha. injection Hb as Hb.
    apply Forall_cons_iff in Ha0, Hb0.
    destruct Ha0 as [Hx Ha0]. destruct Hb0 as [Hy Hb0].
    destruct (IH n b Ha Hb Ha0 Hb0) as (H1 & H2 & H3).
    simpl. repeat split; constructor; auto; lra.
Qed.

Lemma fold_plus_bounds (n : nat) (rows : list (list R)) :
  forall acc,
    Forall (fun row => List.length row = n /\ Forall (fun x => 0 <= x) row)
           rows ->
    List.length acc = n -> Forall (fun x => 0 <= x) acc ->
    Forall2 Rle acc (fold_left (zipWith Rplus) rows acc) /\
    Forall (fun row => Forall2 Rle row (fold_left (zipWith Rplus) rows acc))
           rows.
Proof.
  induction rows as [|a rest IH]; intros acc Hrows Hlen Hacc; simpl.
  - split; [|constructor].
    clear. induction acc; constructor; [lra | assumption].
  - apply Forall_cons_iff in Hrows. destruct Hrows as [[Hla Ha0] Hrest].
    destruct (zip_plus_bounds n acc a Hlen Hla Hacc Ha0) as (H1 & H2 & H3).
    destruct (IH (zipWith Rplus acc a) Hrest) as [Hb1 Hb2];
      [now apply length_zipWith | exact H3 |].
    split; [eapply Forall2_Rle_trans; eassumption|].
    constructor; [eapply Forall2_Rle_trans; eassumption | exact Hb2].
Qed.

(** The exponential of a number between 0 and 511 is a normal binary64
    number. *)
Lemma exp_le_bpow2 (k : Z) : (0 <= k)%Z -> exp (IZR k) <= Binary64.bpow (2 * k).
Proof.
  intros Hk. pattern k. apply natlike_ind; [| |exact Hk].
  - rewrite exp_0. unfold Binary64.bpow. simpl. lra.
  - intros x Hx IH. unfold Z.succ.
    replace (2 * (x + 1))%Z with (2 * x + 1 + 1)%Z by lia.
    rewrite !Binary64Facts.bpow_succ, plus_IZR, exp_plus.
    pose proof exp_le_3 as H3.
    pose proof (Binary64Facts.bpow_pos (2 * x)) as Hb.
    pose proof (exp_pos (IZR x)) as He.
    pose proof (exp_pos 1) as He1. nra.
Qed.

Lemma exp_neg_normal (a : R) :
  a <= 511 -> Binary64.bpow (-1022) <= exp (- a).
Proof.
  intros Ha. apply Rle_trans with (exp (- IZR 511)).
  - rewrite exp_Ropp. change (-1022)%Z with (- (2 * 511))%Z.
    rewrite Binary64Facts.bpow_opp.
    apply Rinv_le_contravar; [apply exp_pos | apply exp_le_bpow2; lia].
  - apply DasFacts.exp_le_mono. lra.
Qed.

(** No underflow below a total that does not underflow. *)
Lemma np_exp_row (row total : list R) :
  Forall (fun x => 0 <= x) row -> Forall2 Rle row total ->
  Forall (fun A => Binary64.bpow (-1022) <= exp (- A)) total ->
  map (fun x => np_exp (- x)) row = map (fun x => Finite (exp (- x))) row.
Proof.
  intros Hrow Hle. revert Hrow.
  induction Hle as [|x T row total HxT _ IH]; intros Hrow Htot;
    [reflexivity|].
  apply Forall_cons_iff in Hrow, Htot.
  destruct Hrow as [Hx Hrow]. destruct Htot as [HT Htot].
  simpl. rewrite IH by assumption. f_equal.
  apply DasFacts.np_exp_finite.
  - assert (Hsub : Binary64.bpow (-1075) < Binary64.bpow (-1022))
      by (apply Binary64Facts.bpow_lt; lia).
    assert (Hmono : exp (- T) <= exp (- x)) by (apply DasFacts.exp_le_mono; lra).
    lra.
  - apply Rle_trans with 1; [apply DasFacts.exp_neg_unit; exact Hx|].
    apply (Binary64Facts.bpow_nonneg_ge1 1023).
Qed.

Lemma calDas_transmission_exp {db : Type} {hapi : Hapi db}
    (gasList : list GasParams) :
  forall (grid : list R) (profile : string) (iCut : R) (xi md : bool) (s : db)
         (rt : list DasResult) (s' : db),
    calDas gasList grid profile "Transmission" iCut xi md s
      = (Return (inr rt), s') ->
    exists ra rows,
      calDas gasList grid profile "Absorbance" iCut xi md s
        = (Return (inr ra), s') /\
      Forall2 (fun tr row => exp_of (fst tr) (snd tr) row)
              (combine rt ra) rows /\
      List.length rt = List.length ra.
Proof.
  induction gasList as [|g rest IH];
    intros grid profile iCut xi md s rt s' Hrun.
  - injection Hrun as <- <-. exists [], [].
    split; [reflexivity|]. split; [constructor | reflexivity].
  - rewrite calDas_cons in Hrun.
    destruct (calDas_body profile "Transmission" iCut xi md g grid s)
      as [[[msg | [grid1 r1]] | e] s1] eqn:Ebody; try discriminate.
    apply calDas_body_transmission in Ebody.
    destruct Ebody as (n & raw & _ & -> & HbA & _).
    destruct (calDas rest grid1 profile "Transmission" iCut xi md s1)
      as [[[msg | rt'] | e] s2] eqn:Erest; try discriminate.
    simpl in Hrun. injection Hrun as <- <-.
    destruct (IH _ _ _ _ _ _ _ _ Erest) as (ra' & rows & HA & Hrel & Hlen).
    exists (mkResult g grid1 (map (fun k => Finite (k * n * l g)) raw) :: ra'),
           (map (fun k => k * n * l g) raw :: rows).
    rewrite calDas_cons, HbA, HA. split; [reflexivity|].
    split; [|simpl; now rewrite Hlen].
    simpl. constructor; [|exact Hrel]. unfold exp_of. simpl.
    repeat split; auto. now rewrite map_map.
Qed.

Lemma exp_of_rows (rt ra : list DasResult) (rows : list (list R)) :
  Forall2 (fun tr row => exp_of (fst tr) (snd tr) row) (combine rt ra) rows ->
  List.length rt = List.length ra ->
  map gasParams rt = map gasParams ra /\ map nu rt = map nu ra /\
  map spectrum ra = map (map Finite) rows /\
  map spectrum rt = map (map (fun x => np_exp (- x))) rows.
Proof.
  revert ra rows. induction rt as [|t rt IH]; intros ra rows Hrel Hlen.
  - destruct ra; [|discriminate]. inversion Hrel; subst. repeat split.
  - destruct ra as [|a ra]; [discriminate|].
    simpl in Hrel. inversion Hrel as [|? row ? rows' Hex Hrest]; subst.
    injection Hlen as Hlen.
    destruct (IH ra rows' Hrest Hlen) as (H1 & H2 & H3 & H4).
    destruct Hex as (Hg & Hnu & Hsa & Hst). simpl in *.
    repeat split; congruence.
Qed.

(** X24.  The two totals agree with Beer-Lambert.  For the Transmission
    and the Absorbance results of one batch, with grids and spectra of one
    length and at least one point, the ['Total'] of the Absorbance plot is
    a curve of finite numbers; when no absorbance is negative and the
    exponential of minus each total is a normal binary64 number (a total
    of at most 708.39), the ['Total'] of the Transmission plot is
    [exp (- total)], on the same grid. *)
Theorem plotDas_total_transmission_is_exp :
  forall (db : Type) (hapi : Hapi db) (gasList : list GasParams)
         (grid : list R) (profile : string) (iCut : R) (xi md : bool) (s : db)
         (t0 : DasResult) (ts : list DasResult) (s' : db) (n : nat),
    calDas gasList grid profile "Transmission" iCut xi md s
      = (Return (inr (t0 :: ts)), s') ->
    uniform n (t0 :: ts) -> (0 < n)%nat ->
    exists a0 others xs total,
      calDas gasList grid profile "Absorbance" iCut xi md s
        = (Return (inr (a0 :: others)), s') /\
      plotDas a0 others "Absorbance" true =
      Return (map gas_curve (a0 :: others)
              ++ [Curve None xs (map Finite total)])%list /\
      (Forall nonnegative (a0 :: others) ->
       Forall (fun A => Binary64.bpow (-1022) <= exp (- A)) total ->
       plotDas t0 ts "Transmission" true =
       Return (map gas_curve (t0 :: ts)
               ++ [Curve None xs
                     (map (fun A => Finite (exp (- A))) total)])%list).
Proof.
  intros db hapi gasList grid profile iCut xi md s t0 ts s' n Hrun Huni Hpos.
  destruct (calDas_transmission_exp gasList _ _ _ _ _ _ _ _ Hrun)
    as (ra & rows & HA & Hrel & Hlen).
  destruct ra as [|a0 others]; [discriminate|].
  destruct (exp_of_rows _ _ _ Hrel Hlen) as (_ & Hnus & HspA & HspT).
  assert (HuniA : uniform n (a0 :: others)).
  { unfold uniform in *. apply Forall_forall. intros r Hr.
    apply In_nth_error in Hr. destruct Hr as [i Hi].
    assert (Hnu : nth_error (map nu (a0 :: others)) i = Some (nu r))
      by now rewrite nth_error_map, Hi.
    assert (Hsp : nth_error (map spectrum (a0 :: others)) i
                  = Some (spectrum r))
      by now rewrite nth_error_map, Hi.
    rewrite <- Hnus, nth_error_map in Hnu.
    rewrite HspA, nth_error_map in Hsp.
    destruct (nth_error (t0 :: ts) i) as [t|] eqn:Et; [|discriminate].
    assert (Hst : nth_error (map spectrum (t0 :: ts)) i = Some (spectrum t))
      by now rewrite nth_error_map, Et.
    rewrite HspT, nth_error_map in Hst.
    destruct (nth_error rows i) as [row|]; [|discriminate].
    simpl in Hnu, Hsp, Hst.
    injection Hnu as Hnu. injection Hsp as Hsp. injection Hst as Hst.
    apply nth_error_In in Et.
    rewrite Forall_forall in Huni. destruct (Huni t Et) as [Hn1 Hn2].
    rewrite <- Hst, length_map in Hn2.
    rewrite <- Hnu, <- Hsp, length_map. auto. }
  assert (Hnu0 : nu t0 = nu a0) by (simpl in Hnus; congruence).
  assert (Hnur : map nu ts = map nu others) by (simpl in Hnus; congruence).
  exists a0, others, (last (map nu others) (nu a0)),
    (fold_left (zipWith Rplus) rows (map (fun _ => 0) (nu a0))).
  split; [exact HA|]. split.
  - rewrite (plotDas_absorbance_run a0 others n HuniA Hpos). do 3 f_equal.
    rewrite HspA.
    rewrite <- (fold_finite Rplus np_add) by reflexivity.
    now rewrite map_map.
  - intros Hnn Htot.
    rewrite (plotDas_transmission_run t0 ts n Huni Hpos).
    rewrite Hnu0, Hnur. do 3 f_equal.
    assert (Hrows : Forall (fun row => List.length row = n /\
                                       Forall (fun x => 0 <= x) row) rows).
    { apply Forall_forall. intros row Hrow.
      apply In_nth_error in Hrow. destruct Hrow as [i Hi].
      assert (Hsp : nth_error (map spectrum (a0 :: others)) i
                    = Some (map Finite row))
        by now rewrite HspA, nth_error_map, Hi.
      rewrite nth_error_map in Hsp.
      destruct (nth_error (a0 :: others) i) as [r|] eqn:Er; [|discriminate].
      injection Hsp as Hsp. apply nth_error_In in Er.
      unfold uniform in HuniA. rewrite Forall_forall in HuniA, Hnn.
      destruct (HuniA r Er) as [_ Hn2]. specialize (Hnn r Er).
      unfold nonnegative in Hnn. rewrite Hsp in Hn2, Hnn.
      rewrite length_map in Hn2. split; [exact Hn2|].
      rewrite Forall_map in Hnn. eapply Forall_impl; [|exact Hnn].
      intros x (k & Hk & Hk0). injection Hk as ->. exact Hk0. }
    destruct (fold_plus_bounds n rows (map (fun _ => 0) (nu a0)) Hrows)
      as [_ Hbound].
    { rewrite length_map. apply Forall_cons_iff in HuniA. tauto. }
    { apply Forall_map. apply Forall_forall. intros; lra. }
    assert (Hfin : map (map (fun x => np_exp (- x))) rows
                   = map (map Finite) (map (map (fun x => exp (- x))) rows)).
    { rewrite map_map. apply map_ext_in. intros row Hrow.
      rewrite map_map.
      rewrite Forall_forall in Hbound, Hrows.
      apply np_exp_row with
        (total := fold_left (zipWith Rplus) rows (map (fun _ => 0) (nu a0)));
        [apply Hrows; exact Hrow | apply Hbound; exact Hrow | exact Htot]. }
    rewrite HspT, Hfin.
    replace (map (fun _ : R => Finite (0 + 1)) (nu a0))
      with (map Finite (map (fun x => exp (- x)) (map (fun _ => 0) (nu a0)))).
    + rewrite (fold_finite Rmult np_mul) by reflexivity.
      now rewrite fold_exp, map_map.
    + rewrite !map_map. apply map_ext. intros _.
      rewrite Ropp_0, exp_0. f_equal. lra.
Qed.

Lemma map_Finite_inj (a b : list R) : map Finite a = map Finite b -> a = b.
Proof.
  revert b. induction a as [|x a IH]; intros [|y b] Heq;
    try discriminate; [reflexivity|].
  simpl in Heq. injection Heq as -> Hrest. f_equal. now apply IH.
Qed.

Lemma plotDas_total_transmission_witness :
  exists t0 ts s' a0 others xs total,
    calDas (hapi := Toy.hapi 0 1e-13) [Toy.nh3; Toy.nh3_long] [1100; 1101]
      "Voigt" "Transmission" 1e-30 true false ["NH3"]
    = (Return (inr (t0 :: ts)), s') /\
    plotDas a0 others "Absorbance" true =
    Return (map gas_curve (a0 :: others)
            ++ [Curve None xs (map Finite total)])%list /\
    plotDas t0 ts "Transmission" true =
    Return (map gas_curve (t0 :: ts)
            ++ [Curve None xs (map (fun A => Finite (exp (- A))) total)])%list.
Proof.
  destruct (calDas (hapi := Toy.hapi 0 1e-13) [Toy.nh3; Toy.nh3_long]
              [1100; 1101] "Voigt" "Transmission" 1e-30 true false ["NH3"])
    as [[[msg | [|t0 ts]] | e] s'] eqn:Erun;
    [exfalso; revert Erun; das_run; discriminate
    |exfalso; revert Erun; das_run; discriminate
    |
    |exfalso; revert Erun; das_run; discriminate].
  assert (Huni : uniform 2 (t0 :: ts)).
  { revert Erun. das_run. intros Heq. injection Heq as <- <- _.
    repeat constructor. }
  destruct (plotDas_total_transmission_is_exp _ _ _ _ _ _ _ _ _ _ _ _ _
              Erun Huni (Nat.lt_0_succ 1))
    as (a0 & others & xs & total & HA & HplotA & Hplot).
  exists t0, ts, s', a0, others, xs, total.
  split; [reflexivity|]. split; [exact HplotA|].
  assert (HA' := HA). revert HA'. das_run. intros HA'.
  injection HA' as Ha0 Hothers _. subst a0 others.
  match type of HplotA with
  | plotDas ?a ?o _ _ = _ =>
      assert (HuniA : uniform 2 (a :: o)) by (repeat constructor)
  end.
  rewrite (plotDas_absorbance_run _ _ 2 HuniA (Nat.lt_0_succ 1)) in HplotA.
  apply WmsFacts.Return_inj in HplotA. apply app_inj_tail in HplotA.
  destruct HplotA as [_ Hcurve]. injection Hcurve as _ Htotal.
  cbn [map fold_left zipWith combine fst snd spectrum nu np_add] in Htotal.
  destruct total as [|x [|y [|z total]]]; try discriminate.
  injection Htotal as Hx Hy. subst x y.
  apply Hplot.
  - unfold nonnegative. cbn [spectrum].
    repeat (apply Forall_cons || apply Forall_nil);
      eexists; (split; [reflexivity | unfold kb; lra]).
  - repeat (apply Forall_cons || apply Forall_nil);
      apply exp_neg_normal; unfold kb; lra.
Defined.

End PlotFacts.
